(** * Chunked upload service: a shallow embedding of [s3/app]

    The development follows the layout of the repository:

    - [Hashlib], [Hmac], [Base64], [Json], [Datetime], [Uuid], [Str]: the
      functions of the Python standard library that the sources call, by
      their published definitions (FIPS 180-4, RFC 2104, RFC 4648, the
      [json], [datetime] and [uuid] modules, [str] and [int]);
    - [Http], the world and its monad, [Os]: requests and answers of the
      storage backend, the upload root [UPLOAD_DIR], the clock, and the
      effects a handler can have on them;
    - [S3]: [services/s3.py], the signing and transfer client;
    - [Config]: [core/config.py] and [utils/s3.py];
    - [ChunkUpload]: [routers/chunk_upload.py];
    - [FileUpload]: [routers/file_upload.py].

    Then come the definitions the properties are stated with, checks of
    the library models on known values, the lemmas, and the claims C1-C10.

    Python [str] values are kept as [string], read as their UTF-8 bytes, so
    [s.encode("utf-8")] is [encode s]; [bytes] values are lists of [byte]. *)

From Stdlib Require Import ZArith Lia Strings.Byte Ascii String DecimalString DecimalPos.
From stdpp Require Import gmap strings list sorting.

Local Open Scope Z_scope.

Abbreviation bytes := (list byte) (only parsing).

Definition Z_of_byte (b : byte) : Z := Z.of_N (Byte.to_N b).

Definition byte_of_Z (z : Z) : byte :=
  default x00 (Byte.of_N (Z.to_N (z mod 256))).

(** [str.encode("utf-8")] and [bytes.decode("utf-8")]. *)
Definition encode (s : string) : bytes := list_byte_of_string s.
Definition decode (b : bytes) : string := string_of_list_byte b.

(** ** hashlib.sha256 *)
Module Hashlib.

(** 32-bit words are integers in [0, 2^32); every operation that can leave
    the range reduces modulo [2^32]. *)
Definition wrap32 (x : Z) : Z := x mod 2 ^ 32.
Definition add32 (x y : Z) : Z := wrap32 (x + y).
Definition rotr (n x : Z) : Z :=
  Z.lor (Z.shiftr x n) (wrap32 (Z.shiftl x (32 - n))).
Definition not32 (x : Z) : Z := Z.lxor x (2 ^ 32 - 1).

Definition ch (x y z : Z) : Z := Z.lxor (Z.land x y) (Z.land (not32 x) z).
Definition maj (x y z : Z) : Z :=
  Z.lxor (Z.lxor (Z.land x y) (Z.land x z)) (Z.land y z).
Definition bsig0 (x : Z) : Z := Z.lxor (Z.lxor (rotr 2 x) (rotr 13 x)) (rotr 22 x).
Definition bsig1 (x : Z) : Z := Z.lxor (Z.lxor (rotr 6 x) (rotr 11 x)) (rotr 25 x).
Definition ssig0 (x : Z) : Z := Z.lxor (Z.lxor (rotr 7 x) (rotr 18 x)) (Z.shiftr x 3).
Definition ssig1 (x : Z) : Z := Z.lxor (Z.lxor (rotr 17 x) (rotr 19 x)) (Z.shiftr x 10).

(** Round constants and initial state, in decimal. *)
Definition round_constants : list Z :=
  [ 1116352408; 1899447441; 3049323471; 3921009573; 961987163; 1508970993;
    2453635748; 2870763221; 3624381080; 310598401; 607225278; 1426881987;
    1925078388; 2162078206; 2614888103; 3248222580; 3835390401; 4022224774;
    264347078; 604807628; 770255983; 1249150122; 1555081692; 1996064986;
    2554220882; 2821834349; 2952996808; 3210313671; 3336571891; 3584528711;
    113926993; 338241895; 666307205; 773529912; 1294757372; 1396182291;
    1695183700; 1986661051; 2177026350; 2456956037; 2730485921; 2820302411;
    3259730800; 3345764771; 3516065817; 3600352804; 4094571909; 275423344;
    430227734; 506948616; 659060556; 883997877; 958139571; 1322822218;
    1537002063; 1747873779; 1955562222; 2024104815; 2227730452; 2361852424;
    2428436474; 2756734187; 3204031479; 3329325298 ].

Record state := State {
  ha : Z; hb : Z; hc : Z; hd : Z; he : Z; hf : Z; hg : Z; hh : Z }.

Definition initial_state : state :=
  State 1779033703 3144134277 1013904242 2773480762
        1359893119 2600822924 528734635 1541459225.

(** One round, given the round constant and the schedule word. *)
Definition round (k w : Z) (s : state) : state :=
  let t1 := add32 (add32 (add32 (add32 (hh s) (bsig1 (he s))) (ch (he s) (hf s) (hg s))) k) w in
  let t2 := add32 (bsig0 (ha s)) (maj (ha s) (hb s) (hc s)) in
  State (add32 t1 t2) (ha s) (hb s) (hc s) (add32 (hd s) t1) (he s) (hf s) (hg s).

(** The message schedule is kept as a sliding window of the last sixteen
    words; its head is the word of the current round. *)
Definition next_word (win : list Z) : Z :=
  add32 (add32 (add32 (ssig1 (nth 14 win 0)) (nth 9 win 0)) (ssig0 (nth 1 win 0)))
        (nth 0 win 0).

Fixpoint rounds (ks : list Z) (win : list Z) (s : state) : state :=
  match ks with
  | [] => s
  | k :: ks' => rounds ks' (tail win ++ [next_word win]) (round k (nth 0 win 0) s)
  end.

Definition add_state (s t : state) : state :=
  State (add32 (ha s) (ha t)) (add32 (hb s) (hb t)) (add32 (hc s) (hc t))
        (add32 (hd s) (hd t)) (add32 (he s) (he t)) (add32 (hf s) (hf t))
        (add32 (hg s) (hg t)) (add32 (hh s) (hh t)).

(** Big-endian words of a block of byte values. *)
Fixpoint words_of (bs : list Z) : list Z :=
  match bs with
  | b0 :: b1 :: b2 :: b3 :: rest =>
      (Z.shiftl b0 24 + Z.shiftl b1 16 + Z.shiftl b2 8 + b3) :: words_of rest
  | _ => []
  end.

Definition compress (s : state) (block : list Z) : state :=
  add_state s (rounds round_constants (words_of block) s).

(** Padding: a [1] bit, zeros up to 56 modulo 64, the bit length on 8 bytes. *)
Definition be_bytes (n : nat) (x : Z) : list Z :=
  map (fun i => Z.shiftr x (8 * Z.of_nat i) mod 256) (rev (seq 0 n)).

Definition pad (msg : list Z) : list Z :=
  let len := Z.of_nat (length msg) in
  let zeros := Z.to_nat ((55 - len) mod 64) in
  msg ++ [128] ++ repeat 0 zeros ++ be_bytes 8 (8 * len).

Fixpoint absorb (n : nat) (s : state) (bs : list Z) : state :=
  match n with
  | O => s
  | S n' => absorb n' (compress s (firstn 64 bs)) (skipn 64 bs)
  end.

Definition state_bytes (s : state) : list Z :=
  concat (map (be_bytes 4) [ha s; hb s; hc s; hd s; he s; hf s; hg s; hh s]).

(** [hashlib.sha256(data).digest()] *)
Definition sha256 (data : bytes) : bytes :=
  let padded := pad (map Z_of_byte data) in
  map byte_of_Z (state_bytes (absorb (length padded / 64)%nat initial_state padded)).

Definition hex_digit (z : Z) : ascii :=
  ascii_of_nat (Z.to_nat (if z <? 10 then 48 + z else 87 + z)).

(** [bytes.hex()] *)
Fixpoint hex (b : bytes) : string :=
  match b with
  | [] => EmptyString
  | x :: rest =>
      String (hex_digit (Z_of_byte x / 16)) (String (hex_digit (Z_of_byte x mod 16)) (hex rest))
  end.

(** [hashlib.sha256(data).hexdigest()] *)
Definition sha256_hexdigest (data : bytes) : string := hex (sha256 data).

End Hashlib.

(** ** hmac.new(key, msg, hashlib.sha256) *)
Module Hmac.

Definition block_size : nat := 64.

Definition xor_pad (c : Z) (key : bytes) : bytes :=
  map (fun b => byte_of_Z (Z.lxor (Z_of_byte b) c)) key.

(** Keys longer than a block are hashed first; then zero-padded to a block. *)
Definition block_key (key : bytes) : bytes :=
  let k := if (block_size <? length key)%nat then Hashlib.sha256 key else key in
  k ++ repeat x00 (block_size - length k).

(** [hmac.new(key, msg, hashlib.sha256).digest()] *)
Definition digest (key msg : bytes) : bytes :=
  let k := block_key key in
  Hashlib.sha256 (xor_pad 92 k ++ Hashlib.sha256 (xor_pad 54 k ++ msg)).

(** [hmac.new(key, msg, hashlib.sha256).hexdigest()] *)
Definition hexdigest (key msg : bytes) : string := Hashlib.hex (digest key msg).

End Hmac.

(** ** base64.b64encode *)
Module Base64.

Definition alphabet : string :=
  "ABCDEFGHIJKLMNOPQRSTUVWXYZabcdefghijklmnopqrstuvwxyz0123456789+/".

Definition sextet (z : Z) : byte :=
  match String.get (Z.to_nat z) alphabet with
  | Some c => byte_of_ascii c
  | None => "="%byte
  end.

(** Three bytes give four characters; a final group of one or two bytes
    is completed with [=]. *)
Fixpoint encode_values (bs : list Z) : bytes :=
  match bs with
  | [] => []
  | [x] =>
      [sextet (Z.shiftr x 2); sextet (Z.shiftl (Z.land x 3) 4); "="%byte; "="%byte]
  | [x; y] =>
      [sextet (Z.shiftr x 2);
       sextet (Z.lor (Z.shiftl (Z.land x 3) 4) (Z.shiftr y 4));
       sextet (Z.shiftl (Z.land y 15) 2); "="%byte]
  | x :: y :: z :: rest =>
      sextet (Z.shiftr x 2)
      :: sextet (Z.lor (Z.shiftl (Z.land x 3) 4) (Z.shiftr y 4))
      :: sextet (Z.lor (Z.shiftl (Z.land y 15) 2) (Z.shiftr z 6))
      :: sextet (Z.land z 63)
      :: encode_values rest
  end.

Definition b64encode (data : bytes) : bytes := encode_values (map Z_of_byte data).

End Base64.

(** ** json.dumps *)
Module Json.

(** The values [upload_file_multipart] serialises: strings, lists and
    dictionaries (in insertion order). *)
#[warnings="-register-all"]
Inductive value :=
| Str (s : string)
| Arr (items : list value)
| Obj (members : list (string * value)).

Definition hex4 (cp : Z) : string :=
  String (Hashlib.hex_digit (cp / 4096 mod 16))
    (String (Hashlib.hex_digit (cp / 256 mod 16))
      (String (Hashlib.hex_digit (cp / 16 mod 16))
        (String (Hashlib.hex_digit (cp mod 16)) EmptyString))).

Definition u_escape (cp : Z) : string := "\u" +:+ hex4 cp.

(** [ensure_ascii=True]: a code point outside [' '..'~'] is written as a
    [\uXXXX] escape, as a surrogate pair above the basic plane. *)
Definition escape_code_point (cp : Z) : string :=
  if cp =? 34 then "\" +:+ String (ascii_of_nat 34) EmptyString
  else if cp =? 92 then "\\"
  else if cp =? 10 then "\n"
  else if cp =? 13 then "\r"
  else if cp =? 9 then "\t"
  else if cp =? 8 then "\b"
  else if cp =? 12 then "\f"
  else if (32 <=? cp) && (cp <=? 126) then String (ascii_of_nat (Z.to_nat cp)) EmptyString
  else if cp <? 65536 then u_escape cp
  else
    let v := cp - 65536 in
    u_escape (55296 + Z.shiftr v 10) +:+ u_escape (56320 + Z.land v 1023).

(** Code points of a string given by its UTF-8 bytes. *)
Fixpoint code_points (bs : list Z) : list Z :=
  match bs with
  | [] => []
  | b :: rest =>
      if b <? 192 then b :: code_points rest
      else if b <? 224 then
        match rest with
        | c1 :: rest' =>
            (Z.shiftl (Z.land b 31) 6 + Z.land c1 63) :: code_points rest'
        | _ => [b]
        end
      else if b <? 240 then
        match rest with
        | c1 :: c2 :: rest' =>
            (Z.shiftl (Z.land b 15) 12 + Z.shiftl (Z.land c1 63) 6 + Z.land c2 63)
            :: code_points rest'
        | _ => [b]
        end
      else
        match rest with
        | c1 :: c2 :: c3 :: rest' =>
            (Z.shiftl (Z.land b 7) 18 + Z.shiftl (Z.land c1 63) 12
             + Z.shiftl (Z.land c2 63) 6 + Z.land c3 63)
            :: code_points rest'
        | _ => [b]
        end
  end.

Definition quote (s : string) : string :=
  let dq := String (ascii_of_nat 34) EmptyString in
  dq +:+ String.concat EmptyString
           (map escape_code_point (code_points (map Z_of_byte (encode s)))) +:+ dq.

(** [json.dumps(v)] with the default separators [", "] and [": "]. *)
Fixpoint dumps (v : value) : string :=
  match v with
  | Str s => quote s
  | Arr items =>
      "[" +:+ String.concat ", " (map dumps items) +:+ "]"
  | Obj members =>
      "{" +:+ String.concat ", "
                (map (fun kv => quote (fst kv) +:+ ": " +:+ dumps (snd kv)) members) +:+ "}"
  end.

End Json.

(** ** datetime *)
Module Datetime.

(** A naive [datetime] (the source drops [tzinfo]). *)
Record t := Make {
  year : Z; month : Z; day : Z; hour : Z; minute : Z; second : Z; microsecond : Z }.

Definition is_leap (y : Z) : bool :=
  (y mod 4 =? 0) && (negb (y mod 100 =? 0) || (y mod 400 =? 0)).

Definition days_before_year (y : Z) : Z :=
  let p := y - 1 in p * 365 + p / 4 - p / 100 + p / 400.

Definition days_in_month_table : list Z :=
  [31; 28; 31; 30; 31; 30; 31; 31; 30; 31; 30; 31].

(** [m] ranges over 1..12. *)
Definition days_in_month (y m : Z) : Z :=
  if (m =? 2) && is_leap y then 29
  else nth (Z.to_nat (m - 1)) days_in_month_table 0.

Definition days_before_month (y m : Z) : Z :=
  fold_right Z.add 0 (firstn (Z.to_nat (m - 1)) days_in_month_table)
  + (if (2 <? m) && is_leap y then 1 else 0).

(** Proleptic Gregorian ordinal: 1 January of year 1 is day 1. *)
Definition ymd2ord (y m d : Z) : Z :=
  days_before_year y + days_before_month y m + d.

Definition di400y : Z := days_before_year 401.
Definition di100y : Z := days_before_year 101.
Definition di4y : Z := days_before_year 5.

(** The date of day [n] (counted from 0) of the 400-year cycle number
    [n400]. *)
Definition ord2ymd_in_cycle (n400 n : Z) : Z * Z * Z :=
  let n100 := n / di100y in
  let n := n mod di100y in
  let n4 := n / di4y in
  let n := n mod di4y in
  let n1 := n / 365 in
  let n := n mod 365 in
  let y := n400 * 400 + 1 + n100 * 100 + n4 * 4 + n1 in
  if (n1 =? 4) || (n100 =? 4) then (y - 1, 12, 31)
  else
    let leapyear := (n1 =? 3) && (negb (n4 =? 24) || (n100 =? 3)) in
    let m := Z.shiftr (n + 50) 5 in
    let preceding :=
      fold_right Z.add 0 (firstn (Z.to_nat (m - 1)) days_in_month_table)
      + (if (2 <? m) && leapyear then 1 else 0) in
    if n <? preceding then
      let m' := m - 1 in
      let preceding' :=
        preceding - (nth (Z.to_nat (m' - 1)) days_in_month_table 0
                     + (if (m' =? 2) && leapyear then 1 else 0)) in
      (y, m', n - preceding' + 1)
    else (y, m, n - preceding + 1).

Definition ord2ymd (ordinal : Z) : Z * Z * Z :=
  let n := ordinal - 1 in
  ord2ymd_in_cycle (n / di400y) (n mod di400y).

Definition max_ordinal : Z := 3652059.

(** [dt + datetime.timedelta(hours=h)]; [None] stands for the
    [OverflowError] raised when the date leaves years 1..9999. *)
Definition add_hours (h : Z) (dt : t) : option t :=
  let total :=
    ((ymd2ord (year dt) (month dt) (day dt) * 24 + hour dt + h) * 60 + minute dt) * 60
    + second dt in
  let days := total / 86400 in
  let secs := total mod 86400 in
  if (0 <? days) && (days <=? max_ordinal) then
    let '(y, m, d) := ord2ymd days in
    Some (Make y m d (secs / 3600) (secs mod 3600 / 60) (secs mod 60) (microsecond dt))
  else None.

Definition str_of_nat_like (z : Z) : string :=
  NilZero.string_of_uint (N.to_uint (Z.to_N z)).

(** Decimal of [z], zero-padded on the left to [width] characters. *)
Definition zero_pad (width : nat) (z : Z) : string :=
  let s := str_of_nat_like z in
  string_of_list_ascii (repeat "0"%char (width - String.length s)) +:+ s.

(** [strftime("%Y%m%d")] *)
Definition date_stamp (dt : t) : string :=
  zero_pad 4 (year dt) +:+ zero_pad 2 (month dt) +:+ zero_pad 2 (day dt).

(** [strftime("%Y%m%dT%H%M%SZ")] *)
Definition amz_date (dt : t) : string :=
  date_stamp dt +:+ "T" +:+ zero_pad 2 (hour dt) +:+ zero_pad 2 (minute dt)
  +:+ zero_pad 2 (second dt) +:+ "Z".

(** [strftime("%Y-%m-%dT%H:%M:%SZ")] *)
Definition iso_z (dt : t) : string :=
  zero_pad 4 (year dt) +:+ "-" +:+ zero_pad 2 (month dt) +:+ "-" +:+ zero_pad 2 (day dt)
  +:+ "T" +:+ zero_pad 2 (hour dt) +:+ ":" +:+ zero_pad 2 (minute dt) +:+ ":"
  +:+ zero_pad 2 (second dt) +:+ "Z".

End Datetime.


(** ** Python strings: [startswith], [split], [int], f-string of an [int] *)
Module Str.

(** [f"{n}"] for an [int]. *)
Definition of_int (n : Z) : string := NilZero.string_of_int (Z.to_int n).

(** [s.startswith(p)] *)
Definition startswith (p s : string) : bool := String.prefix p s.

(** [s.split(sep)] for a one-character separator: never empty, and
    adjacent separators give empty fields. *)
Fixpoint split (sep : ascii) (s : string) : list string :=
  match s with
  | EmptyString => [EmptyString]
  | String c r =>
      if Ascii.eqb c sep then EmptyString :: split sep r
      else match split sep r with
           | h :: t => String c h :: t
           | [] => [String c EmptyString]
           end
  end.

Definition is_space (c : ascii) : bool :=
  let n := Z.of_nat (nat_of_ascii c) in
  ((9 <=? n) && (n <=? 13)) || ((28 <=? n) && (n <=? 32)).

Fixpoint lstrip (s : string) : string :=
  match s with
  | String c r => if is_space c then lstrip r else s
  | EmptyString => EmptyString
  end.

Fixpoint rstrip (s : string) : string :=
  match s with
  | EmptyString => EmptyString
  | String c r =>
      match rstrip r with
      | EmptyString => if is_space c then EmptyString else String c EmptyString
      | r' => String c r'
      end
  end.

Definition strip (s : string) : string := rstrip (lstrip s).

(** [int(s)] in base 10 on ASCII text: surrounding white space, an
    optional sign, then at least one digit; [None] is [ValueError].
    (Digit-group underscores are left out: the one caller passes a field
    of [split("_")], which holds none.) *)
Definition to_int (s : string) : option Z :=
  match strip s with
  | String "-" r => (fun u => - Z.of_uint u) <$> NilZero.uint_of_string r
  | String "+" r => Z.of_uint <$> NilZero.uint_of_string r
  | t => Z.of_uint <$> NilZero.uint_of_string t
  end.

End Str.

(** ** uuid *)
Module Uuid.

(** The 32 hexadecimal digits of a 128-bit value, most significant first. *)
Definition hex32 (n : Z) : list ascii :=
  map (fun i => Hashlib.hex_digit (Z.shiftr n (4 * Z.of_nat i) mod 16)) (rev (seq 0 32)).

(** [str(u)] for the UUID of integer value [n]: the digits in groups of
    8, 4, 4, 4 and 12, joined by hyphens. *)
Definition to_str (n : Z) : string :=
  let h := hex32 n in
  string_of_list_ascii
    (take 8 h ++ "-"%char :: take 4 (drop 8 h) ++ "-"%char :: take 4 (drop 12 h)
     ++ "-"%char :: take 4 (drop 16 h) ++ "-"%char :: drop 20 h).

End Uuid.

(** ** HTTP exchanges with the storage backend (aiohttp) *)
Module Http.

(** A part of an [aiohttp.FormData]. *)
Inductive field :=
| Text (name value : string)
| Upload (name : string) (data : bytes) (filename content_type : string).

Inductive payload :=
| Data (data : bytes)
| Form (fields : list field).

Record request := Request {
  method : string;
  url : string;
  headers : list (string * string);
  body : payload }.

(** What the backend answers: a status with the body text, or nothing
    (the connection fails and aiohttp raises [ClientError]). *)
Inductive reply :=
| Response (status : Z) (text : string)
| Unreachable.

End Http.

(** ** Exceptions and values *)

(** [HTTPExeption] is imported from [fastapi] under this spelling by both
    routers; it is kept as an exception class that stores its [status_code]
    and the keyword arguments given to it. *)
Inductive exn :=
| HTTPExeption (status_code : Z) (kwargs : list (string * string))
| S3ClientException (status_code : Z) (message : string)
| FileNotFoundError
| NotADirectoryError
| IsADirectoryError
| FileExistsError
| ValueError
| IndexError
| TypeError
| OverflowError
| ClientError.

(** A path under [UPLOAD_DIR]: [os.path.join(UPLOAD_DIR, name)] or
    [os.path.join(UPLOAD_DIR, dir, name)]. Names are single path
    components. *)
Inductive path :=
| InRoot (name : string)
| InDir (dir name : string).

(** What a handler can return, and the arguments of the calls modelled
    with their binding. [PCoroutine] is a coroutine object that was never
    awaited. *)
Inductive pyval :=
| PNone
| PStr (s : string)
| PBytes (b : bytes)
| PPath (p : path)
| PDict (items : list (string * string))
| PExc (e : exn)
| PCoroutine.

(** ** The world: upload root, clock and effects *)

(** An entry of the upload root. The entries of a directory are kept in
    the order [os.listdir] enumerates them. *)
Inductive node :=
| File (data : bytes)
| Dir (entries : list (string * bytes)).

Inductive event :=
| EvMakedirs (name : string)
| EvOpenWrite (p : path)
| EvWrite (p : path) (data : bytes)
| EvRmtree (name : string)
| EvRemove (name : string)
| EvRequest (r : Http.request).

Record world := World {
  root : gmap string node;   (* the content of UPLOAD_DIR *)
  ticks : nat;               (* clock readings taken so far *)
  log : list event }.        (* side effects, oldest first *)

(** What lies outside the process: the [n]-th reading of the system clock
    and the storage backend. *)
Record env := Env {
  clock : nat -> Datetime.t;
  backend : Http.request -> Http.reply }.

Inductive result (A : Type) :=
| Ok (a : A)
| Raise (e : exn).
Arguments Ok {A} a.
Arguments Raise {A} e.

Definition M (A : Type) : Type := world -> result A * world.

Definition ret {A} (a : A) : M A := fun w => (Ok a, w).

Definition raise {A} (e : exn) : M A := fun w => (Raise e, w).

Definition bind {A B} (m : M A) (k : A -> M B) : M B :=
  fun w =>
    match m w with
    | (Ok a, w') => k a w'
    | (Raise e, w') => (Raise e, w')
    end.

(** [try: m  except Exception as e: handler(e)] (also the bare [except:]):
    every exception of [exn] derives from [Exception]. *)
Definition try_except {A} (m : M A) (handler : exn -> M A) : M A :=
  fun w =>
    match m w with
    | (Ok a, w') => (Ok a, w')
    | (Raise e, w') => handler e w'
    end.

Notation "'let*' x ':=' m 'in' k" := (bind m (fun x => k))
  (at level 10, x name, m at level 100, k at level 200, only parsing).

Definition get_root : M (gmap string node) := fun w => (Ok (root w), w).

Definition set_root (r : gmap string node) : M unit :=
  fun w => (Ok tt, World r (ticks w) (log w)).

Definition emit (ev : event) : M unit :=
  fun w => (Ok tt, World (root w) (ticks w) (log w ++ [ev])).

(** [datetime.datetime.now(datetime.UTC).replace(tzinfo=None)] *)
Definition datetime_now (E : env) : M Datetime.t :=
  fun w => (Ok (clock E (ticks w)), World (root w) (S (ticks w)) (log w)).

Fixpoint for_each {A} (l : list A) (body : A -> M unit) : M unit :=
  match l with
  | [] => ret tt
  | x :: rest => let* _ := body x in for_each rest body
  end.

(** The read size of both copy loops, [1024 * 1024]. *)
Definition block_size : nat := Z.to_nat (1024 * 1024).
Arguments block_size : simpl never.

(** [while True: data = src.read(blk); if not data: break; write(data)].
    [n] bounds the number of bytes left in [src]; once it is [0] the read
    returns no data. *)
Fixpoint copy_blocks (blk n : nat) (src : bytes) (write : bytes -> M unit) : M unit :=
  match n with
  | O => ret tt
  | S n' =>
      match take blk src with
      | [] => ret tt
      | data => let* _ := write data in copy_blocks blk n' (drop blk src) write
      end
  end.

Definition copy_stream (src : bytes) (write : bytes -> M unit) : M unit :=
  copy_blocks block_size (length src) src write.

(** ** os, shutil and file objects on the upload root *)
Module Os.

Definition lookup_entry (name : string) (es : list (string * bytes)) : option bytes :=
  snd <$> List.find (fun e => bool_decide (fst e = name)) es.

(** Create or truncate-and-fill the entry [name]: an existing entry keeps
    its place, a new one goes last. *)
Fixpoint set_entry (name : string) (data : bytes) (es : list (string * bytes))
  : list (string * bytes) :=
  match es with
  | [] => [(name, data)]
  | (n, d) :: rest =>
      if bool_decide (n = name) then (n, data) :: rest
      else (n, d) :: set_entry name data rest
  end.

(** [os.path.exists(os.path.join(UPLOAD_DIR, name))] *)
Definition path_exists (name : string) : M bool :=
  let* r := get_root in
  ret (bool_decide (is_Some (r !! name))).

(** [os.makedirs(os.path.join(UPLOAD_DIR, name), exist_ok=True)] *)
Definition makedirs (name : string) : M unit :=
  let* r := get_root in
  match r !! name with
  | None => let* _ := emit (EvMakedirs name) in set_root (<[name := Dir []]> r)
  | Some (Dir _) => ret tt
  | Some (File _) => raise FileExistsError
  end.

(** [os.listdir(os.path.join(UPLOAD_DIR, name))] *)
Definition listdir (name : string) : M (list string) :=
  let* r := get_root in
  match r !! name with
  | Some (Dir es) => ret (map fst es)
  | Some (File _) => raise NotADirectoryError
  | None => raise FileNotFoundError
  end.

(** [open(p, "wb")]: the file is created, or emptied if it exists. *)
Definition open_wb (p : path) : M unit :=
  let* r := get_root in
  match p with
  | InRoot name =>
      match r !! name with
      | Some (Dir _) => raise IsADirectoryError
      | _ => let* _ := emit (EvOpenWrite p) in set_root (<[name := File []]> r)
      end
  | InDir dir name =>
      match r !! dir with
      | Some (Dir es) =>
          let* _ := emit (EvOpenWrite p) in
          set_root (<[dir := Dir (set_entry name [] es)]> r)
      | Some (File _) => raise NotADirectoryError
      | None => raise FileNotFoundError
      end
  end.

(** [f.write(data)] on the file opened at [p]. *)
Definition write (p : path) (data : bytes) : M unit :=
  let* r := get_root in
  match p with
  | InRoot name =>
      match r !! name with
      | Some (File old) =>
          let* _ := emit (EvWrite p data) in
          set_root (<[name := File (old ++ data)]> r)
      | _ => raise FileNotFoundError
      end
  | InDir dir name =>
      match r !! dir with
      | Some (Dir es) =>
          match lookup_entry name es with
          | Some old =>
              let* _ := emit (EvWrite p data) in
              set_root (<[dir := Dir (set_entry name (old ++ data) es)]> r)
          | None => raise FileNotFoundError
          end
      | _ => raise FileNotFoundError
      end
  end.

(** [open(p, "rb")]: the bytes the reads will deliver. *)
Definition open_rb (p : path) : M bytes :=
  let* r := get_root in
  match p with
  | InRoot name =>
      match r !! name with
      | Some (File data) => ret data
      | Some (Dir _) => raise IsADirectoryError
      | None => raise FileNotFoundError
      end
  | InDir dir name =>
      match r !! dir with
      | Some (Dir es) =>
          match lookup_entry name es with
          | Some data => ret data
          | None => raise FileNotFoundError
          end
      | Some (File _) => raise NotADirectoryError
      | None => raise FileNotFoundError
      end
  end.

(** [shutil.rmtree(os.path.join(UPLOAD_DIR, name))] *)
Definition rmtree (name : string) : M unit :=
  let* r := get_root in
  match r !! name with
  | Some (Dir _) => let* _ := emit (EvRmtree name) in set_root (delete name r)
  | Some (File _) => raise NotADirectoryError
  | None => raise FileNotFoundError
  end.

(** [os.remove(p)] for a path directly under the upload root. *)
Definition remove (p : path) : M unit :=
  let* r := get_root in
  match p with
  | InRoot name =>
      match r !! name with
      | Some (File _) => let* _ := emit (EvRemove name) in set_root (delete name r)
      | Some (Dir _) => raise IsADirectoryError
      | None => raise FileNotFoundError
      end
  | InDir _ _ => raise FileNotFoundError
  end.

(** [os.path.basename(p)] *)
Definition basename (p : path) : string :=
  match p with
  | InRoot name => name
  | InDir _ name => name
  end.

End Os.

(** ** services/s3.py *)
Module S3.

Record S3Client := Client {
  access_key : string;
  secret_key : string;
  endpoint : string;
  region : string }.

(** [S3Client.get_signature_key] (lines 34-41). *)
Definition get_signature_key (key date_stamp region service : string) : bytes :=
  let k_date := Hmac.digest (encode ("AWS4" +:+ key)) (encode date_stamp) in
  let k_region := Hmac.digest k_date (encode region) in
  let k_service := Hmac.digest k_region (encode service) in
  let k_signing := Hmac.digest k_service (encode "aws4_request") in
  k_signing.

(** [d[k] = v] on a [dict] kept in insertion order. *)
Fixpoint dict_set (k v : string) (d : list (string * string)) : list (string * string) :=
  match d with
  | [] => [(k, v)]
  | (k', v') :: rest =>
      if bool_decide (k' = k) then (k', v) :: rest else (k', v') :: dict_set k v rest
  end.

Definition newline : string := String (ascii_of_nat 10) EmptyString.

(** The request a session sends, and the answer it gets. *)
Definition send (E : env) (r : Http.request) : M (Z * string) :=
  let* _ := emit (EvRequest r) in
  match backend E r with
  | Http.Response status text => ret (status, text)
  | Http.Unreachable => raise ClientError
  end.

Section Methods.
Context (E : env) (self : S3Client).

(** [S3Client.sign_request] (lines 43-80). *)
Definition sign_request (method bucket key : string)
    (headers : list (string * string)) (payload_hash : string)
  : M (list (string * string)) :=
  let service := "s3" in
  let algorithm := "AWS4-HMAC-SHA256" in
  let* now := datetime_now E in
  let amz_date := Datetime.amz_date now in
  let date_stamp := Datetime.date_stamp now in
  let canonical_uri := "/" +:+ key in
  let canonical_headers :=
    "host:" +:+ bucket +:+ "." +:+ endpoint self +:+ newline
    +:+ "x-amz-content-sha256:" +:+ payload_hash +:+ newline
    +:+ "x-amz-date:" +:+ amz_date +:+ newline in
  let signed_headers := "host;x-amz-content-sha256;x-amz-date" in
  let canonical_request :=
    method +:+ newline +:+ canonical_uri +:+ newline +:+ newline
    +:+ canonical_headers +:+ newline +:+ signed_headers +:+ newline +:+ payload_hash in
  let credential_scope := date_stamp +:+ "/" +:+ region self +:+ "/s3/aws4_request" in
  let string_to_sign :=
    algorithm +:+ newline +:+ amz_date +:+ newline +:+ credential_scope +:+ newline
    +:+ Hashlib.sha256_hexdigest (encode canonical_request) in
  let signing_key := get_signature_key (secret_key self) date_stamp (region self) service in
  let signature := Hmac.hexdigest signing_key (encode string_to_sign) in
  let authorization_header :=
    algorithm +:+ " Credential=" +:+ access_key self +:+ "/" +:+ credential_scope +:+ ", "
    +:+ "SignedHeaders=" +:+ signed_headers +:+ ", Signature=" +:+ signature in
  let headers := dict_set "Authorization" authorization_header headers in
  let headers := dict_set "x-amz-date" amz_date headers in
  let headers := dict_set "x-amz-content-sha256" payload_hash headers in
  ret headers.

(** [S3Client.upload_file] (lines 82-98). [file_path] and [file_bytes]
    default to [None]; an empty path is as false as [None]. *)
Definition upload_file (bucket key : string)
    (file_path : option path) (file_bytes : option bytes) : M unit :=
  let* data :=
    match file_path with
    | Some p => let* d := Os.open_rb p in ret (Some d)
    | None => ret file_bytes
    end in
  match data with
  | None => raise TypeError   (* hashlib.sha256(None) *)
  | Some data =>
      let payload_hash := Hashlib.sha256_hexdigest data in
      let* headers := sign_request "PUT" bucket key [] payload_hash in
      let url := "https://" +:+ bucket +:+ "." +:+ endpoint self +:+ "/" +:+ key in
      let* response := send E (Http.Request "PUT" url headers (Http.Data data)) in
      let '(status, text) := response in
      if bool_decide (status ∉ [200; 204]) then
        raise (S3ClientException status text)
      else ret tt
  end.

(** The policy document built at lines 112-121. *)
Definition policy_document (bucket key algorithm credential amz_date expiration : string)
  : Json.value :=
  Json.Obj
    [ ("expiration", Json.Str expiration);
      ("conditions",
        Json.Arr
          [ Json.Obj [("bucket", Json.Str bucket)];
            Json.Obj [("key", Json.Str key)];
            Json.Obj [("x-amz-algorithm", Json.Str algorithm)];
            Json.Obj [("x-amz-credential", Json.Str credential)];
            Json.Obj [("x-amz-date", Json.Str amz_date)] ]) ].

(** [S3Client.upload_file_multipart] (lines 100-151). *)
Definition upload_file_multipart (bucket key : string) (file_path : path) : M unit :=
  let* now := datetime_now E in
  let amz_date := Datetime.amz_date now in
  let date_stamp := Datetime.date_stamp now in
  let service := "s3" in
  let algorithm := "AWS4-HMAC-SHA256" in
  let credential_scope := date_stamp +:+ "/" +:+ region self +:+ "/s3/aws4_request" in
  let credential := access_key self +:+ "/" +:+ credential_scope in
  match Datetime.add_hours 1 now with
  | None => raise OverflowError
  | Some later =>
      let expiration := Datetime.iso_z later in
      let policy_json :=
        Json.dumps (policy_document bucket key algorithm credential amz_date expiration) in
      let policy_base64 := decode (Base64.b64encode (encode policy_json)) in
      let signing_key :=
        get_signature_key (secret_key self) date_stamp (region self) service in
      let signature := Hmac.hexdigest signing_key (encode policy_base64) in
      let* file_data := Os.open_rb file_path in
      let form :=
        [ Http.Text "key" key;
          Http.Text "x-amz-algorithm" algorithm;
          Http.Text "x-amz-credential" credential;
          Http.Text "x-amz-date" amz_date;
          Http.Text "policy" policy_base64;
          Http.Text "x-amz-signature" signature;
          Http.Upload "file" file_data (Os.basename file_path) "application/octet-stream" ] in
      let url := "https://" +:+ bucket +:+ "." +:+ endpoint self +:+ "/" in
      let* response := send E (Http.Request "POST" url [] (Http.Form form)) in
      let '(status, text) := response in
      if bool_decide (status ∉ [200; 204]) then
        raise (S3ClientException status text)
      else ret tt
  end.

(** Binding of a call's arguments to parameters that have no default:
    [None] is the [TypeError] of an unexpected keyword, a parameter
    given twice, a missing argument or too many positional ones. *)
Definition bind_arguments (params : list string)
    (args : list pyval) (kwargs : list (string * pyval)) : option (list pyval) :=
  let rest := drop (length args) params in
  if (length params <? length args)%nat then None
  else if forallb (fun kv => bool_decide (fst kv ∈ rest)) kwargs then
    (fun vs => args ++ vs)
      <$> mapM (fun p => snd <$> List.find (fun kv => bool_decide (fst kv = p)) kwargs) rest
  else None.

(** A call [self.upload_file_multipart(...)] with positional and
    keyword arguments, as the interpreter performs it. Arguments of other types than the
    annotated ones are not followed into the body. *)
Definition call_upload_file_multipart
    (args : list pyval) (kwargs : list (string * pyval)) : M unit :=
  match bind_arguments ["bucket"; "key"; "file_path"] args kwargs with
  | Some [PStr bucket; PStr key; PPath file_path] =>
      upload_file_multipart bucket key file_path
  | _ => raise TypeError
  end.

End Methods.

End S3.

(** ** core/config.py and utils/s3.py *)
Module Config.

(** The fields [S3Settings] declares. *)
Record Settings := Make {
  S3_BUCKET : string;
  S3_ENDPOINT : string;
  S3_ACCESS_KEY : string;
  S3_SECRET_ACCESS_KEY : string;
  S3_REGION : string }.

(** The process-wide client of [utils/s3.py]. *)
Definition s3_client (settings : Settings) : S3.S3Client :=
  S3.Client (S3_ACCESS_KEY settings) (S3_SECRET_ACCESS_KEY settings)
            (S3_ENDPOINT settings) (S3_REGION settings).

End Config.

(** [UploadFile]: the name the client gave and the bytes its reads deliver. *)
Record UploadFile := Upload { filename : string; content : bytes }.

(** [sorted(xs, key=key)]: every key is computed first (a key that raises
    aborts the sort), then the elements are ordered by ascending key,
    elements of equal key staying in their order. *)
Module Sorted.

Fixpoint insert {A} (x : Z * A) (l : list (Z * A)) : list (Z * A) :=
  match l with
  | [] => [x]
  | y :: rest => if fst x <=? fst y then x :: y :: rest else y :: insert x rest
  end.

Definition sort {A} (l : list (Z * A)) : list (Z * A) := foldr insert [] l.

Fixpoint keyed {A} (key : A -> M Z) (xs : list A) : M (list (Z * A)) :=
  match xs with
  | [] => ret []
  | x :: rest =>
      let* k := key x in
      let* ks := keyed key rest in
      ret ((k, x) :: ks)
  end.

Definition sorted {A} (xs : list A) (key : A -> M Z) : M (list A) :=
  let* ks := keyed key xs in
  ret (map snd (sort ks)).

End Sorted.

(** ** routers/chunk_upload.py

    The calls to [logger] are left out: they change nothing a handler
    returns or leaves behind. *)
Module ChunkUpload.

Section Handlers.
(** [S3_KEY] is [settings.S3_KEY], read at line 78; [S3Settings]
    declares no field of that name, so the value is a parameter. *)
Context (E : env) (settings : Config.Settings) (S3_KEY : string).

(** [init_upload_handler] (lines 15-24); [uuid4] is the 128-bit value
    that [uuid.uuid4()] draws. *)
Definition init_upload_handler (uuid4 : Z) (filename : string) (file_size : Z)
  : M pyval :=
  let upload_id := Uuid.to_str uuid4 in
  let upload_dir := upload_id in
  let* _ := Os.makedirs upload_dir in
  ret (PDict [("upload_id", upload_id)]).

(** [upload_chunk_handler] (lines 27-48). *)
Definition upload_chunk_handler (upload_id : string) (chunk_index : Z) (file : UploadFile)
  : M pyval :=
  try_except
    (let upload_dir := upload_id in
     let* present := Os.path_exists upload_dir in
     if negb present then
       ret (PExc (HTTPExeption 403 [("detail", "Invalid upload id")]))
     else
       let chunk_filename := InDir upload_dir ("chunk_" +:+ Str.of_int chunk_index) in
       let* _ := Os.open_wb chunk_filename in
       let* _ := copy_stream (content file) (Os.write chunk_filename) in
       ret (PDict [("detail", "chunk uploaded")]))
    (fun e => ret (PExc (HTTPExeption 403 [("detail", "Error uploading chunk")]))).

(** [int(x.split("_")[1])], the sort key of line 63. *)
Definition chunk_key (x : string) : M Z :=
  match Str.split "_" x !! 1%nat with
  | None => raise IndexError
  | Some field =>
      match Str.to_int field with
      | Some n => ret n
      | None => raise ValueError
      end
  end.

(** Lines 61-75 of [complete_upload_handler]: the chunk files in key
    order, copied one after the other into the merged file. The
    result is [merged_filepath]. *)
Definition reassemble (upload_id filename : string) : M path :=
  let upload_dir := upload_id in
  let* names := Os.listdir upload_dir in
  let* chunk_files :=
    Sorted.sorted (List.filter (Str.startswith "chunk_") names) chunk_key in
  let merged_filepath := InRoot (upload_id +:+ "_" +:+ filename) in
  let* _ := Os.open_wb merged_filepath in
  let* _ :=
    for_each chunk_files (fun chunk_file =>
      let chunk_path := InDir upload_dir chunk_file in
      let* cf := Os.open_rb chunk_path in
      copy_stream cf (Os.write merged_filepath)) in
  ret merged_filepath.

(** [complete_upload_handler] (lines 51-88). *)
Definition complete_upload_handler (upload_id filename : string) : M pyval :=
  let upload_dir := upload_id in
  let* present := Os.path_exists upload_dir in
  if negb present then
    ret (PExc (HTTPExeption 403 [("content", "Invalid upload id")]))
  else
    let* merged_filepath := reassemble upload_id filename in
    let* _ := Os.rmtree upload_dir in
    let s3_key := S3_KEY +:+ "/" +:+ filename in
    let* failure :=
      try_except
        (let* _ :=
           S3.call_upload_file_multipart E (Config.s3_client settings)
             [PStr (Config.S3_BUCKET settings); PStr s3_key; PPath merged_filepath] [] in
         ret None)
        (fun e =>
           ret (Some (PExc (HTTPExeption 500
                              [("detail", "Error uploading merged file to S3")])))) in
    match failure with
    | Some returned => ret returned
    | None =>
        let* _ := Os.remove merged_filepath in
        ret (PDict [("detail", "Successful Upload Video")])
    end.

End Handlers.

End ChunkUpload.

(** ** routers/file_upload.py *)
Module FileUpload.

Section Handlers.
Context (E : env) (settings : Config.Settings).

(** [upload_file] (lines 9-16). [file.read()] is not awaited, so
    [file_bytes] is a coroutine object; it is handed to
    [upload_file_multipart] under the keyword [file_bytes]. *)
Definition upload_file (file : UploadFile) : M pyval :=
  try_except
    (let file_bytes := PCoroutine in
     let s3_key := "example/" +:+ filename file in
     let* _ :=
       S3.call_upload_file_multipart E (Config.s3_client settings)
         [PStr (Config.S3_BUCKET settings); PStr s3_key] [("file_bytes", file_bytes)] in
     ret PNone)
    (fun _ => raise (HTTPExeption 500 [("detail", "S3 upload failed")])).

End Handlers.

End FileUpload.

(** * Definitions used to state the properties *)

(** ** Chunk names and staging directories *)

(** The name [upload_chunk_handler] gives the chunk of index [i]. *)
Definition chunk_name (i : Z) : string := "chunk_" +:+ Str.of_int i.

Fixpoint all_chars (P : ascii -> bool) (s : string) : bool :=
  match s with
  | EmptyString => true
  | String c r => P c && all_chars P r
  end.

Definition is_digit (c : ascii) : bool :=
  let n := nat_of_ascii c in (48 <=? n)%nat && (n <=? 57)%nat.

(** The entries of a staging directory that holds the chunks [l], each
    stored under the name [upload_chunk_handler] gives its index. *)
Definition staged (l : list (Z * bytes)) : list (string * bytes) :=
  map (fun c => (chunk_name (fst c), snd c)) l.

Definition merged_name (upload_id filename : string) : string :=
  upload_id +:+ "_" +:+ filename.

(** ** Effects of the copy loops *)

(** The blocks the loop of [copy_blocks] hands to [write], in order. *)
Fixpoint blocks (blk n : nat) (src : bytes) : list bytes :=
  match n with
  | O => []
  | S n' =>
      match take blk src with
      | [] => []
      | data => data :: blocks blk n' (drop blk src)
      end
  end.

(** The events of storing [data] at [p]. *)
Definition store_events (p : path) (data : bytes) : list event :=
  EvOpenWrite p :: map (EvWrite p) (blocks block_size (length data) data).

(** The writes that copy the chunks [items] into [p]. *)
Definition copy_events (p : path) (items : list (Z * bytes)) : list event :=
  concat (map (fun c => map (EvWrite p) (blocks block_size (length (snd c)) (snd c))) items).

(** ** Order by key *)

Definition key_le {A} (a b : Z * A) : Prop := fst a <= fst b.

Definition key_lt {A} (a b : Z * A) : Prop := fst a < fst b.

(** ** Sequences of chunk uploads *)

(** The chunk uploads [chunks], one request after the other. *)
Definition upload_chunks (upload_id : string) (chunks : list (Z * bytes)) : M unit :=
  for_each chunks (fun c =>
    let* _ := ChunkUpload.upload_chunk_handler upload_id (fst c) (Upload "blob" (snd c)) in
    ret tt).

(** The chunks of a file cut into [contents], numbered from [k]. *)
Fixpoint numbered_from (k : Z) (contents : list bytes) : list (Z * bytes) :=
  match contents with
  | [] => []
  | d :: rest => (k, d) :: numbered_from (k + 1) rest
  end.

Definition numbered (contents : list bytes) : list (Z * bytes) := numbered_from 0 contents.

(** ** Runs of the service *)

(** A request to one of the four handlers; for [CallInit], with the value
    [uuid.uuid4()] draws while serving it. *)
Inductive call :=
| CallInit (uuid4 : Z) (filename : string) (file_size : Z)
| CallChunk (upload_id : string) (chunk_index : Z) (file : UploadFile)
| CallComplete (upload_id filename : string)
| CallUploadFile (file : UploadFile).

Definition serve (E : env) (settings : Config.Settings) (S3_KEY : string) (c : call)
  : M pyval :=
  match c with
  | CallInit uuid4 filename file_size =>
      ChunkUpload.init_upload_handler uuid4 filename file_size
  | CallChunk upload_id chunk_index file =>
      ChunkUpload.upload_chunk_handler upload_id chunk_index file
  | CallComplete upload_id filename =>
      ChunkUpload.complete_upload_handler E settings S3_KEY upload_id filename
  | CallUploadFile file => FileUpload.upload_file E settings file
  end.

(** The worlds the service can be in: it starts on an empty upload root
    and serves one request after the other. *)
Inductive reachable (E : env) (settings : Config.Settings) (S3_KEY : string)
  : world -> Prop :=
| reachable_start : reachable E settings S3_KEY (World ∅ 0 [])
| reachable_serve (w : world) (c : call) :
    reachable E settings S3_KEY w ->
    reachable E settings S3_KEY (snd (serve E settings S3_KEY c w)).

Definition no_underscore (s : string) : bool :=
  all_chars (fun c => negb (Ascii.eqb c "_")) s.

(** Every directory of the upload root has a name without underscore and
    holds chunk files, one per index. *)
Definition well_staged (r : gmap string node) : Prop :=
  forall name es,
    r !! name = Some (Dir es) ->
    no_underscore name = true
    /\ exists l, es = staged l /\ NoDup (map fst l).

(** ** The signer and the transfer client, as the specification words them *)

Definition HMAC (key : bytes) (message : string) : bytes := Hmac.digest key (encode message).

(** deriveSigningKey(secretKey, dateStamp, region, service) *)
Definition derive_signing_key (secretKey dateStamp region service : string) : bytes :=
  let kDate := HMAC (encode ("AWS4" +:+ secretKey)) dateStamp in
  let kRegion := HMAC kDate region in
  let kService := HMAC kRegion service in
  HMAC kService "aws4_request".

Definition credential_of (self : S3.S3Client) (now : Datetime.t) : string :=
  S3.access_key self +:+ "/" +:+ Datetime.date_stamp now +:+ "/" +:+ S3.region self
  +:+ "/s3/aws4_request".

(** The policy: an expiration and five conditions, on bucket, key,
    algorithm, credential and date. *)
Definition policy_of (self : S3.S3Client) (bucket key : string) (now expires : Datetime.t)
  : Json.value :=
  Json.Obj
    [ ("expiration", Json.Str (Datetime.iso_z expires));
      ("conditions",
        Json.Arr
          [ Json.Obj [("bucket", Json.Str bucket)];
            Json.Obj [("key", Json.Str key)];
            Json.Obj [("x-amz-algorithm", Json.Str "AWS4-HMAC-SHA256")];
            Json.Obj [("x-amz-credential", Json.Str (credential_of self now))];
            Json.Obj [("x-amz-date", Json.Str (Datetime.amz_date now))] ]) ].

(** buildPolicyDocument: the base64 text of the policy JSON, and the hex
    HMAC-SHA256 of that base64 text under the key derived for the day of
    [now]. *)
Definition build_policy_document (self : S3.S3Client) (bucket key : string)
    (now expires : Datetime.t) : string * string :=
  let policyBase64 :=
    decode (Base64.b64encode (encode (Json.dumps (policy_of self bucket key now expires)))) in
  let signingKey :=
    derive_signing_key (S3.secret_key self) (Datetime.date_stamp now) (S3.region self) "s3" in
  (policyBase64, Hashlib.hex (HMAC signingKey policyBase64)).

(** The request of a multipart upload of [data], stored as [name], signed
    at [now] with a policy that expires at [expires]. *)
Definition multipart_request (self : S3.S3Client) (bucket key : string)
    (now expires : Datetime.t) (name : string) (data : bytes) : Http.request :=
  Http.Request "POST" ("https://" +:+ bucket +:+ "." +:+ S3.endpoint self +:+ "/") []
    (Http.Form
       [ Http.Text "key" key;
         Http.Text "x-amz-algorithm" "AWS4-HMAC-SHA256";
         Http.Text "x-amz-credential" (credential_of self now);
         Http.Text "x-amz-date" (Datetime.amz_date now);
         Http.Text "policy" (fst (build_policy_document self bucket key now expires));
         Http.Text "x-amz-signature" (snd (build_policy_document self bucket key now expires));
         Http.Upload "file" data name "application/octet-stream" ]).

(** How both upload methods read the backend's answer. *)
Definition outcome_of (reply : Http.reply) : result unit :=
  match reply with
  | Http.Response status text =>
      if bool_decide (status = 200 \/ status = 204) then Ok tt
      else Raise (S3ClientException status text)
  | Http.Unreachable => Raise ClientError
  end.

(** signHeaderRequest: the Authorization header for a request signed at
    [now]. *)
Definition authorization_of (self : S3.S3Client) (now : Datetime.t)
    (method bucket key payload_hash : string) : string :=
  let amz_date := Datetime.amz_date now in
  let date_stamp := Datetime.date_stamp now in
  let canonical_headers :=
    "host:" +:+ bucket +:+ "." +:+ S3.endpoint self +:+ S3.newline
    +:+ "x-amz-content-sha256:" +:+ payload_hash +:+ S3.newline
    +:+ "x-amz-date:" +:+ amz_date +:+ S3.newline in
  let signed_headers := "host;x-amz-content-sha256;x-amz-date" in
  let canonical_request :=
    method +:+ S3.newline +:+ ("/" +:+ key) +:+ S3.newline +:+ S3.newline
    +:+ canonical_headers +:+ S3.newline +:+ signed_headers +:+ S3.newline +:+ payload_hash in
  let credential_scope := date_stamp +:+ "/" +:+ S3.region self +:+ "/s3/aws4_request" in
  let string_to_sign :=
    "AWS4-HMAC-SHA256" +:+ S3.newline +:+ amz_date +:+ S3.newline +:+ credential_scope
    +:+ S3.newline +:+ Hashlib.sha256_hexdigest (encode canonical_request) in
  let signing_key :=
    S3.get_signature_key (S3.secret_key self) date_stamp (S3.region self) "s3" in
  "AWS4-HMAC-SHA256" +:+ " Credential=" +:+ S3.access_key self +:+ "/" +:+ credential_scope
  +:+ ", " +:+ "SignedHeaders=" +:+ signed_headers +:+ ", Signature="
  +:+ Hmac.hexdigest signing_key (encode string_to_sign).

(** The PUT request of [upload_file] for the payload [data], signed at [now]. *)
Definition put_request (self : S3.S3Client) (now : Datetime.t) (bucket key : string)
    (data : bytes) : Http.request :=
  Http.Request "PUT" ("https://" +:+ bucket +:+ "." +:+ S3.endpoint self +:+ "/" +:+ key)
    [ ("Authorization",
       authorization_of self now "PUT" bucket key (Hashlib.sha256_hexdigest data));
      ("x-amz-date", Datetime.amz_date now);
      ("x-amz-content-sha256", Hashlib.sha256_hexdigest data) ]
    (Http.Data data).

(** ** The moment a transfer starts

    The upload root and the log that [complete_upload_handler] has produced
    on a session holding the chunks [l] when it calls the transfer. *)

Definition root_at_transfer (upload_id filename : string) (l : list (Z * bytes))
    (r : gmap string node) : gmap string node :=
  delete upload_id
    (<[merged_name upload_id filename := File (concat (map snd (Sorted.sort l)))]> r).

Definition log_at_transfer (upload_id filename : string) (l : list (Z * bytes))
    (lg : list event) : list event :=
  lg ++ EvOpenWrite (InRoot (merged_name upload_id filename))
     :: copy_events (InRoot (merged_name upload_id filename)) (Sorted.sort l)
     ++ [EvRmtree upload_id].

Definition transfer (E : env) (settings : Config.Settings) (S3_KEY upload_id filename : string)
  : M unit :=
  S3.upload_file_multipart E (Config.s3_client settings) (Config.S3_BUCKET settings)
    (S3_KEY +:+ "/" +:+ filename) (InRoot (merged_name upload_id filename)).

(** ** The calendar *)

(** Seconds from the start of day 0 of the proleptic Gregorian calendar. *)
Definition seconds_of (dt : Datetime.t) : Z :=
  ((Datetime.ymd2ord (Datetime.year dt) (Datetime.month dt) (Datetime.day dt) * 24
    + Datetime.hour dt) * 60 + Datetime.minute dt) * 60 + Datetime.second dt.

Definition round_trips (n : Z) : bool :=
  let '(y, m, d) := Datetime.ord2ymd n in Datetime.ymd2ord y m d =? n.

Fixpoint round_trips_from (count : nat) (n : Z) : bool :=
  match count with
  | O => true
  | S count' => round_trips n && round_trips_from count' (n + 1)
  end.

(** ** Worlds and environments of the examples *)

(** An environment for examples: a clock that stands at 2024-02-28
    23:30:00 and a backend that answers every request with [reply]. *)
Definition example_env (reply : Http.reply) : env :=
  Env (fun _ => Datetime.Make 2024 2 28 23 30 0 0) (fun _ => reply).

Definition example_settings : Config.Settings :=
  Config.Make "bkt" "s3.example.com" "AK" "SK" "ru-1".

Definition example_client : S3.S3Client := Config.s3_client example_settings.

Definition fresh_session : world := World {[ "s1"%string := Dir [] ]} 0 [].

(** A session with two chunks, stored in the order 1, 0. *)
Definition two_chunks : list (Z * bytes) := [(1, encode "world"); (0, encode "hello ")].

Definition staged_session : world := World {[ "s1"%string := Dir (staged two_chunks) ]} 0 [].

(** A staging directory whose listing is in lexicographic order of the
    names: chunk_0, chunk_1, chunk_10, chunk_11, chunk_12, chunk_2, ... *)
Definition lexicographic_chunks : list (Z * bytes) :=
  map (fun i => (i, encode (Str.of_int i +:+ ";")))
      [0; 1; 10; 11; 12; 2; 3; 4; 5; 6; 7; 8; 9].

Definition lexicographic_world : world :=
  World {[ "s1"%string := Dir (staged lexicographic_chunks) ]} 0 [].

Definition hello_world_chunks : list bytes := [encode "hello "; encode "world"; encode "!"].

(** An upload root that holds one merged file. *)
Definition merged_only : world :=
  World {[ "s1_a.txt"%string := File (encode "hello world") ]} 0 [].

(** * Definitions for the further properties *)

(** [d.get(k)] on a [dict] kept in insertion order. *)
Definition dict_get (k : string) (d : list (string * string)) : option string :=
  snd <$> List.find (fun kv => bool_decide (fst kv = k)) d.

(** The data of the [EvWrite] events of a log, in order. *)
Definition written (evs : list event) : list bytes :=
  omap (fun ev => match ev with EvWrite _ data => Some data | _ => None end) evs.

(** The requests of a log, in order. *)
Definition requests (evs : list event) : list Http.request :=
  omap (fun ev => match ev with EvRequest r => Some r | _ => None end) evs.

(** ** Worlds of the further examples *)

(** A staging directory that holds, besides two chunks, a file that is no
    chunk. *)
Definition foreign_file_session : world :=
  World {[ "s1"%string :=
             Dir [("chunk_1"%string, encode "world"); ("notes.txt"%string, encode "x");
                  ("chunk_0"%string, encode "hello ")] ]} 0 [].

(** A staging directory with a chunk file whose suffix is no number. *)
Definition malformed_session : world :=
  World {[ "s1"%string :=
             Dir [("chunk_0"%string, encode "hello "); ("chunk_abc"%string, encode "x")] ]}
        0 [].

(** * Checks of the library models against a Python interpreter *)

Example sha256_abc :
  Hashlib.sha256_hexdigest (encode "abc")
  = "ba7816bf8f01cfea414140de5dae2223b00361a396177a9cb410ff61f20015ad"%string.
Proof. vm_compute. reflexivity. Qed.

Example sha256_empty :
  Hashlib.sha256_hexdigest []
  = "e3b0c44298fc1c149afbf4c8996fb92427ae41e4649b934ca495991b7852b855"%string.
Proof. vm_compute. reflexivity. Qed.

(** A key longer than one block is hashed first. *)
Example hmac_long_key :
  Hmac.hexdigest (repeat "k"%byte 100) (encode "m")
  = "0482265a92ce176b0374f2192380b21e2d40126432c52f865cc0957053ae7a14"%string.
Proof. vm_compute. reflexivity. Qed.

Example b64encode_padding :
  decode (Base64.b64encode (encode "hello world!!")) = "aGVsbG8gd29ybGQhIQ=="%string.
Proof. vm_compute. reflexivity. Qed.

(** Quote, backslash, newline, a two-byte and a four-byte character, DEL
    and a control character: the bytes 97 34 98 92 99 10 195 169 240 159
    152 128 127 1. *)
Example dumps_escapes :
  Json.dumps
    (Json.Obj
       [("k",
         Json.Str (string_of_list_ascii
                     (map ascii_of_nat
                        [97; 34; 98; 92; 99; 10; 195; 169; 240; 159; 152; 128; 127; 1]%nat)))])
  = string_of_list_ascii
      (map ascii_of_nat
         [123; 34; 107; 34; 58; 32; 34; 97; 92; 34; 98; 92; 92; 99; 92; 110;
          92; 117; 48; 48; 101; 57; 92; 117; 100; 56; 51; 100; 92; 117; 100; 101; 48; 48;
          92; 117; 48; 48; 55; 102; 92; 117; 48; 48; 48; 49; 34; 125]%nat).
Proof. vm_compute. reflexivity. Qed.

Example add_hours_leap_day :
  Datetime.add_hours 1 (Datetime.Make 2024 2 28 23 30 59 7)
  = Some (Datetime.Make 2024 2 29 0 30 59 7).
Proof. vm_compute. reflexivity. Qed.

Example add_hours_new_year :
  Datetime.add_hours 1 (Datetime.Make 2023 12 31 23 0 0 0)
  = Some (Datetime.Make 2024 1 1 0 0 0 0).
Proof. vm_compute. reflexivity. Qed.

Example add_hours_overflow :
  Datetime.add_hours 1 (Datetime.Make 9999 12 31 23 0 0 0) = None.
Proof. vm_compute. reflexivity. Qed.

Example strftime_formats :
  Datetime.amz_date (Datetime.Make 2023 1 3 4 5 6 0) = "20230103T040506Z"%string
  /\ Datetime.iso_z (Datetime.Make 2023 1 3 4 5 6 0) = "2023-01-03T04:05:06Z"%string.
Proof. vm_compute. split; reflexivity. Qed.

Example int_of_text :
  Str.to_int " 12 " = Some 12 /\ Str.to_int "+7" = Some 7 /\ Str.to_int "-0" = Some 0
  /\ Str.to_int "007" = Some 7 /\ Str.to_int "1a" = None /\ Str.to_int "-" = None
  /\ Str.to_int EmptyString = None /\ Str.to_int "- 5" = None.
Proof. vm_compute. repeat split; reflexivity. Qed.

Example split_fields :
  Str.split "_" "chunk_10" = ["chunk"; "10"]%string
  /\ Str.split "_" "a__b" = ["a"; EmptyString; "b"]%string
  /\ Str.split "_" EmptyString = [EmptyString].
Proof. vm_compute. repeat split; reflexivity. Qed.

(** The signing key of the worked example in the AWS Signature Version 4
    documentation. *)
Example get_signature_key_aws_example :
  Hashlib.hex
    (S3.get_signature_key "wJalrXUtnFEMI/K7MDENG+bPxRfiCYEXAMPLEKEY" "20120215" "us-east-1" "iam")
  = "f4780e2d9f65fa895f9c67b32ce1baf0b0d8a43505a000a1a9e090d414db404d"%string.
Proof. vm_compute. reflexivity. Qed.

(** The policy and signature a Python interpreter computes for the same
    inputs. *)
Example build_policy_document_example :
  build_policy_document example_client "bkt" "videos/a.txt"
    (Datetime.Make 2024 2 28 23 30 0 0) (Datetime.Make 2024 2 29 0 30 0 0)
  = ("eyJleHBpcmF0aW9uIjogIjIwMjQtMDItMjlUMDA6MzA6MDBaIiwgImNvbmRpdGlvbnMiOiBbeyJidWNrZXQiOiAiYmt0In0sIHsia2V5IjogInZpZGVvcy9hLnR4dCJ9LCB7IngtYW16LWFsZ29yaXRobSI6ICJBV1M0LUhNQUMtU0hBMjU2In0sIHsieC1hbXotY3JlZGVudGlhbCI6ICJBSy8yMDI0MDIyOC9ydS0xL3MzL2F3czRfcmVxdWVzdCJ9LCB7IngtYW16LWRhdGUiOiAiMjAyNDAyMjhUMjMzMDAwWiJ9XX0=",
     "a24f8a3062bb0756b0a50f93cbb0e42b66c9c10281b08377d5d903bf01bbd3d7")%string.
Proof. vm_compute. reflexivity. Qed.

(** The Authorization header a Python interpreter computes for the same
    inputs. *)
Example authorization_example :
  authorization_of example_client (Datetime.Make 2024 2 28 23 30 0 0) "PUT" "bkt"
    "videos/a.txt" (Hashlib.sha256_hexdigest (encode "hello"))
  = ("AWS4-HMAC-SHA256 Credential=AK/20240228/ru-1/s3/aws4_request, "
     +:+ "SignedHeaders=host;x-amz-content-sha256;x-amz-date, "
     +:+ "Signature=be68d4822ad46b5f60b49c231b3e0efaa78cd4cff0bcdc2080e732879742ea67")%string.
Proof. vm_compute. reflexivity. Qed.

(** The scenario of the specification: a session is created, the chunks
    "hello " and "world" arrive, and [complete] uploads "hello world" under
    the key derived from "a.txt"; afterwards the upload root is empty. *)
Example end_to_end :
  let E := example_env (Http.Response 204 EmptyString) in
  let w0 := World ∅ 0 [] in
  let s := "00000000-0000-0000-0000-0000000000a1"%string in
  let '(r1, w1) := ChunkUpload.init_upload_handler 161 "a.txt" 30 w0 in
  let '(r2, w2) :=
    ChunkUpload.upload_chunk_handler s 0 (Upload "blob" (encode "hello ")) w1 in
  let '(r3, w3) :=
    ChunkUpload.upload_chunk_handler s 1 (Upload "blob" (encode "world")) w2 in
  let '(r4, w4) :=
    ChunkUpload.complete_upload_handler E example_settings "videos" s "a.txt" w3 in
  r1 = Ok (PDict [("upload_id", s)])
  /\ r2 = Ok (PDict [("detail", "chunk uploaded")])
  /\ r3 = Ok (PDict [("detail", "chunk uploaded")])
  /\ r4 = Ok (PDict [("detail", "Successful Upload Video")])
  /\ root w4 = ∅
  /\ List.filter (fun ev => match ev with EvRequest _ => true | _ => false end) (log w4)
     = [EvRequest
          (multipart_request example_client "bkt" "videos/a.txt"
             (Datetime.Make 2024 2 28 23 30 0 0) (Datetime.Make 2024 2 29 0 30 0 0)
             (s +:+ "_a.txt") (encode "hello world"))].
Proof. vm_compute. repeat split; reflexivity. Qed.

(** * Lemmas *)

(** ** Decimal chunk names *)

Lemma digits_of_uint (d : Decimal.uint) : all_chars is_digit (NilEmpty.string_of_uint d) = true.
Proof. induction d; simpl; auto. Qed.

Lemma digit_not_space c : is_digit c = true -> Str.is_space c = false.
Proof. destruct c as [[] [] [] [] [] [] [] []]; vm_compute; congruence. Qed.

Lemma lstrip_digit c r : is_digit c = true -> Str.lstrip (String c r) = String c r.
Proof. intros H. simpl. by rewrite (digit_not_space c H). Qed.

Lemma rstrip_digits s : all_chars is_digit s = true -> Str.rstrip s = s.
Proof.
  induction s as [|c r IH]; simpl; [reflexivity|].
  intros H. apply andb_true_iff in H as [Hc Hr]. rewrite (IH Hr).
  destruct r; [|reflexivity]. by rewrite (digit_not_space c Hc).
Qed.

Lemma strip_digits s : all_chars is_digit s = true -> Str.strip s = s.
Proof.
  intros H. unfold Str.strip. destruct s as [|c r]; [reflexivity|].
  pose proof H as H'. simpl in H'. apply andb_true_iff in H' as [Hc _].
  rewrite (lstrip_digit c r Hc). by apply rstrip_digits.
Qed.

Lemma strip_minus_digits s :
  all_chars is_digit s = true -> Str.strip (String "-" s) = String "-" s.
Proof.
  intros H. unfold Str.strip.
  change (Str.lstrip (String "-" s)) with (String "-" s).
  change (Str.rstrip (String "-" s))
    with (match Str.rstrip s with
          | EmptyString => String "-" EmptyString
          | r' => String "-" r'
          end).
  rewrite (rstrip_digits s H). by destruct s.
Qed.

Lemma string_of_uint_nonnil (d : Decimal.uint) :
  d <> Decimal.Nil -> NilZero.string_of_uint d = NilEmpty.string_of_uint d.
Proof. by destruct d. Qed.

Lemma uint_of_string_of_uint (d : Decimal.uint) :
  d <> Decimal.Nil -> NilZero.uint_of_string (NilEmpty.string_of_uint d) = Some d.
Proof.
  intros Hd. unfold NilZero.uint_of_string.
  destruct (NilEmpty.string_of_uint d) eqn:Hs.
  - destruct d; simpl in Hs; congruence.
  - rewrite <- Hs. apply NilEmpty.usu.
Qed.

(** A decimal numeral that starts with a digit is read back as itself. *)
Lemma to_int_digits (d : Decimal.uint) :
  d <> Decimal.Nil ->
  Str.to_int (NilEmpty.string_of_uint d) = Some (Z.of_uint d).
Proof.
  intros Hd. unfold Str.to_int.
  rewrite (strip_digits _ (digits_of_uint d)).
  pose proof (uint_of_string_of_uint d Hd) as Hparse.
  destruct d; try congruence; simpl NilEmpty.string_of_uint in *; cbv iota beta;
    rewrite Hparse; reflexivity.
Qed.

Lemma to_int_of_int (z : Z) : Str.to_int (Str.of_int z) = Some z.
Proof.
  destruct z as [|p|p]; [reflexivity| |];
    pose proof (DecimalPos.Unsigned.to_uint_nonnil p) as Hn;
    unfold Str.of_int; simpl Z.to_int; unfold NilZero.string_of_int;
    rewrite (string_of_uint_nonnil _ Hn).
  - rewrite (to_int_digits _ Hn). unfold Z.of_uint.
    by rewrite DecimalPos.Unsigned.of_to.
  - unfold Str.to_int. rewrite strip_minus_digits by apply digits_of_uint.
    cbn match. rewrite (uint_of_string_of_uint _ Hn). simpl. unfold Z.of_uint.
    by rewrite DecimalPos.Unsigned.of_to.
Qed.

Lemma of_int_inj (i j : Z) : Str.of_int i = Str.of_int j -> i = j.
Proof.
  intros H. apply (f_equal Str.to_int) in H. rewrite !to_int_of_int in H. congruence.
Qed.

Lemma all_chars_impl (P Q : ascii -> bool) s :
  (forall c, P c = true -> Q c = true) -> all_chars P s = true -> all_chars Q s = true.
Proof.
  intros HPQ. induction s as [|c r IH]; simpl; [done|].
  intros H. apply andb_true_iff in H as [Hc Hr]. by rewrite (HPQ c Hc), (IH Hr).
Qed.

Lemma split_no_separator (sep : ascii) (s : string) :
  all_chars (fun c => negb (Ascii.eqb c sep)) s = true -> Str.split sep s = [s].
Proof.
  induction s as [|c r IH]; simpl; [done|].
  intros H. apply andb_true_iff in H as [Hc Hr]. rewrite (IH Hr).
  by destruct (Ascii.eqb c sep).
Qed.

Lemma digit_not_underscore c : is_digit c = true -> negb (Ascii.eqb c "_") = true.
Proof. destruct c as [[] [] [] [] [] [] [] []]; vm_compute; congruence. Qed.

Lemma of_int_no_underscore (z : Z) :
  all_chars (fun c => negb (Ascii.eqb c "_")) (Str.of_int z) = true.
Proof.
  assert (Hu : forall d, all_chars (fun c => negb (Ascii.eqb c "_")) (NilZero.string_of_uint d) = true).
  { intros d. destruct d; [done|..];
      (rewrite string_of_uint_nonnil by done;
       eapply all_chars_impl; [apply digit_not_underscore | apply digits_of_uint]). }
  destruct z; unfold Str.of_int; simpl; auto.
Qed.

Lemma split_chunk_name (i : Z) : Str.split "_" (chunk_name i) = ["chunk"%string; Str.of_int i].
Proof.
  unfold chunk_name.
  change (Str.split "_" ("chunk_" +:+ Str.of_int i))
    with ("chunk"%string :: Str.split "_" (Str.of_int i)).
  by rewrite (split_no_separator _ _ (of_int_no_underscore i)).
Qed.

Lemma startswith_chunk_name (i : Z) : Str.startswith "chunk_" (chunk_name i) = true.
Proof. unfold chunk_name. simpl. by destruct (Str.of_int i). Qed.

Lemma chunk_name_inj (i j : Z) : chunk_name i = chunk_name j -> i = j.
Proof. unfold chunk_name. intros H. apply of_int_inj. by simplify_eq/=. Qed.

Lemma chunk_key_chunk_name (i : Z) (w : world) :
  ChunkUpload.chunk_key (chunk_name i) w = (Ok i, w).
Proof.
  unfold ChunkUpload.chunk_key. rewrite split_chunk_name. simpl.
  by rewrite to_int_of_int.
Qed.

Lemma append_differs (s t : string) (c : ascii) : s +:+ String c t <> s.
Proof. induction s as [|a s IH]; simpl; [done|]. intros [= H]. by apply IH. Qed.

(** ** Running monadic code *)

Lemma bind_ok {A B} (m : M A) (k : A -> M B) (w w' : world) (a : A) :
  m w = (Ok a, w') -> bind m k w = k a w'.
Proof. intros H. unfold bind. by rewrite H. Qed.

Lemma bind_raise {A B} (m : M A) (k : A -> M B) (w w' : world) (e : exn) :
  m w = (Raise e, w') -> bind m k w = (Raise e, w').
Proof. intros H. unfold bind. by rewrite H. Qed.

Lemma open_rb_in_dir (dir name : string) (es : list (string * bytes)) (data : bytes)
    (w : world) :
  root w !! dir = Some (Dir es) ->
  Os.lookup_entry name es = Some data ->
  Os.open_rb (InDir dir name) w = (Ok data, w).
Proof.
  intros Hd He. unfold Os.open_rb, bind, get_root. simpl. rewrite Hd. simpl. by rewrite He.
Qed.

Lemma open_rb_in_root (name : string) (data : bytes) (w : world) :
  root w !! name = Some (File data) -> Os.open_rb (InRoot name) w = (Ok data, w).
Proof. intros Hd. unfold Os.open_rb, bind, get_root. simpl. by rewrite Hd. Qed.

Lemma path_exists_spec (name : string) (w : world) :
  Os.path_exists name w = (Ok (bool_decide (is_Some (root w !! name))), w).
Proof. reflexivity. Qed.

Lemma listdir_dir (name : string) (es : list (string * bytes)) (w : world) :
  root w !! name = Some (Dir es) -> Os.listdir name w = (Ok (map fst es), w).
Proof. intros Hd. unfold Os.listdir, bind, get_root. simpl. by rewrite Hd. Qed.

Lemma open_wb_in_root (name : string) (r : gmap string node) (t : nat) (lg : list event) :
  (forall es, r !! name <> Some (Dir es)) ->
  Os.open_wb (InRoot name) (World r t lg)
  = (Ok tt, World (<[name := File []]> r) t (lg ++ [EvOpenWrite (InRoot name)])).
Proof.
  intros Hd. unfold Os.open_wb, bind, get_root. simpl.
  destruct (r !! name) as [[|es]|] eqn:Hl; try done. by destruct (Hd es).
Qed.

Lemma rmtree_dir (name : string) (es : list (string * bytes))
    (r : gmap string node) (t : nat) (lg : list event) :
  r !! name = Some (Dir es) ->
  Os.rmtree name (World r t lg) = (Ok tt, World (delete name r) t (lg ++ [EvRmtree name])).
Proof. intros Hd. unfold Os.rmtree, bind, get_root. simpl. by rewrite Hd. Qed.

Lemma remove_file (name : string) (data : bytes)
    (r : gmap string node) (t : nat) (lg : list event) :
  r !! name = Some (File data) ->
  Os.remove (InRoot name) (World r t lg)
  = (Ok tt, World (delete name r) t (lg ++ [EvRemove name])).
Proof. intros Hd. unfold Os.remove, bind, get_root. simpl. by rewrite Hd. Qed.

(** ** The copy loop *)

Lemma block_size_pos : (0 < block_size)%nat.
Proof. unfold block_size. lia. Qed.

Lemma blocks_concat (blk : nat) :
  (0 < blk)%nat ->
  forall n src, (length src <= n)%nat -> concat (blocks blk n src) = src.
Proof.
  intros Hblk. induction n as [|n IH]; intros src Hlen.
  - destruct src; simpl in *; [done | lia].
  - simpl. destruct (take blk src) as [|x xs] eqn:Htake.
    + destruct src, blk; simpl in *; try done; lia.
    + simpl. rewrite IH.
      * rewrite app_comm_cons, <- Htake. apply take_drop.
      * rewrite length_drop. destruct src; simpl in *; [by destruct blk | lia].
Qed.

Lemma copy_blocks_to_root (blk : nat) (name : string) :
  (0 < blk)%nat ->
  forall n src old r t lg,
    (length src <= n)%nat ->
    r !! name = Some (File old) ->
    copy_blocks blk n src (Os.write (InRoot name)) (World r t lg)
    = (Ok tt, World (<[name := File (old ++ src)]> r) t
                    (lg ++ map (EvWrite (InRoot name)) (blocks blk n src))).
Proof.
  intros Hblk. induction n as [|n IH]; intros src old r t lg Hlen Hr.
  - destruct src; simpl in *; [|lia].
    rewrite !app_nil_r, insert_id; done.
  - simpl. destruct (take blk src) as [|x xs] eqn:Htake.
    + assert (src = []) as -> by (destruct src, blk; simpl in *; try done; lia).
      simpl. rewrite !app_nil_r, insert_id; done.
    + unfold bind at 1. unfold Os.write at 1, bind, get_root, emit, set_root; simpl.
      rewrite Hr. simpl.
      rewrite (IH (drop blk src) (old ++ x :: xs)).
      * rewrite insert_insert_eq, <- !app_assoc. simpl.
        assert (x :: xs ++ drop blk src = src) as ->; [|done].
        rewrite app_comm_cons, <- Htake. apply take_drop.
      * rewrite length_drop. destruct src; simpl in *; [by destruct blk | lia].
      * by rewrite lookup_insert_eq.
Qed.

(** ** Directory entries *)

Lemma lookup_set_entry_eq name d es : Os.lookup_entry name (Os.set_entry name d es) = Some d.
Proof.
  unfold Os.lookup_entry. induction es as [|[n d'] es IH]; simpl.
  - by rewrite bool_decide_eq_true_2.
  - destruct (bool_decide (n = name)) eqn:Hn; simpl; rewrite Hn; [done | apply IH].
Qed.

Lemma lookup_set_entry_ne name name' d es :
  name <> name' -> Os.lookup_entry name' (Os.set_entry name d es) = Os.lookup_entry name' es.
Proof.
  intros Hne. unfold Os.lookup_entry. induction es as [|[n d'] es IH]; simpl.
  - by rewrite bool_decide_eq_false_2.
  - destruct (bool_decide (n = name)) eqn:Hn; simpl.
    + apply bool_decide_eq_true in Hn as ->. by rewrite bool_decide_eq_false_2.
    + destruct (bool_decide (n = name')); [done | apply IH].
Qed.

Lemma set_entry_twice name d1 d2 es :
  Os.set_entry name d2 (Os.set_entry name d1 es) = Os.set_entry name d2 es.
Proof.
  induction es as [|[n d'] es IH]; simpl.
  - by rewrite bool_decide_eq_true_2.
  - destruct (bool_decide (n = name)) eqn:Hn; simpl; rewrite Hn; [done | by rewrite IH].
Qed.

Lemma set_entry_same name d es :
  Os.lookup_entry name es = Some d -> Os.set_entry name d es = es.
Proof.
  unfold Os.lookup_entry. induction es as [|[n d'] es IH]; simpl; [done|].
  destruct (bool_decide (n = name)) eqn:Hn; simpl.
  - by intros [= ->].
  - intros H. by rewrite IH.
Qed.

Lemma set_entry_fresh name d es :
  name ∉ map fst es -> Os.set_entry name d es = es ++ [(name, d)].
Proof.
  induction es as [|[n d'] es IH]; simpl; [done|].
  intros Hn. apply not_elem_of_cons in Hn as [Hne Hn].
  rewrite bool_decide_eq_false_2 by done. by rewrite IH.
Qed.

Lemma copy_blocks_to_dir (blk : nat) (dir name : string) :
  (0 < blk)%nat ->
  forall n src old es r t lg,
    (length src <= n)%nat ->
    r !! dir = Some (Dir es) ->
    Os.lookup_entry name es = Some old ->
    copy_blocks blk n src (Os.write (InDir dir name)) (World r t lg)
    = (Ok tt, World (<[dir := Dir (Os.set_entry name (old ++ src) es)]> r) t
                    (lg ++ map (EvWrite (InDir dir name)) (blocks blk n src))).
Proof.
  intros Hblk. induction n as [|n IH]; intros src old es r t lg Hlen Hr Hes.
  - destruct src; simpl in *; [|lia].
    rewrite !app_nil_r, (set_entry_same _ _ _ Hes), insert_id; done.
  - simpl. destruct (take blk src) as [|x xs] eqn:Htake.
    + assert (src = []) as -> by (destruct src, blk; simpl in *; try done; lia).
      simpl. rewrite !app_nil_r, (set_entry_same _ _ _ Hes), insert_id; done.
    + unfold bind at 1. unfold Os.write at 1, bind, get_root, emit, set_root; simpl.
      rewrite Hr. simpl. rewrite Hes. simpl.
      rewrite (IH (drop blk src) (old ++ x :: xs) (Os.set_entry name (old ++ x :: xs) es)).
      * rewrite insert_insert_eq, set_entry_twice, <- !app_assoc. simpl.
        assert (x :: xs ++ drop blk src = src) as ->; [|done].
        rewrite app_comm_cons, <- Htake. apply take_drop.
      * rewrite length_drop. destruct src; simpl in *; [by destruct blk | lia].
      * by rewrite lookup_insert_eq.
      * apply lookup_set_entry_eq.
Qed.

(** ** One chunk upload *)

Lemma upload_chunk_stores (upload_id : string) (chunk_index : Z) (file : UploadFile)
    (es : list (string * bytes)) (r : gmap string node) (t : nat) (lg : list event) :
  r !! upload_id = Some (Dir es) ->
  ChunkUpload.upload_chunk_handler upload_id chunk_index file (World r t lg)
  = (Ok (PDict [("detail", "chunk uploaded")]),
     World (<[upload_id := Dir (Os.set_entry (chunk_name chunk_index) (content file) es)]> r) t
           (lg ++ store_events (InDir upload_id (chunk_name chunk_index)) (content file))).
Proof.
  intros Hr.
  unfold ChunkUpload.upload_chunk_handler, try_except, bind at 1.
  unfold Os.path_exists, bind at 1, get_root, ret; simpl.
  rewrite Hr, bool_decide_eq_true_2 by eauto. simpl.
  unfold bind at 1. unfold Os.open_wb, bind at 1, get_root, emit, set_root; simpl.
  rewrite Hr. simpl. unfold bind at 1, copy_stream.
  fold (chunk_name chunk_index).
  rewrite (copy_blocks_to_dir block_size upload_id (chunk_name chunk_index) block_size_pos
             _ _ [] (Os.set_entry (chunk_name chunk_index) [] es));
    [|done|by rewrite lookup_insert_eq|apply lookup_set_entry_eq].
  simpl. rewrite insert_insert_eq, set_entry_twice, <- app_assoc. done.
Qed.

Lemma upload_chunk_unknown (upload_id : string) (chunk_index : Z) (file : UploadFile)
    (w : world) :
  root w !! upload_id = None ->
  ChunkUpload.upload_chunk_handler upload_id chunk_index file w
  = (Ok (PExc (HTTPExeption 403 [("detail", "Invalid upload id")])), w).
Proof.
  intros Hr.
  unfold ChunkUpload.upload_chunk_handler, try_except, bind at 1.
  unfold Os.path_exists, bind at 1, get_root, ret; simpl.
  rewrite Hr, bool_decide_eq_false_2; [done|]. by intros [? ?].
Qed.

(** ** Sorting by key *)

Lemma insert_perm {A} (x : Z * A) (l : list (Z * A)) : Sorted.insert x l ≡ₚ x :: l.
Proof.
  induction l as [|y l IH]; simpl; [done|].
  destruct (fst x <=? fst y); [done|]. rewrite IH. apply Permutation_swap.
Qed.

Lemma sort_perm {A} (l : list (Z * A)) : Sorted.sort l ≡ₚ l.
Proof.
  induction l as [|x l IH]; simpl; [done|].
  rewrite insert_perm. by f_equiv.
Qed.

Lemma insert_sorted {A} (x : Z * A) (l : list (Z * A)) :
  StronglySorted key_le l -> StronglySorted key_le (Sorted.insert x l).
Proof.
  induction 1 as [|y l Hl IH Hy]; simpl.
  - repeat constructor.
  - destruct (Z.leb_spec (fst x) (fst y)) as [Hle|Hgt].
    + constructor; [by constructor|].
      constructor; [done|].
      eapply Forall_impl; [exact Hy|]. unfold key_le. intros; lia.
    + constructor; [done|].
      rewrite insert_perm. constructor; [unfold key_le; lia | done].
Qed.

Lemma sort_sorted {A} (l : list (Z * A)) : StronglySorted key_le (Sorted.sort l).
Proof.
  induction l as [|x l IH]; simpl; [constructor | by apply insert_sorted].
Qed.

(** With pairwise distinct keys the order is strict. *)
Lemma sorted_strict {A} (l : list (Z * A)) :
  NoDup (map fst l) -> StronglySorted key_le l -> StronglySorted key_lt l.
Proof.
  induction l as [|x l IH]; intros Hnd Hs; [constructor|].
  apply NoDup_cons in Hnd as [Hx Hnd].
  apply StronglySorted_inv in Hs as [Hs Hall].
  constructor; [by apply IH|].
  apply Forall_forall. intros y Hy.
  rewrite Forall_forall in Hall. specialize (Hall y Hy).
  unfold key_le, key_lt in *.
  assert (fst x <> fst y); [|lia].
  intros Heq. apply Hx. rewrite Heq. apply list_elem_of_fmap. eauto.
Qed.

Lemma sort_strict {A} (l : list (Z * A)) :
  NoDup (map fst l) -> StronglySorted key_lt (Sorted.sort l).
Proof.
  intros Hnd. apply sorted_strict; [|apply sort_sorted].
  assert (Hp : map fst (Sorted.sort l) ≡ₚ map fst l) by apply Permutation_map, sort_perm.
  by rewrite Hp.
Qed.

(** Relabelling the elements without touching the keys commutes with the sort. *)
Lemma insert_relabel {A B} (g : Z * A -> B) (x : Z * A) (l : list (Z * A)) :
  Sorted.insert (fst x, g x) (map (fun c => (fst c, g c)) l)
  = map (fun c => (fst c, g c)) (Sorted.insert x l).
Proof.
  induction l as [|y l IH]; simpl; [done|].
  destruct (fst x <=? fst y); simpl; [done | by rewrite IH].
Qed.

Lemma sort_relabel {A B} (g : Z * A -> B) (l : list (Z * A)) :
  Sorted.sort (map (fun c => (fst c, g c)) l) = map (fun c => (fst c, g c)) (Sorted.sort l).
Proof.
  induction l as [|x l IH]; simpl; [done|].
  rewrite IH. apply insert_relabel.
Qed.

(** A strictly sorted list is determined by its elements. *)
Lemma strictly_sorted_unique {A} (l1 l2 : list (Z * A)) :
  StronglySorted key_lt l1 -> StronglySorted key_lt l2 -> l1 ≡ₚ l2 -> l1 = l2.
Proof.
  apply StronglySorted_unique_strong.
  unfold key_lt. intros; lia.
Qed.

Lemma strictly_sorted_keys_nodup {A} (l : list (Z * A)) :
  StronglySorted key_lt l -> NoDup (map fst l).
Proof.
  induction 1 as [|x l Hl IH Hx]; simpl; constructor; [|done].
  intros Hin. apply list_elem_of_fmap in Hin as [y [Hy Hin]].
  rewrite Forall_forall in Hx. specialize (Hx y Hin). unfold key_lt in Hx. lia.
Qed.

(** Where two chunks of a strictly sorted list stand. *)
Lemma sorted_places {A} (l : list (Z * A)) (x y : Z * A) :
  StronglySorted key_lt l -> x ∈ l -> y ∈ l -> fst x < fst y ->
  exists before between after, l = before ++ x :: between ++ y :: after.
Proof.
  intros Hs Hx Hy Hlt.
  apply list_elem_of_split in Hx as (before & rest & ->).
  apply StronglySorted_app in Hs as (Hbr & Hb & Hr).
  apply StronglySorted_inv in Hr as [Hrest Hxrest].
  apply elem_of_app in Hy as [Hy|Hy].
  - exfalso. specialize (Hbr y x Hy ltac:(left)). unfold key_lt in Hbr. lia.
  - apply elem_of_cons in Hy as [->|Hy]; [lia|].
    apply list_elem_of_split in Hy as (between & after & ->).
    by exists before, between, after.
Qed.

(** ** Reassembly *)

Lemma lookup_staged (l : list (Z * bytes)) (c : Z * bytes) :
  NoDup (map fst l) -> c ∈ l -> Os.lookup_entry (chunk_name (fst c)) (staged l) = Some (snd c).
Proof.
  unfold Os.lookup_entry. induction l as [|[i d] l IH]; simpl; intros Hnd Hc.
  - by apply elem_of_nil in Hc.
  - apply NoDup_cons in Hnd as [Hi Hnd].
    apply elem_of_cons in Hc as [->|Hc]; simpl.
    + by rewrite bool_decide_eq_true_2.
    + rewrite bool_decide_eq_false_2; [by apply IH|].
      intros Heq. apply chunk_name_inj in Heq. subst i.
      apply Hi. apply list_elem_of_fmap. eauto.
Qed.

Lemma keyed_chunk_names (l : list (Z * bytes)) (w : world) :
  Sorted.keyed ChunkUpload.chunk_key (map fst (staged l)) w
  = (Ok (map (fun c => (fst c, chunk_name (fst c))) l), w).
Proof.
  induction l as [|c l IH]; simpl; [done|].
  unfold bind at 1. rewrite chunk_key_chunk_name.
  unfold bind at 1. by rewrite IH.
Qed.

Lemma filter_chunk_names (l : list (Z * bytes)) :
  List.filter (Str.startswith "chunk_") (map fst (staged l)) = map fst (staged l).
Proof.
  induction l as [|c l IH]; [done|].
  cbn [staged map fst List.filter]. rewrite startswith_chunk_name. by f_equal.
Qed.

Lemma merge_loop (upload_id merged : string) (es : list (string * bytes)) :
  merged <> upload_id ->
  forall (items : list (Z * bytes)) old r t lg,
    r !! upload_id = Some (Dir es) ->
    r !! merged = Some (File old) ->
    (forall c, c ∈ items -> Os.lookup_entry (chunk_name (fst c)) es = Some (snd c)) ->
    for_each (map (fun c => chunk_name (fst c)) items)
      (fun chunk_file =>
         let chunk_path := InDir upload_id chunk_file in
         let* cf := Os.open_rb chunk_path in
         copy_stream cf (Os.write (InRoot merged)))
      (World r t lg)
    = (Ok tt, World (<[merged := File (old ++ concat (map snd items))]> r) t
                    (lg ++ copy_events (InRoot merged) items)).
Proof.
  intros Hne. induction items as [|c items IH]; intros old r t lg Hdir Hfile Hitems.
  - simpl. rewrite !app_nil_r, insert_id; done.
  - cbn [map for_each].
    assert (Hstep :
      (let* cf := Os.open_rb (InDir upload_id (chunk_name (fst c))) in
       copy_stream cf (Os.write (InRoot merged))) (World r t lg)
      = (Ok tt, World (<[merged := File (old ++ snd c)]> r) t
                      (lg ++ map (EvWrite (InRoot merged))
                                 (blocks block_size (length (snd c)) (snd c))))).
    { rewrite (bind_ok _ _ _ _ _ (open_rb_in_dir upload_id _ es (snd c) (World r t lg) Hdir
                                    (Hitems c ltac:(left)))).
      unfold copy_stream.
      by apply (copy_blocks_to_root block_size merged block_size_pos). }
    rewrite (bind_ok _ _ _ _ _ Hstep).
    rewrite (IH (old ++ snd c)).
    + unfold copy_events. simpl. by rewrite insert_insert_eq, <- !app_assoc.
    + by rewrite lookup_insert_ne.
    + by rewrite lookup_insert_eq.
    + intros c' Hc'. apply Hitems. by right.
Qed.

(** What [reassemble] does to a staging directory written by
    [upload_chunk_handler]. *)
Lemma reassemble_staged (upload_id filename : string) (l : list (Z * bytes))
    (r : gmap string node) (t : nat) (lg : list event) :
  r !! upload_id = Some (Dir (staged l)) ->
  NoDup (map fst l) ->
  (forall es, r !! merged_name upload_id filename <> Some (Dir es)) ->
  ChunkUpload.reassemble upload_id filename (World r t lg)
  = (Ok (InRoot (merged_name upload_id filename)),
     World (<[merged_name upload_id filename := File (concat (map snd (Sorted.sort l)))]> r) t
           (lg ++ EvOpenWrite (InRoot (merged_name upload_id filename))
               :: copy_events (InRoot (merged_name upload_id filename)) (Sorted.sort l))).
Proof.
  intros Hdir Hnd Hm.
  assert (Hne : merged_name upload_id filename <> upload_id) by apply append_differs.
  unfold ChunkUpload.reassemble. fold (merged_name upload_id filename).
  rewrite (bind_ok _ _ _ _ _ (listdir_dir upload_id (staged l) (World r t lg) Hdir)).
  assert (Hsorted :
    Sorted.sorted (List.filter (Str.startswith "chunk_") (map fst (staged l)))
      ChunkUpload.chunk_key (World r t lg)
    = (Ok (map (fun c => chunk_name (fst c)) (Sorted.sort l)), World r t lg)).
  { unfold Sorted.sorted. rewrite filter_chunk_names.
    rewrite (bind_ok _ _ _ _ _ (keyed_chunk_names l _)).
    rewrite (sort_relabel (fun c => chunk_name (fst c)) l), map_map. done. }
  rewrite (bind_ok _ _ _ _ _ Hsorted).
  rewrite (bind_ok _ _ _ _ _ (open_wb_in_root _ r t lg Hm)).
  erewrite bind_ok.
  2:{ apply (merge_loop upload_id (merged_name upload_id filename) (staged l) Hne
               (Sorted.sort l) []).
      - by rewrite lookup_insert_ne.
      - by rewrite lookup_insert_eq.
      - intros c Hc. apply lookup_staged; [done|]. by rewrite <- (sort_perm l). }
  unfold ret. simpl. by rewrite insert_insert_eq, <- app_assoc.
Qed.

(** No event of a merge is a request. *)
Lemma copy_events_no_request (p : path) (items : list (Z * bytes)) (req : Http.request) :
  EvRequest req ∉ copy_events p items.
Proof.
  unfold copy_events. intros Hin.
  apply list_elem_of_In, in_concat in Hin as (evs & Hevs & Hin).
  apply list_elem_of_In, list_elem_of_fmap in Hevs as (c & -> & _).
  apply list_elem_of_In, list_elem_of_fmap in Hin as (data & Heq & _). discriminate.
Qed.

(** ** Sequences of chunk uploads *)

Lemma numbered_from_contents k contents : map snd (numbered_from k contents) = contents.
Proof. revert k. induction contents as [|d rest IH]; intros k; simpl; [done | by rewrite IH]. Qed.

Lemma numbered_from_lower k contents :
  Forall (fun c : Z * bytes => k <= fst c) (numbered_from k contents).
Proof.
  revert k. induction contents as [|d rest IH]; intros k; simpl; constructor; [simpl; lia|].
  eapply Forall_impl; [apply (IH (k + 1))|]. simpl. intros; lia.
Qed.

Lemma numbered_from_sorted k contents : StronglySorted key_lt (numbered_from k contents).
Proof.
  revert k. induction contents as [|d rest IH]; intros k; simpl; constructor; [apply IH|].
  eapply Forall_impl; [apply (numbered_from_lower (k + 1))|].
  unfold key_lt. simpl. intros; lia.
Qed.

Lemma staged_app l1 l2 : staged (l1 ++ l2) = staged l1 ++ staged l2.
Proof. apply map_app. Qed.

Lemma staged_names l : map fst (staged l) = map chunk_name (map fst l).
Proof. unfold staged. by rewrite !map_map. Qed.

Lemma upload_chunks_staged (upload_id : string) :
  forall (chunks l0 : list (Z * bytes)) r t lg,
    r !! upload_id = Some (Dir (staged l0)) ->
    NoDup (map fst (l0 ++ chunks)) ->
    exists lg',
      upload_chunks upload_id chunks (World r t lg)
      = (Ok tt, World (<[upload_id := Dir (staged (l0 ++ chunks))]> r) t lg').
Proof.
  induction chunks as [|c chunks IH]; intros l0 r t lg Hdir Hnd.
  - exists lg. unfold upload_chunks. simpl. rewrite app_nil_r, insert_id; done.
  - assert (Hfresh : chunk_name (fst c) ∉ map fst (staged l0)).
    { rewrite staged_names. intros Hin.
      apply list_elem_of_fmap in Hin as [i [Hi Hin]]. apply chunk_name_inj in Hi. subst i.
      rewrite map_app in Hnd. apply NoDup_app in Hnd as (_ & Hdisj & _).
      apply (Hdisj _ Hin). simpl. left. }
    assert (Hstep :
      (let* _ := ChunkUpload.upload_chunk_handler upload_id (fst c) (Upload "blob" (snd c)) in
       ret tt) (World r t lg)
      = (Ok tt, World (<[upload_id := Dir (staged (l0 ++ [c]))]> r) t
                      (lg ++ store_events (InDir upload_id (chunk_name (fst c))) (snd c)))).
    { rewrite (bind_ok _ _ _ _ _
                 (upload_chunk_stores upload_id (fst c) (Upload "blob" (snd c))
                    (staged l0) r t lg Hdir)).
      rewrite (set_entry_fresh _ _ _ Hfresh). cbn [content]. by rewrite staged_app. }
    destruct (IH (l0 ++ [c]) (<[upload_id := Dir (staged (l0 ++ [c]))]> r) t
                (lg ++ store_events (InDir upload_id (chunk_name (fst c))) (snd c)))
      as [lg' Hrun].
    + by rewrite lookup_insert_eq.
    + by rewrite <- app_assoc.
    + exists lg'. unfold upload_chunks in *. cbn [for_each].
      rewrite (bind_ok _ _ _ _ _ Hstep), Hrun, insert_insert_eq, <- app_assoc. done.
Qed.

(** ** The transfer client *)

(** The library functions are never unfolded by simplification. *)
Arguments Hashlib.sha256 : simpl never.
Arguments Hashlib.hex : simpl never.
Arguments Hmac.digest : simpl never.
Arguments Hmac.hexdigest : simpl never.
Arguments Base64.b64encode : simpl never.
Arguments Json.dumps : simpl never.
Arguments Datetime.add_hours : simpl never.
Arguments Datetime.amz_date : simpl never.
Arguments Datetime.date_stamp : simpl never.
Arguments Datetime.iso_z : simpl never.
Arguments S3.get_signature_key : simpl never.
Arguments encode : simpl never.
Arguments decode : simpl never.
Arguments String.append : simpl never.

Lemma sha256_length (data : bytes) : length (Hashlib.sha256 data) = 32%nat.
Proof. unfold Hashlib.sha256. rewrite length_map. reflexivity. Qed.

Lemma hmac_length (key msg : bytes) : length (Hmac.digest key msg) = 32%nat.
Proof. apply sha256_length. Qed.

Lemma build_policy_document_unfold (self : S3.S3Client) (bucket key : string)
    (now expires : Datetime.t) :
  build_policy_document self bucket key now expires
  = (decode (Base64.b64encode (encode (Json.dumps (policy_of self bucket key now expires)))),
     Hashlib.hex
       (Hmac.digest
          (S3.get_signature_key (S3.secret_key self) (Datetime.date_stamp now)
             (S3.region self) "s3")
          (encode (decode (Base64.b64encode
                     (encode (Json.dumps (policy_of self bucket key now expires)))))))).
Proof.
  unfold build_policy_document, derive_signing_key, HMAC, S3.get_signature_key.
  reflexivity.
Qed.

Lemma send_outcome (E : env) (req : Http.request) (r : gmap string node) (t : nat)
    (lg : list event) :
  bind (S3.send E req)
    (fun response =>
       let '(status, text) := response in
       if bool_decide (status ∉ [200; 204]) then raise (S3ClientException status text)
       else ret tt) (World r t lg)
  = (outcome_of (backend E req), World r t (lg ++ [EvRequest req])).
Proof.
  unfold S3.send, bind, emit, outcome_of. simpl.
  destruct (backend E req) as [status text|]; simpl; [|done].
  destruct (decide (status = 200 \/ status = 204)) as [Hs|Hs].
  - rewrite bool_decide_eq_false_2, bool_decide_eq_true_2; [done..|].
    intros Hn. apply Hn. destruct Hs as [->| ->]; [left | right; left].
  - rewrite bool_decide_eq_true_2, bool_decide_eq_false_2; [done..|].
    intros Hin. apply Hs.
    apply elem_of_cons in Hin as [?|Hin]; [by left|].
    apply elem_of_cons in Hin as [?|Hin]; [by right|]. by apply elem_of_nil in Hin.
Qed.

Lemma upload_file_multipart_run (E : env) (self : S3.S3Client) (bucket key name : string)
    (data : bytes) (later : Datetime.t) (r : gmap string node) (t : nat) (lg : list event) :
  r !! name = Some (File data) ->
  Datetime.add_hours 1 (clock E t) = Some later ->
  S3.upload_file_multipart E self bucket key (InRoot name) (World r t lg)
  = (outcome_of (backend E (multipart_request self bucket key (clock E t) later name data)),
     World r (S t)
       (lg ++ [EvRequest (multipart_request self bucket key (clock E t) later name data)])).
Proof.
  intros Hfile Hlater. unfold S3.upload_file_multipart.
  unfold bind at 1, datetime_now. cbn [root ticks log]. rewrite Hlater.
  rewrite (bind_ok _ _ _ _ _ (open_rb_in_root name data (World r (S t) lg) Hfile)).
  unfold multipart_request, build_policy_document, policy_of, credential_of,
    derive_signing_key, HMAC, S3.policy_document, S3.get_signature_key, Hmac.hexdigest,
    Os.basename.
  cbn [fst snd].
  exact (send_outcome E _ r (S t) lg).
Qed.

(** Whatever the clock and the backend, a multipart upload leaves the
    upload root alone and sends at most one request. *)
Lemma upload_file_multipart_frame (E : env) (self : S3.S3Client) (bucket key : string)
    (p : path) (r : gmap string node) (t : nat) (lg : list event) :
  exists res evs,
    S3.upload_file_multipart E self bucket key p (World r t lg)
    = (res, World r (S t) (lg ++ evs))
    /\ (evs = [] \/ exists req, evs = [EvRequest req]).
Proof.
  unfold S3.upload_file_multipart. unfold bind at 1, datetime_now. cbn [root ticks log].
  destruct (Datetime.add_hours 1 (clock E t)) as [later|].
  - destruct (Os.open_rb p (World r (S t) lg)) as [[data|e] w'] eqn:Hopen.
    + assert (w' = World r (S t) lg) as ->.
      { unfold Os.open_rb, bind, get_root, ret, raise in Hopen. simpl in Hopen.
        destruct p; simpl in Hopen; repeat case_match; by simplify_eq. }
      rewrite (bind_ok _ _ _ _ _ Hopen). rewrite send_outcome. eauto 8.
    + assert (w' = World r (S t) lg) as ->.
      { unfold Os.open_rb, bind, get_root, ret, raise in Hopen. simpl in Hopen.
        destruct p; simpl in Hopen; repeat case_match; by simplify_eq. }
      rewrite (bind_raise _ _ _ _ _ Hopen). exists (Raise e), []. by rewrite app_nil_r; auto.
  - exists (Raise OverflowError), []. unfold raise. by rewrite app_nil_r; auto.
Qed.

Lemma sign_request_run (E : env) (self : S3.S3Client) (method bucket key payload_hash : string)
    (r : gmap string node) (t : nat) (lg : list event) :
  S3.sign_request E self method bucket key [] payload_hash (World r t lg)
  = (Ok [ ("Authorization", authorization_of self (clock E t) method bucket key payload_hash);
          ("x-amz-date", Datetime.amz_date (clock E t));
          ("x-amz-content-sha256", payload_hash) ],
     World r (S t) lg).
Proof.
  unfold S3.sign_request, bind, datetime_now, ret. cbn [root ticks log].
  unfold authorization_of. cbv zeta. cbn [S3.dict_set].
  rewrite !bool_decide_eq_false_2 by discriminate. reflexivity.
Qed.

Lemma upload_file_run (E : env) (self : S3.S3Client) (bucket key : string) (data : bytes)
    (r : gmap string node) (t : nat) (lg : list event) :
  S3.upload_file E self bucket key None (Some data) (World r t lg)
  = (outcome_of (backend E (put_request self (clock E t) bucket key data)),
     World r (S t) (lg ++ [EvRequest (put_request self (clock E t) bucket key data)])).
Proof.
  unfold S3.upload_file. unfold bind at 1, ret at 1.
  rewrite (bind_ok _ _ _ _ _ (sign_request_run E self "PUT" bucket key _ r t lg)).
  unfold put_request.
  exact (send_outcome E _ r (S t) lg).
Qed.

Lemma call_with_three_positional (E : env) (self : S3.S3Client) (bucket key : string)
    (p : path) :
  S3.call_upload_file_multipart E self [PStr bucket; PStr key; PPath p] []
  = S3.upload_file_multipart E self bucket key p.
Proof. reflexivity. Qed.

Lemma call_with_file_bytes_keyword (E : env) (self : S3.S3Client) (bucket key : string)
    (v : pyval) :
  S3.call_upload_file_multipart E self [PStr bucket; PStr key] [("file_bytes", v)]
  = raise TypeError.
Proof. reflexivity. Qed.

(** ** The complete handler *)

Lemma complete_unknown (E : env) (settings : Config.Settings) (S3_KEY : string)
    (upload_id filename : string) (w : world) :
  root w !! upload_id = None ->
  ChunkUpload.complete_upload_handler E settings S3_KEY upload_id filename w
  = (Ok (PExc (HTTPExeption 403 [("content", "Invalid upload id")])), w).
Proof.
  intros Hr. unfold ChunkUpload.complete_upload_handler.
  rewrite (bind_ok _ _ _ _ _ (path_exists_spec upload_id w)).
  rewrite Hr, bool_decide_eq_false_2; [done|]. by intros [? ?].
Qed.

Section Complete.
Context (E : env) (settings : Config.Settings) (S3_KEY : string).
Context (upload_id filename : string) (l : list (Z * bytes)).
Context (r : gmap string node) (t : nat) (lg : list event).

Local Abbreviation merged := (merged_name upload_id filename).
Local Abbreviation merged_bytes := (concat (map snd (Sorted.sort l))).
Local Abbreviation root1 := (root_at_transfer upload_id filename l r).
Local Abbreviation log1 := (log_at_transfer upload_id filename l lg).

Hypothesis Hdir : r !! upload_id = Some (Dir (staged l)).
Hypothesis Hnd : NoDup (map fst l).
Hypothesis Hm : forall es, r !! merged <> Some (Dir es).

Lemma merged_at_transfer : root1 !! merged = Some (File merged_bytes).
Proof.
  unfold root_at_transfer.
  rewrite lookup_delete_ne by (symmetry; apply append_differs).
  apply lookup_insert_eq.
Qed.

Lemma staging_gone_at_transfer : root1 !! upload_id = None.
Proof. unfold root_at_transfer. apply lookup_delete_eq. Qed.

(** [complete_upload_handler] on a staged session, in terms of what the
    transfer does. *)
Lemma complete_staged (res : result unit) (evs : list event) :
  transfer E settings S3_KEY upload_id filename (World root1 t log1)
  = (res, World root1 (S t) (log1 ++ evs)) ->
  ChunkUpload.complete_upload_handler E settings S3_KEY upload_id filename (World r t lg)
  = match res with
    | Ok _ =>
        (Ok (PDict [("detail", "Successful Upload Video")]),
         World (delete merged root1) (S t) (log1 ++ evs ++ [EvRemove merged]))
    | Raise _ =>
        (Ok (PExc (HTTPExeption 500 [("detail", "Error uploading merged file to S3")])),
         World root1 (S t) (log1 ++ evs))
    end.
Proof.
  intros Htransfer. unfold ChunkUpload.complete_upload_handler.
  rewrite (bind_ok _ _ _ _ _ (path_exists_spec upload_id _)). cbn [root].
  rewrite Hdir, bool_decide_eq_true_2 by eauto. cbn [negb].
  rewrite (bind_ok _ _ _ _ _ (reassemble_staged upload_id filename l r t lg Hdir Hnd Hm)).
  erewrite bind_ok.
  2:{ apply (rmtree_dir upload_id (staged l)).
      rewrite lookup_insert_ne by apply append_differs. exact Hdir. }
  rewrite call_with_three_positional.
  assert (Hlog : (lg ++ EvOpenWrite (InRoot merged)
                      :: copy_events (InRoot merged) (Sorted.sort l)) ++ [EvRmtree upload_id]
                 = log1).
  { unfold log_at_transfer. by rewrite <- app_assoc. }
  rewrite Hlog. fold root1. fold (transfer E settings S3_KEY upload_id filename).
  unfold bind at 1, try_except, bind at 1. rewrite Htransfer.
  destruct res as [[]|e]; unfold ret.
  - rewrite (bind_ok _ _ _ _ _ (remove_file merged merged_bytes _ (S t)
                                  (log1 ++ evs) merged_at_transfer)).
    by rewrite <- app_assoc.
  - done.
Qed.

(** The transfer always fits the premise of [complete_staged]. *)
Lemma transfer_frame :
  exists res evs,
    transfer E settings S3_KEY upload_id filename (World root1 t log1)
    = (res, World root1 (S t) (log1 ++ evs))
    /\ (evs = [] \/ exists req, evs = [EvRequest req]).
Proof. apply upload_file_multipart_frame. Qed.

End Complete.

Lemma log_at_transfer_split (upload_id filename : string) (l : list (Z * bytes))
    (lg evs : list event) :
  log_at_transfer upload_id filename l lg ++ evs
  = lg ++ (EvOpenWrite (InRoot (merged_name upload_id filename))
           :: copy_events (InRoot (merged_name upload_id filename)) (Sorted.sort l))
       ++ EvRmtree upload_id :: evs.
Proof.
  unfold log_at_transfer. rewrite <- !app_assoc. simpl. by rewrite <- app_assoc.
Qed.

(** ** Reachable worlds *)

Lemma hex_digit_no_underscore (z : Z) :
  0 <= z < 16 -> negb (Ascii.eqb (Hashlib.hex_digit z) "_") = true.
Proof.
  intros Hz.
  assert (Hcases : z = 0 \/ z = 1 \/ z = 2 \/ z = 3 \/ z = 4 \/ z = 5 \/ z = 6 \/ z = 7
                   \/ z = 8 \/ z = 9 \/ z = 10 \/ z = 11 \/ z = 12 \/ z = 13 \/ z = 14
                   \/ z = 15) by lia.
  repeat (destruct Hcases as [->|Hcases]; [reflexivity|]). by subst.
Qed.

Lemma all_chars_of_list (P : ascii -> bool) (l : list ascii) :
  Forall (fun c => P c = true) l -> all_chars P (string_of_list_ascii l) = true.
Proof. induction 1 as [|c l Hc _ IH]; simpl; [done | by rewrite Hc, IH]. Qed.

Lemma uuid_no_underscore (n : Z) : no_underscore (Uuid.to_str n) = true.
Proof.
  assert (Hhex : Forall (fun c => negb (Ascii.eqb c "_") = true) (Uuid.hex32 n)).
  { unfold Uuid.hex32. apply Forall_forall. intros c Hc.
    apply list_elem_of_fmap in Hc as (i & -> & _).
    apply hex_digit_no_underscore, Z.mod_pos_bound. lia. }
  unfold no_underscore, Uuid.to_str. cbv zeta. apply all_chars_of_list.
  repeat first
    [ apply Forall_app; split
    | apply Forall_cons; split; [reflexivity|]
    | apply Forall_take
    | apply Forall_drop
    | exact Hhex ].
Qed.

Lemma merged_name_underscore (upload_id filename : string) :
  no_underscore (merged_name upload_id filename) = false.
Proof.
  unfold no_underscore, merged_name. induction upload_id as [|c s IH]; [reflexivity|].
  change (String c s +:+ "_" +:+ filename) with (String c (s +:+ "_" +:+ filename)).
  cbn [all_chars]. rewrite IH. apply andb_false_r.
Qed.

Lemma well_staged_merged_free (r : gmap string node) (upload_id filename : string) :
  well_staged r -> forall es, r !! merged_name upload_id filename <> Some (Dir es).
Proof.
  intros Hr es Hes. destruct (Hr _ _ Hes) as [Hname _].
  by rewrite merged_name_underscore in Hname.
Qed.

Lemma well_staged_insert_file (r : gmap string node) (name : string) (data : bytes) :
  well_staged r -> well_staged (<[name := File data]> r).
Proof.
  intros Hr name' es. destruct (decide (name = name')) as [->|Hne].
  - by rewrite lookup_insert_eq.
  - rewrite lookup_insert_ne by done. apply Hr.
Qed.

Lemma well_staged_insert_dir (r : gmap string node) (name : string) (l : list (Z * bytes)) :
  no_underscore name = true -> NoDup (map fst l) ->
  well_staged r -> well_staged (<[name := Dir (staged l)]> r).
Proof.
  intros Hname Hnd Hr name' es. destruct (decide (name = name')) as [->|Hne].
  - rewrite lookup_insert_eq. intros [= <-]. eauto.
  - rewrite lookup_insert_ne by done. apply Hr.
Qed.

Lemma well_staged_delete (r : gmap string node) (name : string) :
  well_staged r -> well_staged (delete name r).
Proof.
  intros Hr name' es. destruct (decide (name = name')) as [->|Hne].
  - by rewrite lookup_delete_eq.
  - rewrite lookup_delete_ne by done. apply Hr.
Qed.

(** Writing the chunk of index [i] into a staging directory keeps it one:
    the chunk replaces the one of the same index, or comes last. *)
Lemma set_entry_staged (i : Z) (d : bytes) (l : list (Z * bytes)) :
  NoDup (map fst l) ->
  exists l', Os.set_entry (chunk_name i) d (staged l) = staged l' /\ NoDup (map fst l')
             /\ map fst l' = map fst l ++ (if decide (i ∈ map fst l) then [] else [i]).
Proof.
  induction l as [|[j dj] l IH]; intros Hnd.
  - exists [(i, d)]. simpl. split; [done|]. split; [|done].
    apply NoDup_singleton.
  - apply NoDup_cons in Hnd as [Hj Hnd]. cbn [staged map fst snd Os.set_entry].
    destruct (decide (j = i)) as [->|Hne].
    + rewrite bool_decide_eq_true_2 by done.
      exists ((i, d) :: l). cbn [staged map fst snd]. split; [done|]. split.
      * apply NoDup_cons. done.
      * rewrite decide_True by left. by rewrite app_nil_r.
    + rewrite bool_decide_eq_false_2 by (intros Heq; by apply chunk_name_inj in Heq).
      destruct (IH Hnd) as (l' & Hset & Hnd' & Hkeys).
      exists ((j, dj) :: l'). fold (staged l). rewrite Hset.
      cbn [staged map fst snd]. split; [done|]. split.
      * apply NoDup_cons. split; [|done]. rewrite Hkeys.
        intros Hin. apply elem_of_app in Hin as [Hin|Hin]; [done|].
        destruct (decide (i ∈ map fst l)); [by apply elem_of_nil in Hin|].
        apply list_elem_of_singleton in Hin. done.
      * rewrite Hkeys. cbn [app]. f_equal. f_equal.
        destruct (decide (i ∈ map fst l)) as [Hi|Hi].
        -- rewrite decide_True by (by right). done.
        -- rewrite decide_False; [done|]. intros Hin.
           apply elem_of_cons in Hin as [?|?]; done.
Qed.

Section Serve.
Context (E : env) (settings : Config.Settings) (S3_KEY : string).

Lemma init_preserves (uuid4 : Z) (filename : string) (file_size : Z) (w : world) :
  well_staged (root w) ->
  well_staged (root (snd (ChunkUpload.init_upload_handler uuid4 filename file_size w))).
Proof.
  intros Hw. destruct w as [r t lg].
  unfold ChunkUpload.init_upload_handler, Os.makedirs, bind, get_root, emit, set_root, ret,
    raise. cbn [root ticks log fst snd].
  destruct (r !! Uuid.to_str uuid4) as [[data|es]|] eqn:Hl; cbn [root snd]; try done.
  apply (well_staged_insert_dir r _ []); [apply uuid_no_underscore | constructor | done].
Qed.

Lemma upload_chunk_on_file (upload_id : string) (chunk_index : Z) (file : UploadFile)
    (data : bytes) (w : world) :
  root w !! upload_id = Some (File data) ->
  ChunkUpload.upload_chunk_handler upload_id chunk_index file w
  = (Ok (PExc (HTTPExeption 403 [("detail", "Error uploading chunk")])), w).
Proof.
  intros Hr. unfold ChunkUpload.upload_chunk_handler, try_except.
  rewrite (bind_ok _ _ _ _ _ (path_exists_spec upload_id w)).
  rewrite Hr, bool_decide_eq_true_2 by eauto. cbn [negb].
  erewrite bind_raise; [reflexivity|].
  unfold Os.open_wb, bind, get_root. by rewrite Hr.
Qed.

Lemma upload_chunk_preserves (upload_id : string) (chunk_index : Z) (file : UploadFile)
    (w : world) :
  well_staged (root w) ->
  well_staged (root (snd (ChunkUpload.upload_chunk_handler upload_id chunk_index file w))).
Proof.
  intros Hw. destruct (root w !! upload_id) as [[data|es]|] eqn:Hl.
  - by rewrite (upload_chunk_on_file _ _ _ data w Hl).
  - destruct (Hw _ _ Hl) as (Hname & l & -> & Hnd).
    destruct w as [r t lg]. cbn [root] in *.
    rewrite (upload_chunk_stores upload_id chunk_index file (staged l) r t lg Hl).
    cbn [snd root].
    destruct (set_entry_staged chunk_index (content file) l Hnd) as (l' & -> & Hnd' & _).
    by apply well_staged_insert_dir.
  - by rewrite (upload_chunk_unknown _ _ _ w Hl).
Qed.

Lemma complete_on_file (upload_id filename : string) (data : bytes) (w : world) :
  root w !! upload_id = Some (File data) ->
  ChunkUpload.complete_upload_handler E settings S3_KEY upload_id filename w
  = (Raise NotADirectoryError, w).
Proof.
  intros Hr. unfold ChunkUpload.complete_upload_handler.
  rewrite (bind_ok _ _ _ _ _ (path_exists_spec upload_id w)).
  rewrite Hr, bool_decide_eq_true_2 by eauto. cbn [negb].
  erewrite bind_raise; [reflexivity|].
  unfold ChunkUpload.reassemble. erewrite bind_raise; [reflexivity|].
  unfold Os.listdir, bind, get_root. by rewrite Hr.
Qed.

Lemma complete_preserves (upload_id filename : string) (w : world) :
  well_staged (root w) ->
  well_staged
    (root (snd (ChunkUpload.complete_upload_handler E settings S3_KEY upload_id filename w))).
Proof.
  intros Hw. destruct (root w !! upload_id) as [[data|es]|] eqn:Hl.
  - by rewrite (complete_on_file _ _ data w Hl).
  - destruct (Hw _ _ Hl) as (Hname & l & -> & Hnd).
    destruct w as [r t lg]. cbn [root] in *.
    destruct (transfer_frame E settings S3_KEY upload_id filename l r t lg)
      as (res & evs & Htransfer & _).
    rewrite (complete_staged E settings S3_KEY upload_id filename l r t lg Hl Hnd
               (well_staged_merged_free r upload_id filename Hw) res evs Htransfer).
    assert (Hroot1 : well_staged (root_at_transfer upload_id filename l r)).
    { unfold root_at_transfer. by apply well_staged_delete, well_staged_insert_file. }
    destruct res as [[]|e]; cbn [snd root]; [by apply well_staged_delete | done].
  - by rewrite (complete_unknown E settings S3_KEY _ _ w Hl).
Qed.

Lemma serve_preserves (c : call) (w : world) :
  well_staged (root w) -> well_staged (root (snd (serve E settings S3_KEY c w))).
Proof.
  intros Hw. destruct c as [uuid4 filename file_size|upload_id chunk_index file
                            |upload_id filename|file]; cbn [serve].
  - by apply init_preserves.
  - by apply upload_chunk_preserves.
  - by apply complete_preserves.
  - unfold FileUpload.upload_file, try_except.
    by rewrite call_with_file_bytes_keyword.
Qed.

Lemma reachable_well_staged (w : world) :
  reachable E settings S3_KEY w -> well_staged (root w).
Proof.
  induction 1 as [|w c _ IH]; [|by apply serve_preserves].
  intros name es Hl. cbn [root] in Hl. by rewrite lookup_empty in Hl.
Qed.

(** In a reachable world every directory of the upload root is a staging
    directory written by chunk uploads, and no merged file name collides
    with a directory. *)
Lemma reachable_session_staged (w : world) (upload_id : string)
    (es : list (string * bytes)) :
  reachable E settings S3_KEY w ->
  root w !! upload_id = Some (Dir es) ->
  exists l,
    es = staged l /\ NoDup (map fst l)
    /\ forall filename es', root w !! merged_name upload_id filename <> Some (Dir es').
Proof.
  intros Hreach Hl. pose proof (reachable_well_staged w Hreach) as Hw.
  destruct (Hw _ _ Hl) as (_ & l & -> & Hnd). exists l. split; [done|]. split; [done|].
  intros filename. by apply well_staged_merged_free.
Qed.

End Serve.

(** ** The calendar *)

(** Every day of the first 400-year cycle, by evaluation. *)
Lemma first_cycle_round_trips : round_trips_from (Z.to_nat 146097) 1 = true.
Proof. vm_cast_no_check (eq_refl true). Qed.

Lemma round_trips_from_spec (count : nat) :
  forall n k, round_trips_from count n = true -> n <= k < n + Z.of_nat count ->
  round_trips k = true.
Proof.
  induction count as [|count IH]; intros n k Hall Hk; [lia|].
  simpl in Hall. apply andb_true_iff in Hall as [Hn Hrest].
  destruct (decide (k = n)) as [->|Hne]; [done|].
  apply (IH (n + 1)); [done | lia].
Qed.

Lemma is_leap_cycle (y q : Z) : Datetime.is_leap (y + 400 * q) = Datetime.is_leap y.
Proof.
  unfold Datetime.is_leap.
  replace ((y + 400 * q) mod 4) with (y mod 4)
    by (rewrite (Z.mul_comm 400 q); replace (q * 400) with (q * 100 * 4) by lia;
        by rewrite Z.mod_add).
  replace ((y + 400 * q) mod 100) with (y mod 100)
    by (replace (400 * q) with (q * 4 * 100) by lia; by rewrite Z.mod_add).
  replace ((y + 400 * q) mod 400) with (y mod 400)
    by (replace (400 * q) with (q * 400) by lia; by rewrite Z.mod_add).
  done.
Qed.

Lemma days_before_year_cycle (y q : Z) :
  Datetime.days_before_year (y + 400 * q) = Datetime.days_before_year y + 146097 * q.
Proof.
  unfold Datetime.days_before_year. cbv zeta.
  replace (y + 400 * q - 1) with (y - 1 + 400 * q) by lia.
  replace ((y - 1 + 400 * q) / 4) with ((y - 1) / 4 + 100 * q)
    by (replace (400 * q) with (100 * q * 4) by lia; by rewrite Z.div_add).
  replace ((y - 1 + 400 * q) / 100) with ((y - 1) / 100 + 4 * q)
    by (replace (400 * q) with (4 * q * 100) by lia; by rewrite Z.div_add).
  replace ((y - 1 + 400 * q) / 400) with ((y - 1) / 400 + q)
    by (replace (400 * q) with (q * 400) by lia; by rewrite Z.div_add).
  lia.
Qed.

Lemma ymd2ord_cycle (y m d q : Z) :
  Datetime.ymd2ord (y + 400 * q) m d = Datetime.ymd2ord y m d + 146097 * q.
Proof.
  unfold Datetime.ymd2ord, Datetime.days_before_month.
  rewrite days_before_year_cycle, is_leap_cycle. lia.
Qed.

Lemma ord2ymd_in_cycle_shift (q n : Z) :
  Datetime.ord2ymd_in_cycle q n
  = let '(y, m, d) := Datetime.ord2ymd_in_cycle 0 n in (y + 400 * q, m, d).
Proof.
  unfold Datetime.ord2ymd_in_cycle. cbv zeta.
  repeat match goal with |- context [if ?b then _ else _] => destruct b end;
    f_equal; f_equal; lia.
Qed.

(** [ymd2ord] undoes [ord2ymd] on every day from day 1 on. *)
Lemma ymd2ord_ord2ymd (n : Z) :
  1 <= n -> let '(y, m, d) := Datetime.ord2ymd n in Datetime.ymd2ord y m d = n.
Proof.
  intros Hn.
  assert (Hdi : Datetime.di400y = 146097) by reflexivity.
  pose proof (Z.div_mod (n - 1) 146097 ltac:(lia)) as Hdm.
  pose proof (Z.mod_pos_bound (n - 1) 146097 ltac:(lia)) as Hr.
  set (q := (n - 1) / 146097) in *. set (r := (n - 1) mod 146097) in *.
  assert (Hcycle : round_trips (r + 1) = true).
  { apply (round_trips_from_spec _ 1 (r + 1) first_cycle_round_trips). lia. }
  unfold round_trips, Datetime.ord2ymd in Hcycle. cbv zeta in Hcycle.
  rewrite Hdi in Hcycle.
  replace (r + 1 - 1) with r in Hcycle by lia.
  rewrite Z.div_small, Z.mod_small in Hcycle by lia.
  unfold Datetime.ord2ymd. cbv zeta. rewrite Hdi. fold q r.
  rewrite ord2ymd_in_cycle_shift.
  destruct (Datetime.ord2ymd_in_cycle 0 r) as [[y m] d].
  apply Z.eqb_eq in Hcycle. rewrite ymd2ord_cycle. lia.
Qed.

(** Adding [h] hours moves a date by [3600 * h] seconds. *)
Lemma add_hours_seconds (h : Z) (dt later : Datetime.t) :
  Datetime.add_hours h dt = Some later ->
  seconds_of later = seconds_of dt + 3600 * h
  /\ Datetime.microsecond later = Datetime.microsecond dt.
Proof.
  unfold Datetime.add_hours. cbv zeta.
  fold (seconds_of dt).
  replace (((Datetime.ymd2ord (Datetime.year dt) (Datetime.month dt) (Datetime.day dt) * 24
             + Datetime.hour dt + h) * 60 + Datetime.minute dt) * 60 + Datetime.second dt)
    with (seconds_of dt + 3600 * h) by (unfold seconds_of; lia).
  set (total := seconds_of dt + 3600 * h).
  destruct ((0 <? total / 86400) && (total / 86400 <=? Datetime.max_ordinal)) eqn:Hrange;
    [|discriminate].
  apply andb_true_iff in Hrange as [Hpos _]. apply Z.ltb_lt in Hpos.
  pose proof (ymd2ord_ord2ymd (total / 86400) ltac:(lia)) as Hround.
  destruct (Datetime.ord2ymd (total / 86400)) as [[y m] d].
  intros [= <-]. unfold seconds_of at 1. cbn [Datetime.year Datetime.month Datetime.day
    Datetime.hour Datetime.minute Datetime.second Datetime.microsecond].
  split; [|done]. rewrite Hround.
  pose proof (Z.div_mod total 86400 ltac:(lia)).
  pose proof (Z.mod_pos_bound total 86400 ltac:(lia)).
  set (secs := total mod 86400) in *.
  pose proof (Z.div_mod secs 3600 ltac:(lia)).
  pose proof (Z.mod_pos_bound secs 3600 ltac:(lia)).
  pose proof (Z.div_mod (secs mod 3600) 60 ltac:(lia)).
  assert (secs mod 60 = (secs mod 3600) mod 60) as ->.
  { replace 3600 with (60 * 60) by lia. rewrite Z.rem_mul_r by lia.
    replace (60 * (secs / 60 mod 60)) with ((secs / 60 mod 60) * 60) by lia.
    by rewrite Z.mod_add, Z.mod_mod. }
  lia.
Qed.

(** * The claims *)

(** C1. Reassembly orders the chunk files by the integer parsed from their
    names, ascending, and writes their bytes in that order into the merged
    file. For a staging directory that holds the chunks [l] under the names
    [upload_chunk_handler] gives them, listed by [os.listdir] in any order,
    the merged file is the concatenation of a strictly index-sorted
    rearrangement of [l]; so the chunk of a smaller index always stands
    before the chunk of a larger one (index 9 before index 10). The three
    hypotheses hold of every directory of the upload root in every world
    the service can reach ([reachable_session_staged]). *)
Theorem reassemble_orders_by_index (upload_id filename : string) (l : list (Z * bytes))
    (w : world) :
  root w !! upload_id = Some (Dir (staged l)) ->
  NoDup (map fst l) ->
  (forall es, root w !! merged_name upload_id filename <> Some (Dir es)) ->
  exists ordered w',
    ChunkUpload.reassemble upload_id filename w
    = (Ok (InRoot (merged_name upload_id filename)), w')
    /\ ordered ≡ₚ l
    /\ StronglySorted key_lt ordered
    /\ root w' !! merged_name upload_id filename = Some (File (concat (map snd ordered)))
    /\ (forall x y, x ∈ l -> y ∈ l -> fst x < fst y ->
        exists before between after, ordered = before ++ x :: between ++ y :: after).
Proof.
  destruct w as [r t lg]. cbn [root]. intros Hdir Hnd Hm.
  exists (Sorted.sort l). eexists. split; [by apply reassemble_staged|].
  split; [apply sort_perm|].
  split; [by apply sort_strict|].
  split; [cbn [root]; apply lookup_insert_eq|].
  intros x y Hx Hy Hlt.
  apply sorted_places; [by apply sort_strict|by rewrite sort_perm..|done].
Qed.

Lemma reassemble_orders_by_index_witness :
  exists ordered w',
    ChunkUpload.reassemble "s1" "a.bin" lexicographic_world
    = (Ok (InRoot (merged_name "s1" "a.bin")), w')
    /\ ordered ≡ₚ lexicographic_chunks
    /\ StronglySorted key_lt ordered
    /\ root w' !! merged_name "s1" "a.bin" = Some (File (concat (map snd ordered)))
    /\ (forall x y, x ∈ lexicographic_chunks -> y ∈ lexicographic_chunks -> fst x < fst y ->
        exists before between after, ordered = before ++ x :: between ++ y :: after).
Proof.
  apply (reassemble_orders_by_index "s1" "a.bin" lexicographic_chunks lexicographic_world).
  - reflexivity.
  - apply NoDup_ListNoDup. vm_compute. repeat constructor; intros H; simpl in H; intuition discriminate.
  - intros es H. vm_compute in H. discriminate.
Defined.

Example reassemble_lexicographic_listing :
  let '(res, w') := ChunkUpload.reassemble "s1" "a.bin" lexicographic_world in
  res = Ok (InRoot "s1_a.bin")
  /\ root w' !! "s1_a.bin"%string
     = Some (File (encode "0;1;2;3;4;5;6;7;8;9;10;11;12;")).
Proof. vm_compute. split; reflexivity. Qed.

(** C2. A file cut into the chunks [contents], numbered 0..N-1 and
    uploaded to a fresh session in any order [arrival], reassembles to the
    same bytes as when uploaded in index order, namely the concatenation of
    [contents]: the merged file depends on the index-to-bytes mapping only,
    not on the order of arrival. *)
Theorem arrival_order_irrelevant (upload_id filename : string) (contents : list bytes)
    (arrival : list (Z * bytes)) (w : world) :
  root w !! upload_id = Some (Dir []) ->
  (forall es, root w !! merged_name upload_id filename <> Some (Dir es)) ->
  arrival ≡ₚ numbered contents ->
  exists w1 w1' w2 w2',
    upload_chunks upload_id arrival w = (Ok tt, w1)
    /\ ChunkUpload.reassemble upload_id filename w1
       = (Ok (InRoot (merged_name upload_id filename)), w1')
    /\ upload_chunks upload_id (numbered contents) w = (Ok tt, w2)
    /\ ChunkUpload.reassemble upload_id filename w2
       = (Ok (InRoot (merged_name upload_id filename)), w2')
    /\ root w1' !! merged_name upload_id filename = Some (File (concat contents))
    /\ root w2' !! merged_name upload_id filename = Some (File (concat contents)).
Proof.
  destruct w as [r t lg]. cbn [root]. intros Hdir Hm Hperm.
  assert (Hne : merged_name upload_id filename <> upload_id) by apply append_differs.
  assert (Hnd2 : NoDup (map fst (numbered contents))).
  { apply strictly_sorted_keys_nodup, numbered_from_sorted. }
  assert (Hnd1 : NoDup (map fst arrival)).
  { assert (Hp : map fst arrival ≡ₚ map fst (numbered contents)) by by apply Permutation_map.
    by rewrite Hp. }
  assert (Hmerge : forall chunks lg0,
    chunks ≡ₚ numbered contents ->
    NoDup (map fst chunks) ->
    exists w',
      ChunkUpload.reassemble upload_id filename
        (World (<[upload_id := Dir (staged chunks)]> r) t lg0)
      = (Ok (InRoot (merged_name upload_id filename)), w')
      /\ root w' !! merged_name upload_id filename = Some (File (concat contents))).
  { intros chunks lg0 Hp Hnd. eexists. split.
    - apply reassemble_staged; [by rewrite lookup_insert_eq|done|].
      intros es. rewrite lookup_insert_ne by done. apply Hm.
    - cbn [root]. rewrite lookup_insert_eq.
      assert (Sorted.sort chunks = numbered contents) as ->.
      { apply strictly_sorted_unique;
          [by apply sort_strict | apply numbered_from_sorted | by rewrite sort_perm]. }
      unfold numbered. by rewrite numbered_from_contents. }
  destruct (upload_chunks_staged upload_id arrival [] r t lg Hdir Hnd1) as [lg1 Hrun1].
  destruct (upload_chunks_staged upload_id (numbered contents) [] r t lg Hdir Hnd2)
    as [lg2 Hrun2].
  simpl in Hrun1, Hrun2.
  destruct (Hmerge arrival lg1 Hperm Hnd1) as (w1' & Hre1 & Hfile1).
  destruct (Hmerge (numbered contents) lg2 ltac:(done) Hnd2) as (w2' & Hre2 & Hfile2).
  eauto 12.
Qed.

Lemma arrival_order_irrelevant_witness :
  exists w1 w1' w2 w2',
    upload_chunks "s1" [(2, encode "!"); (0, encode "hello "); (1, encode "world")] fresh_session
    = (Ok tt, w1)
    /\ ChunkUpload.reassemble "s1" "a.txt" w1 = (Ok (InRoot (merged_name "s1" "a.txt")), w1')
    /\ upload_chunks "s1" (numbered hello_world_chunks) fresh_session = (Ok tt, w2)
    /\ ChunkUpload.reassemble "s1" "a.txt" w2 = (Ok (InRoot (merged_name "s1" "a.txt")), w2')
    /\ root w1' !! merged_name "s1" "a.txt" = Some (File (concat hello_world_chunks))
    /\ root w2' !! merged_name "s1" "a.txt" = Some (File (concat hello_world_chunks)).
Proof.
  apply (arrival_order_irrelevant "s1" "a.txt" hello_world_chunks
           [(2, encode "!"); (0, encode "hello "); (1, encode "world")] fresh_session).
  - reflexivity.
  - intros es H. vm_compute in H. discriminate.
  - apply (Permutation_cons_append [(0, encode "hello "); (1, encode "world")] (2, encode "!")).
Defined.

(** C3. [get_signature_key] is the four-step HMAC-SHA256 chain of the
    specification (kDate from "AWS4" + secret and the date stamp, then
    kRegion, kService, and the signing key from "aws4_request"); it is a
    function of its four arguments alone: it takes no world, reads no clock,
    and equal arguments give equal keys, of 32 bytes. *)
Theorem get_signature_key_is_hmac_chain (key date_stamp region service : string) :
  S3.get_signature_key key date_stamp region service
  = HMAC (HMAC (HMAC (HMAC (encode ("AWS4" +:+ key)) date_stamp) region) service)
         "aws4_request"
  /\ S3.get_signature_key key date_stamp region service
     = derive_signing_key key date_stamp region service
  /\ length (S3.get_signature_key key date_stamp region service) = 32%nat
  /\ (forall key' date_stamp' region' service',
        key' = key -> date_stamp' = date_stamp -> region' = region -> service' = service ->
        S3.get_signature_key key' date_stamp' region' service'
        = S3.get_signature_key key date_stamp region service).
Proof.
  split; [unfold S3.get_signature_key, HMAC; reflexivity|].
  split; [unfold S3.get_signature_key, derive_signing_key, HMAC; reflexivity|].
  split; [apply hmac_length|].
  by intros ???? -> -> -> ->.
Qed.

(** C4. The multipart upload reads the clock once; the policy it sends
    expires one hour (3600 seconds of the calendar) after that reading,
    binds exactly bucket, key, algorithm, credential and date, and is sent
    base64-encoded; the signature is the hex HMAC-SHA256 of the base64 text
    (not of the JSON) under the key derived from the date stamp of the same
    reading, which is also the reading the policy's x-amz-date and the
    form's x-amz-date carry. *)
Theorem multipart_policy_and_signature (E : env) (self : S3.S3Client)
    (bucket key name : string) (data : bytes) (expires : Datetime.t) (w : world) :
  root w !! name = Some (File data) ->
  Datetime.add_hours 1 (clock E (ticks w)) = Some expires ->
  exists res policy_base64 signature,
    S3.upload_file_multipart E self bucket key (InRoot name) w
    = (res,
       World (root w) (S (ticks w))
         (log w ++
          [EvRequest
             (Http.Request "POST" ("https://" +:+ bucket +:+ "." +:+ S3.endpoint self +:+ "/") []
                (Http.Form
                   [ Http.Text "key" key;
                     Http.Text "x-amz-algorithm" "AWS4-HMAC-SHA256";
                     Http.Text "x-amz-credential" (credential_of self (clock E (ticks w)));
                     Http.Text "x-amz-date" (Datetime.amz_date (clock E (ticks w)));
                     Http.Text "policy" policy_base64;
                     Http.Text "x-amz-signature" signature;
                     Http.Upload "file" data name "application/octet-stream" ]))]))
    /\ policy_base64
       = decode (Base64.b64encode (encode (Json.dumps
           (Json.Obj
              [ ("expiration", Json.Str (Datetime.iso_z expires));
                ("conditions",
                  Json.Arr
                    [ Json.Obj [("bucket", Json.Str bucket)];
                      Json.Obj [("key", Json.Str key)];
                      Json.Obj [("x-amz-algorithm", Json.Str "AWS4-HMAC-SHA256")];
                      Json.Obj [("x-amz-credential",
                                 Json.Str (credential_of self (clock E (ticks w))))];
                      Json.Obj [("x-amz-date",
                                 Json.Str (Datetime.amz_date (clock E (ticks w))))] ]) ]))))
    /\ signature
       = Hashlib.hex
           (Hmac.digest
              (S3.get_signature_key (S3.secret_key self)
                 (Datetime.date_stamp (clock E (ticks w))) (S3.region self) "s3")
              (encode policy_base64))
    /\ (policy_base64, signature)
       = build_policy_document self bucket key (clock E (ticks w)) expires
    /\ seconds_of expires = seconds_of (clock E (ticks w)) + 3600.
Proof.
  destruct w as [r t lg]. cbn [root ticks log]. intros Hfile Hexp.
  rewrite (upload_file_multipart_run E self bucket key name data expires r t lg Hfile Hexp).
  unfold multipart_request at 2.
  rewrite (build_policy_document_unfold self bucket key (clock E t) expires).
  cbn [fst snd]. unfold policy_of.
  eexists _, _, _. split; [reflexivity|]. split; [reflexivity|]. split; [reflexivity|].
  split; [reflexivity|].
  destruct (add_hours_seconds 1 _ _ Hexp) as [Hsec _]. lia.
Qed.

Lemma multipart_policy_and_signature_witness :
  exists res policy_base64 signature,
    S3.upload_file_multipart (example_env (Http.Response 200 "")) example_client
      "bkt" "videos/a.txt" (InRoot "s1_a.txt") merged_only
    = (res,
       World (root merged_only) (S (ticks merged_only))
         (log merged_only ++
          [EvRequest
             (Http.Request "POST"
                ("https://" +:+ "bkt" +:+ "." +:+ S3.endpoint example_client +:+ "/") []
                (Http.Form
                   [ Http.Text "key" "videos/a.txt";
                     Http.Text "x-amz-algorithm" "AWS4-HMAC-SHA256";
                     Http.Text "x-amz-credential"
                       (credential_of example_client
                          (clock (example_env (Http.Response 200 "")) (ticks merged_only)));
                     Http.Text "x-amz-date"
                       (Datetime.amz_date
                          (clock (example_env (Http.Response 200 "")) (ticks merged_only)));
                     Http.Text "policy" policy_base64;
                     Http.Text "x-amz-signature" signature;
                     Http.Upload "file" (encode "hello world") "s1_a.txt"
                       "application/octet-stream" ]))]))
    /\ policy_base64
       = decode (Base64.b64encode (encode (Json.dumps
           (Json.Obj
              [ ("expiration", Json.Str (Datetime.iso_z (Datetime.Make 2024 2 29 0 30 0 0)));
                ("conditions",
                  Json.Arr
                    [ Json.Obj [("bucket", Json.Str "bkt")];
                      Json.Obj [("key", Json.Str "videos/a.txt")];
                      Json.Obj [("x-amz-algorithm", Json.Str "AWS4-HMAC-SHA256")];
                      Json.Obj [("x-amz-credential",
                                 Json.Str (credential_of example_client
                                   (clock (example_env (Http.Response 200 ""))
                                      (ticks merged_only))))];
                      Json.Obj [("x-amz-date",
                                 Json.Str (Datetime.amz_date
                                   (clock (example_env (Http.Response 200 ""))
                                      (ticks merged_only))))] ]) ]))))
    /\ signature
       = Hashlib.hex
           (Hmac.digest
              (S3.get_signature_key (S3.secret_key example_client)
                 (Datetime.date_stamp
                    (clock (example_env (Http.Response 200 "")) (ticks merged_only)))
                 (S3.region example_client) "s3")
              (encode policy_base64))
    /\ (policy_base64, signature)
       = build_policy_document example_client "bkt" "videos/a.txt"
           (clock (example_env (Http.Response 200 "")) (ticks merged_only))
           (Datetime.Make 2024 2 29 0 30 0 0)
    /\ seconds_of (Datetime.Make 2024 2 29 0 30 0 0)
       = seconds_of (clock (example_env (Http.Response 200 "")) (ticks merged_only)) + 3600.
Proof.
  apply (multipart_policy_and_signature (example_env (Http.Response 200 "")) example_client
           "bkt" "videos/a.txt" "s1_a.txt" (encode "hello world")
           (Datetime.Make 2024 2 29 0 30 0 0) merged_only).
  - reflexivity.
  - vm_compute. reflexivity.
Defined.

(** C5. For a session id with no staging directory, [complete] returns the
    403 "Invalid upload id" result and the world is left as it was: the
    upload root and the clock are untouched and the log gains no event, so
    no request is sent and nothing is written. *)
Theorem complete_unknown_session (E : env) (settings : Config.Settings) (S3_KEY : string)
    (upload_id filename : string) (w : world) :
  root w !! upload_id = None ->
  exists v w',
    ChunkUpload.complete_upload_handler E settings S3_KEY upload_id filename w = (Ok v, w')
    /\ v = PExc (HTTPExeption 403 [("content", "Invalid upload id")])
    /\ root w' = root w /\ ticks w' = ticks w /\ log w' = log w.
Proof.
  intros Hr. exists (PExc (HTTPExeption 403 [("content", "Invalid upload id")])), w.
  split; [by apply complete_unknown|done].
Qed.

Lemma complete_unknown_session_witness :
  exists v w',
    ChunkUpload.complete_upload_handler (example_env Http.Unreachable) example_settings
      "videos" "s2" "a.txt" fresh_session = (Ok v, w')
    /\ v = PExc (HTTPExeption 403 [("content", "Invalid upload id")])
    /\ root w' = root fresh_session /\ ticks w' = ticks fresh_session
    /\ log w' = log fresh_session.
Proof.
  apply (complete_unknown_session (example_env Http.Unreachable) example_settings
           "videos" "s2" "a.txt" fresh_session).
  reflexivity.
Defined.

(** C6. Counter-evidence: when the backend rejects the transfer, the
    handler hands back the 500 object at line 84, before the [os.remove] of
    line 86 that the success path reaches. The staging directory is gone,
    but the merged file is still in the upload root, and the storage error
    is a returned value ([Ok]), not a raised one. *)
Theorem failed_transfer_leaves_merged_file (E : env) (settings : Config.Settings)
    (S3_KEY upload_id filename : string) (l : list (Z * bytes)) (w : world)
    (expires : Datetime.t) (status : Z) (text : string) :
  root w !! upload_id = Some (Dir (staged l)) ->
  NoDup (map fst l) ->
  (forall es, root w !! merged_name upload_id filename <> Some (Dir es)) ->
  Datetime.add_hours 1 (clock E (ticks w)) = Some expires ->
  (forall req, backend E req = Http.Response status text) ->
  status <> 200 -> status <> 204 ->
  exists w',
    ChunkUpload.complete_upload_handler E settings S3_KEY upload_id filename w
    = (Ok (PExc (HTTPExeption 500 [("detail", "Error uploading merged file to S3")])), w')
    /\ root w' !! upload_id = None
    /\ root w' !! merged_name upload_id filename
       = Some (File (concat (map snd (Sorted.sort l)))).
Proof.
  destruct w as [r t lg]. cbn [root ticks]. intros Hdir Hnd Hm Hexp Hreply H200 H204.
  pose proof (upload_file_multipart_run E (Config.s3_client settings)
                (Config.S3_BUCKET settings) (S3_KEY +:+ "/" +:+ filename)
                (merged_name upload_id filename) _ expires _ t
                (log_at_transfer upload_id filename l lg)
                (merged_at_transfer upload_id filename l r) Hexp) as Hrun.
  rewrite Hreply in Hrun. unfold outcome_of in Hrun.
  rewrite bool_decide_eq_false_2 in Hrun by (intros [?|?]; done).
  rewrite (complete_staged E settings S3_KEY upload_id filename l r t lg Hdir Hnd Hm _ _ Hrun).
  eexists. split; [reflexivity|]. cbn [root]. split.
  - unfold root_at_transfer. apply lookup_delete_eq.
  - apply merged_at_transfer.
Qed.

Lemma failed_transfer_leaves_merged_file_witness :
  exists w',
    ChunkUpload.complete_upload_handler (example_env (Http.Response 500 "InternalError"))
      example_settings "videos" "s1" "a.txt" staged_session
    = (Ok (PExc (HTTPExeption 500 [("detail", "Error uploading merged file to S3")])), w')
    /\ root w' !! "s1"%string = None
    /\ root w' !! merged_name "s1" "a.txt"
       = Some (File (concat (map snd (Sorted.sort two_chunks)))).
Proof.
  apply (failed_transfer_leaves_merged_file (example_env (Http.Response 500 "InternalError"))
           example_settings "videos" "s1" "a.txt" two_chunks staged_session
           (Datetime.Make 2024 2 29 0 30 0 0) 500 "InternalError").
  - reflexivity.
  - apply NoDup_ListNoDup. repeat constructor; intros H; simpl in H; intuition discriminate.
  - intros es H. vm_compute in H. discriminate.
  - vm_compute. reflexivity.
  - reflexivity.
  - discriminate.
  - discriminate.
Defined.

(** The same run, evaluated: the answer, and what is left in the upload
    root. *)
Example failed_transfer_run :
  let '(res, w') :=
    ChunkUpload.complete_upload_handler (example_env (Http.Response 500 "InternalError"))
      example_settings "videos" "s1" "a.txt" staged_session in
  res = Ok (PExc (HTTPExeption 500 [("detail", "Error uploading merged file to S3")]))
  /\ map_to_list (root w') = [("s1_a.txt"%string, File (encode "hello world"))].
Proof. vm_compute. split; reflexivity. Qed.

(** C7. A chunk upload for a session id with no staging directory writes
    nothing; but what the handler produces is the [HTTPExeption] object
    handed back through [return], a normal return value ([Ok]), where the
    claim asks for a failure result ([Raise]). *)
Theorem upload_chunk_unknown_session_returns_exception_object
    (upload_id : string) (chunk_index : Z) (file : UploadFile) (w : world) :
  root w !! upload_id = None ->
  ChunkUpload.upload_chunk_handler upload_id chunk_index file w
  = (Ok (PExc (HTTPExeption 403 [("detail", "Invalid upload id")])), w)
  /\ (forall e w', ChunkUpload.upload_chunk_handler upload_id chunk_index file w
                   <> (Raise e, w')).
Proof.
  intros Hr. rewrite (upload_chunk_unknown _ _ _ _ Hr). split; [done|]. by intros e w'.
Qed.

Lemma upload_chunk_unknown_session_returns_exception_object_witness :
  ChunkUpload.upload_chunk_handler "s2" 0 (Upload "blob" (encode "data")) fresh_session
  = (Ok (PExc (HTTPExeption 403 [("detail", "Invalid upload id")])), fresh_session)
  /\ (forall e w', ChunkUpload.upload_chunk_handler "s2" 0 (Upload "blob" (encode "data"))
                     fresh_session <> (Raise e, w')).
Proof.
  apply (upload_chunk_unknown_session_returns_exception_object "s2" 0
           (Upload "blob" (encode "data")) fresh_session).
  reflexivity.
Defined.

(** C8. The single-shot upload hashes the payload with SHA-256, signs, and
    sends one PUT to https://{bucket}.{endpoint}/{key} with the payload as
    body. It succeeds exactly when the answer has status 200 or 204; on any
    other status it raises [S3ClientException] with that status and the
    whole body text. *)
Theorem put_object_outcome (E : env) (self : S3.S3Client) (bucket key : string)
    (data : bytes) (w : world) :
  exists res req,
    S3.upload_file E self bucket key None (Some data) w
    = (res, World (root w) (S (ticks w)) (log w ++ [EvRequest req]))
    /\ Http.method req = "PUT"%string
    /\ Http.url req = "https://" +:+ bucket +:+ "." +:+ S3.endpoint self +:+ "/" +:+ key
    /\ Http.body req = Http.Data data
    /\ Http.headers req
       = [ ("Authorization",
            authorization_of self (clock E (ticks w)) "PUT" bucket key
              (Hashlib.hex (Hashlib.sha256 data)));
           ("x-amz-date", Datetime.amz_date (clock E (ticks w)));
           ("x-amz-content-sha256", Hashlib.hex (Hashlib.sha256 data)) ]
    /\ (res = Ok tt <->
        exists status text,
          backend E req = Http.Response status text /\ (status = 200 \/ status = 204))
    /\ (forall status text,
          backend E req = Http.Response status text -> status <> 200 -> status <> 204 ->
          res = Raise (S3ClientException status text)).
Proof.
  destruct w as [r t lg]. cbn [root ticks log].
  exists (outcome_of (backend E (put_request self (clock E t) bucket key data))),
    (put_request self (clock E t) bucket key data).
  split; [apply upload_file_run|].
  split; [reflexivity|]. split; [reflexivity|]. split; [reflexivity|].
  split; [reflexivity|].
  unfold outcome_of.
  destruct (backend E (put_request self (clock E t) bucket key data)) as [status text|].
  - destruct (decide (status = 200 \/ status = 204)) as [Hs|Hs].
    + rewrite bool_decide_eq_true_2 by done. split.
      * split; [intros _; by exists status, text | done].
      * intros status' text' [= -> ->] H200 H204. by destruct Hs.
    + rewrite bool_decide_eq_false_2 by done. split.
      * split; [done|]. intros (status' & text' & [= -> ->] & Hs'). by destruct Hs.
      * by intros status' text' [= -> ->] _ _.
  - split; [split; [done|]; by intros (? & ? & ? & _) | by intros].
Qed.

(** C9. The handler of POST /upload/file/ never uploads: the call it makes
    passes the keyword [file_bytes], which [upload_file_multipart] does not
    take, so the call raises [TypeError] before any request is built, and
    the handler answers 500 "S3 upload failed" for every file and every
    backend. *)
Theorem upload_file_handler_always_fails (E : env) (settings : Config.Settings)
    (file : UploadFile) (w : world) :
  FileUpload.upload_file E settings file w
  = (Raise (HTTPExeption 500 [("detail", "S3 upload failed")]), w).
Proof.
  unfold FileUpload.upload_file, try_except.
  rewrite call_with_file_bytes_keyword. reflexivity.
Qed.

(** C10. On a staged session the staging directory is removed before the
    transfer: every request the handler sends comes after the [rmtree]
    event in the log. Whatever the clock and the backend do (acceptance,
    rejection, no answer at all), the handler returns with the staging
    directory gone, and from then on [complete] and a chunk upload for the
    same id both take the "Invalid upload id" branch and change nothing.
    The three hypotheses hold of every directory of the upload root in
    every world the service can reach ([reachable_session_staged]). *)
Theorem staging_removed_before_transfer (E : env) (settings : Config.Settings)
    (S3_KEY upload_id filename : string) (l : list (Z * bytes)) (w : world) :
  root w !! upload_id = Some (Dir (staged l)) ->
  NoDup (map fst l) ->
  (forall es, root w !! merged_name upload_id filename <> Some (Dir es)) ->
  exists v w' before after,
    ChunkUpload.complete_upload_handler E settings S3_KEY upload_id filename w = (Ok v, w')
    /\ root w' !! upload_id = None
    /\ log w' = log w ++ before ++ EvRmtree upload_id :: after
    /\ (forall req, EvRequest req ∉ before)
    /\ (forall E' filename',
          ChunkUpload.complete_upload_handler E' settings S3_KEY upload_id filename' w'
          = (Ok (PExc (HTTPExeption 403 [("content", "Invalid upload id")])), w'))
    /\ (forall chunk_index file,
          ChunkUpload.upload_chunk_handler upload_id chunk_index file w'
          = (Ok (PExc (HTTPExeption 403 [("detail", "Invalid upload id")])), w')).
Proof.
  destruct w as [r t lg]. cbn [root log]. intros Hdir Hnd Hm.
  destruct (transfer_frame E settings S3_KEY upload_id filename l r t lg)
    as (res & evs & Htransfer & _).
  rewrite (complete_staged E settings S3_KEY upload_id filename l r t lg Hdir Hnd Hm
             res evs Htransfer).
  assert (Hgone : root_at_transfer upload_id filename l r !! upload_id = None).
  { unfold root_at_transfer. apply lookup_delete_eq. }
  assert (Hbefore : forall req,
    EvRequest req ∉ EvOpenWrite (InRoot (merged_name upload_id filename))
                    :: copy_events (InRoot (merged_name upload_id filename)) (Sorted.sort l)).
  { intros req Hin. apply elem_of_cons in Hin as [Hin|Hin]; [discriminate|].
    by apply copy_events_no_request in Hin. }
  destruct res as [[]|e].
  - eexists _, _,
      (EvOpenWrite (InRoot (merged_name upload_id filename))
       :: copy_events (InRoot (merged_name upload_id filename)) (Sorted.sort l)),
      (evs ++ [EvRemove (merged_name upload_id filename)]).
    split; [reflexivity|]. cbn [root log].
    assert (Hgone' : delete (merged_name upload_id filename)
                       (root_at_transfer upload_id filename l r) !! upload_id = None).
    { rewrite lookup_delete_ne by apply append_differs. exact Hgone. }
    split; [exact Hgone'|].
    split; [apply log_at_transfer_split|].
    split; [exact Hbefore|].
    split; [intros; by apply complete_unknown | intros; by apply upload_chunk_unknown].
  - eexists _, _,
      (EvOpenWrite (InRoot (merged_name upload_id filename))
       :: copy_events (InRoot (merged_name upload_id filename)) (Sorted.sort l)),
      evs.
    split; [reflexivity|]. cbn [root log].
    split; [exact Hgone|].
    split; [apply log_at_transfer_split|].
    split; [exact Hbefore|].
    split; [intros; by apply complete_unknown | intros; by apply upload_chunk_unknown].
Qed.

Lemma staging_removed_before_transfer_witness :
  exists v w' before after,
    ChunkUpload.complete_upload_handler (example_env Http.Unreachable) example_settings
      "videos" "s1" "a.txt" staged_session = (Ok v, w')
    /\ root w' !! "s1"%string = None
    /\ log w' = log staged_session ++ before ++ EvRmtree "s1" :: after
    /\ (forall req, EvRequest req ∉ before)
    /\ (forall E' filename',
          ChunkUpload.complete_upload_handler E' example_settings "videos" "s1" filename' w'
          = (Ok (PExc (HTTPExeption 403 [("content", "Invalid upload id")])), w'))
    /\ (forall chunk_index file,
          ChunkUpload.upload_chunk_handler "s1" chunk_index file w'
          = (Ok (PExc (HTTPExeption 403 [("detail", "Invalid upload id")])), w')).
Proof.
  apply (staging_removed_before_transfer (example_env Http.Unreachable) example_settings
           "videos" "s1" "a.txt" two_chunks staged_session).
  - reflexivity.
  - apply NoDup_ListNoDup. repeat constructor; intros H; simpl in H; intuition discriminate.
  - intros es H. vm_compute in H. discriminate.
Defined.

(** * Further properties of the code *)

(** ** Chunk uploads *)

(** X1. A chunk upload to the id that [init_upload_handler] has just
    returned succeeds: after the two calls the staging directory of that id
    holds exactly this chunk, under the name of its index, and every other
    entry of the upload root is as before. The declared [filename] and
    [file_size] play no part. *)
Theorem init_then_chunk_upload (uuid4 : Z) (filename : string) (file_size : Z)
    (chunk_index : Z) (file : UploadFile) (w : world) :
  root w !! Uuid.to_str uuid4 = None ->
  exists w1 w2,
    ChunkUpload.init_upload_handler uuid4 filename file_size w
    = (Ok (PDict [("upload_id", Uuid.to_str uuid4)]), w1)
    /\ ChunkUpload.upload_chunk_handler (Uuid.to_str uuid4) chunk_index file w1
       = (Ok (PDict [("detail", "chunk uploaded")]), w2)
    /\ root w2 !! Uuid.to_str uuid4
       = Some (Dir [("chunk_" +:+ Str.of_int chunk_index, content file)])
    /\ (forall name, name <> Uuid.to_str uuid4 -> root w2 !! name = root w !! name)
    /\ (forall filename' file_size',
          ChunkUpload.init_upload_handler uuid4 filename' file_size' w
          = ChunkUpload.init_upload_handler uuid4 filename file_size w).
Proof.
  destruct w as [r t lg]. cbn [root]. intros Hfresh.
  assert (Hinit : forall f s,
    ChunkUpload.init_upload_handler uuid4 f s (World r t lg)
    = (Ok (PDict [("upload_id", Uuid.to_str uuid4)]),
       World (<[Uuid.to_str uuid4 := Dir []]> r) t (lg ++ [EvMakedirs (Uuid.to_str uuid4)]))).
  { intros f s. unfold ChunkUpload.init_upload_handler, Os.makedirs, bind, get_root, emit,
      set_root, ret. cbn [root ticks log]. by rewrite Hfresh. }
  eexists _, _. split; [apply Hinit|]. split.
  - apply (upload_chunk_stores _ _ _ []). apply lookup_insert_eq.
  - cbn [root Os.set_entry]. rewrite insert_insert_eq, lookup_insert_eq.
    split; [done|]. split.
    + intros name Hne. by rewrite lookup_insert_ne.
    + intros f s. by rewrite !Hinit.
Qed.

Lemma init_then_chunk_upload_witness :
  exists w1 w2,
    ChunkUpload.init_upload_handler 161 "a.txt" 30 fresh_session
    = (Ok (PDict [("upload_id", Uuid.to_str 161)]), w1)
    /\ ChunkUpload.upload_chunk_handler (Uuid.to_str 161) 7 (Upload "blob" (encode "data")) w1
       = (Ok (PDict [("detail", "chunk uploaded")]), w2)
    /\ root w2 !! Uuid.to_str 161
       = Some (Dir [("chunk_" +:+ Str.of_int 7, content (Upload "blob" (encode "data")))])
    /\ (forall name, name <> Uuid.to_str 161 -> root w2 !! name = root fresh_session !! name)
    /\ (forall filename' file_size',
          ChunkUpload.init_upload_handler 161 filename' file_size' fresh_session
          = ChunkUpload.init_upload_handler 161 "a.txt" 30 fresh_session).
Proof.
  apply (init_then_chunk_upload 161 "a.txt" 30 7 (Upload "blob" (encode "data"))
           fresh_session).
  vm_compute. reflexivity.
Defined.

(** X2. On an existing session a chunk upload stores the file's bytes
    under the name of its index: reading that entry back gives exactly the
    uploaded bytes; every other entry of the staging directory, every other
    entry of the upload root, and the clock are as before. *)
Theorem chunk_upload_read_back (upload_id : string) (chunk_index : Z) (file : UploadFile)
    (es : list (string * bytes)) (w : world) :
  root w !! upload_id = Some (Dir es) ->
  exists w' es',
    ChunkUpload.upload_chunk_handler upload_id chunk_index file w
    = (Ok (PDict [("detail", "chunk uploaded")]), w')
    /\ root w' !! upload_id = Some (Dir es')
    /\ Os.open_rb (InDir upload_id (chunk_name chunk_index)) w' = (Ok (content file), w')
    /\ (forall name, name <> chunk_name chunk_index ->
        Os.lookup_entry name es' = Os.lookup_entry name es)
    /\ (forall other, other <> upload_id -> root w' !! other = root w !! other)
    /\ ticks w' = ticks w.
Proof.
  destruct w as [r t lg]. cbn [root ticks]. intros Hdir.
  eexists _, (Os.set_entry (chunk_name chunk_index) (content file) es).
  split; [by apply upload_chunk_stores|]. cbn [root ticks].
  split; [apply lookup_insert_eq|]. split.
  - apply (open_rb_in_dir _ _ (Os.set_entry (chunk_name chunk_index) (content file) es));
      [apply lookup_insert_eq | apply lookup_set_entry_eq].
  - split; [intros name Hne; by apply lookup_set_entry_ne|].
    split; [|done]. intros other Hne. by rewrite lookup_insert_ne.
Qed.

Lemma chunk_upload_read_back_witness :
  exists w' es',
    ChunkUpload.upload_chunk_handler "s1" 1 (Upload "blob" (encode "WORLD")) staged_session
    = (Ok (PDict [("detail", "chunk uploaded")]), w')
    /\ root w' !! "s1"%string = Some (Dir es')
    /\ Os.open_rb (InDir "s1" (chunk_name 1)) w'
       = (Ok (content (Upload "blob" (encode "WORLD"))), w')
    /\ (forall name, name <> chunk_name 1 ->
        Os.lookup_entry name es' = Os.lookup_entry name (staged two_chunks))
    /\ (forall other, other <> "s1"%string -> root w' !! other = root staged_session !! other)
    /\ ticks w' = ticks staged_session.
Proof.
  apply (chunk_upload_read_back "s1" 1 (Upload "blob" (encode "WORLD")) (staged two_chunks)
           staged_session).
  reflexivity.
Defined.

(** X3. Last write wins: when a chunk index is uploaded twice to a session,
    the upload root ends as if only the second upload had happened. *)
Theorem chunk_upload_last_write_wins (upload_id : string) (chunk_index : Z)
    (first second : UploadFile) (es : list (string * bytes)) (w : world) :
  root w !! upload_id = Some (Dir es) ->
  root (snd (ChunkUpload.upload_chunk_handler upload_id chunk_index second
               (snd (ChunkUpload.upload_chunk_handler upload_id chunk_index first w))))
  = root (snd (ChunkUpload.upload_chunk_handler upload_id chunk_index second w)).
Proof.
  destruct w as [r t lg]. cbn [root]. intros Hdir.
  rewrite (upload_chunk_stores upload_id chunk_index first es r t lg Hdir). cbn [snd].
  rewrite (upload_chunk_stores upload_id chunk_index second
             (Os.set_entry (chunk_name chunk_index) (content first) es)).
  2: apply lookup_insert_eq.
  rewrite (upload_chunk_stores upload_id chunk_index second es r t lg Hdir). cbn [snd root].
  by rewrite insert_insert_eq, set_entry_twice.
Qed.

Lemma chunk_upload_last_write_wins_witness :
  root (snd (ChunkUpload.upload_chunk_handler "s1" 0 (Upload "blob" (encode "second"))
               (snd (ChunkUpload.upload_chunk_handler "s1" 0 (Upload "blob" (encode "first"))
                       fresh_session))))
  = root (snd (ChunkUpload.upload_chunk_handler "s1" 0 (Upload "blob" (encode "second"))
                 fresh_session)).
Proof.
  apply (chunk_upload_last_write_wins "s1" 0 (Upload "blob" (encode "first"))
           (Upload "blob" (encode "second")) [] fresh_session).
  reflexivity.
Defined.

(** X4. [upload_chunk_handler] never raises: [except Exception] turns every
    failure into a returned 403 object. When the id names no directory (no
    entry at all, or a regular file such as a merged file left behind), the
    world is left exactly as it was. *)
Theorem chunk_upload_never_raises (upload_id : string) (chunk_index : Z)
    (file : UploadFile) (w : world) :
  exists v w',
    ChunkUpload.upload_chunk_handler upload_id chunk_index file w = (Ok v, w')
    /\ ((forall es, root w !! upload_id <> Some (Dir es)) ->
        w' = w
        /\ (v = PExc (HTTPExeption 403 [("detail", "Invalid upload id")])
            \/ v = PExc (HTTPExeption 403 [("detail", "Error uploading chunk")]))).
Proof.
  destruct (root w !! upload_id) as [[data|es]|] eqn:Hl.
  - eexists _, _. split; [by apply (upload_chunk_on_file _ _ _ data)|]. auto.
  - destruct w as [r t lg]. cbn [root] in Hl.
    eexists _, _. split; [by apply (upload_chunk_stores _ _ _ es)|].
    intros Hno. by destruct (Hno es).
  - eexists _, _. split; [by apply upload_chunk_unknown|]. auto.
Qed.

Lemma blocks_bounded (blk : nat) :
  forall n src, Forall (fun b : bytes => (0 < length b <= blk)%nat) (blocks blk n src).
Proof.
  induction n as [|n IH]; intros src; simpl; [constructor|].
  destruct (take blk src) as [|x xs] eqn:Htake; constructor; [|apply IH].
  rewrite <- Htake, length_take. simpl.
  assert (0 < length (take blk src))%nat by (rewrite Htake; simpl; lia).
  rewrite length_take in *. lia.
Qed.

Lemma block_size_le : Z.of_nat block_size <= 1024 * 1024.
Proof. unfold block_size. lia. Qed.

Lemma written_store_events (p : path) (bs : list bytes) :
  written (EvOpenWrite p :: map (EvWrite p) bs) = bs.
Proof. unfold written. simpl. induction bs as [|b bs IH]; simpl; [done | by rewrite IH]. Qed.

(** X5. A chunk is stored in bounded pieces: the handler's writes are
    non-empty blocks of at most [1024 * 1024] bytes each, and put end to end
    they are exactly the uploaded bytes, whatever their number. *)
Theorem chunk_upload_writes_bounded_blocks (upload_id : string) (chunk_index : Z)
    (file : UploadFile) (es : list (string * bytes)) (w : world) :
  root w !! upload_id = Some (Dir es) ->
  exists w' evs,
    snd (ChunkUpload.upload_chunk_handler upload_id chunk_index file w) = w'
    /\ log w' = log w ++ evs
    /\ concat (written evs) = content file
    /\ Forall (fun data : bytes => 0 < Z.of_nat (length data) <= 1024 * 1024)
              (written evs)
    /\ requests evs = [].
Proof.
  destruct w as [r t lg]. cbn [root log]. intros Hdir.
  rewrite (upload_chunk_stores upload_id chunk_index file es r t lg Hdir). cbn [snd].
  eexists _, _. split; [reflexivity|]. cbn [log]. split; [reflexivity|].
  unfold store_events. rewrite written_store_events.
  split; [apply blocks_concat; [apply block_size_pos | done]|].
  split.
  { eapply Forall_impl; [apply (blocks_bounded block_size)|].
    intros data. cbv beta. pose proof block_size_le as Hle. lia. }
  unfold requests. simpl.
  induction (blocks block_size (length (content file)) (content file)); [done|by simpl].
Qed.

Lemma chunk_upload_writes_bounded_blocks_witness :
  exists w' evs,
    snd (ChunkUpload.upload_chunk_handler "s1" 0 (Upload "blob" (encode "data")) fresh_session)
    = w'
    /\ log w' = log fresh_session ++ evs
    /\ concat (written evs) = content (Upload "blob" (encode "data"))
    /\ Forall (fun data : bytes => 0 < Z.of_nat (length data) <= 1024 * 1024)
              (written evs)
    /\ requests evs = [].
Proof.
  apply (chunk_upload_writes_bounded_blocks "s1" 0 (Upload "blob" (encode "data")) []
           fresh_session).
  reflexivity.
Defined.

(** X6. The index is recovered from the file name: the key that
    [complete_upload_handler] computes from the name [upload_chunk_handler]
    gives the chunk of index [i] (negative or not) is [i] again, without
    raising and without effect, and different indices get different names. *)
Theorem chunk_name_round_trip (i : Z) (w : world) :
  ChunkUpload.chunk_key ("chunk_" +:+ Str.of_int i) w = (Ok i, w)
  /\ Str.startswith "chunk_" ("chunk_" +:+ Str.of_int i) = true
  /\ (forall j, "chunk_" +:+ Str.of_int j = "chunk_" +:+ Str.of_int i -> j = i).
Proof.
  split; [apply chunk_key_chunk_name|]. split; [apply startswith_chunk_name|].
  intros j. apply chunk_name_inj.
Qed.

(** ** Completing an upload *)

Lemma requests_app (l1 l2 : list event) : requests (l1 ++ l2) = requests l1 ++ requests l2.
Proof. unfold requests. apply omap_app. Qed.

Lemma requests_writes (p : path) (bs : list bytes) : requests (map (EvWrite p) bs) = [].
Proof. induction bs as [|b bs IH]; [done | exact IH]. Qed.

Lemma requests_copy_events (p : path) (items : list (Z * bytes)) :
  requests (copy_events p items) = [].
Proof.
  unfold copy_events. induction items as [|c items IH]; [done|].
  cbn [map concat]. by rewrite requests_app, requests_writes, IH.
Qed.

Lemma requests_store_events (p : path) (data : bytes) : requests (store_events p data) = [].
Proof. unfold store_events. apply (requests_writes p). Qed.

Lemma requests_at_transfer (p : path) (items : list (Z * bytes)) (upload_id : string)
    (evs : list event) :
  requests ((EvOpenWrite p :: copy_events p items) ++ EvRmtree upload_id :: evs)
  = requests evs.
Proof.
  rewrite requests_app.
  change (requests (EvOpenWrite p :: copy_events p items))
    with (requests (copy_events p items)).
  by rewrite requests_copy_events.
Qed.

(** The upload root once the merged file is removed again. *)
Lemma delete_merged_at_transfer (upload_id filename : string) (l : list (Z * bytes))
    (r : gmap string node) :
  delete (merged_name upload_id filename) (root_at_transfer upload_id filename l r)
  = delete (merged_name upload_id filename) (delete upload_id r).
Proof.
  unfold root_at_transfer. apply map_eq. intros name.
  destruct (decide (name = merged_name upload_id filename)) as [->|Hm].
  - by rewrite !lookup_delete_eq.
  - rewrite !(lookup_delete_ne _ (merged_name upload_id filename)) by done.
    destruct (decide (name = upload_id)) as [->|Hu].
    + by rewrite !lookup_delete_eq.
    + by rewrite !lookup_delete_ne, lookup_insert_ne by done.
Qed.

Lemma root_at_transfer_insert (upload_id filename : string) (l : list (Z * bytes))
    (r : gmap string node) :
  root_at_transfer upload_id filename l r
  = <[merged_name upload_id filename := File (concat (map snd (Sorted.sort l)))]>
      (delete upload_id r).
Proof.
  unfold root_at_transfer. apply map_eq. intros name.
  assert (Hne : merged_name upload_id filename <> upload_id) by apply append_differs.
  destruct (decide (name = upload_id)) as [->|Hu].
  - by rewrite lookup_delete_eq, lookup_insert_ne, lookup_delete_eq.
  - rewrite lookup_delete_ne by done.
    destruct (decide (name = merged_name upload_id filename)) as [->|Hm].
    + by rewrite !lookup_insert_eq.
    + by rewrite !lookup_insert_ne, lookup_delete_ne by done.
Qed.

Lemma complete_accepted_run (E : env) (settings : Config.Settings)
    (S3_KEY upload_id filename : string) (l : list (Z * bytes))
    (r : gmap string node) (t : nat) (lg : list event)
    (expires : Datetime.t) (status : Z) (text : string) :
  r !! upload_id = Some (Dir (staged l)) ->
  NoDup (map fst l) ->
  (forall es, r !! merged_name upload_id filename <> Some (Dir es)) ->
  Datetime.add_hours 1 (clock E t) = Some expires ->
  backend E (multipart_request (Config.s3_client settings) (Config.S3_BUCKET settings)
               (S3_KEY +:+ "/" +:+ filename) (clock E t) expires
               (merged_name upload_id filename) (concat (map snd (Sorted.sort l))))
  = Http.Response status text ->
  status = 200 \/ status = 204 ->
  ChunkUpload.complete_upload_handler E settings S3_KEY upload_id filename (World r t lg)
  = (Ok (PDict [("detail", "Successful Upload Video")]),
     World (delete (merged_name upload_id filename) (delete upload_id r)) (S t)
       (lg ++ ((EvOpenWrite (InRoot (merged_name upload_id filename))
                :: copy_events (InRoot (merged_name upload_id filename)) (Sorted.sort l))
               ++ [EvRmtree upload_id;
                   EvRequest
                     (multipart_request (Config.s3_client settings)
                        (Config.S3_BUCKET settings) (S3_KEY +:+ "/" +:+ filename)
                        (clock E t) expires (merged_name upload_id filename)
                        (concat (map snd (Sorted.sort l))))])
           ++ [EvRemove (merged_name upload_id filename)])).
Proof.
  set (req := multipart_request _ _ _ _ _ _ _).
  intros Hdir Hnd Hm Hlater Hreply Hstatus.
  pose proof (upload_file_multipart_run E (Config.s3_client settings)
                (Config.S3_BUCKET settings) (S3_KEY +:+ "/" +:+ filename)
                (merged_name upload_id filename) (concat (map snd (Sorted.sort l))) expires
                (root_at_transfer upload_id filename l r) t
                (log_at_transfer upload_id filename l lg)
                (merged_at_transfer upload_id filename l r) Hlater) as Hrun.
  fold req in Hrun. rewrite Hreply in Hrun. unfold outcome_of in Hrun.
  rewrite bool_decide_eq_true_2 in Hrun by done.
  rewrite (complete_staged E settings S3_KEY upload_id filename l r t lg Hdir Hnd Hm
             (Ok tt) [EvRequest req] Hrun).
  rewrite delete_merged_at_transfer.
  rewrite (app_assoc (log_at_transfer upload_id filename l lg)), log_at_transfer_split.
  by rewrite <- !app_assoc.
Qed.

(** X7. The success path of [complete_upload_handler]: on a staged session,
    when the backend answers the transfer with status 200 or 204, the
    handler returns the success message; the staging directory and the
    merged file are both gone and nothing else in the upload root has
    changed; the clock was read once; and exactly one request was sent, the
    signed multipart POST that carries the chunks' bytes in index order
    under the key [S3_KEY/filename], the removal of the merged file being
    the last effect. *)
Theorem complete_accepted_transfer (E : env) (settings : Config.Settings)
    (S3_KEY upload_id filename : string) (l : list (Z * bytes)) (w : world)
    (expires : Datetime.t) (status : Z) (text : string) :
  root w !! upload_id = Some (Dir (staged l)) ->
  NoDup (map fst l) ->
  (forall es, root w !! merged_name upload_id filename <> Some (Dir es)) ->
  Datetime.add_hours 1 (clock E (ticks w)) = Some expires ->
  backend E (multipart_request (Config.s3_client settings) (Config.S3_BUCKET settings)
               (S3_KEY +:+ "/" +:+ filename) (clock E (ticks w)) expires
               (merged_name upload_id filename) (concat (map snd (Sorted.sort l))))
  = Http.Response status text ->
  status = 200 \/ status = 204 ->
  exists w' evs,
    ChunkUpload.complete_upload_handler E settings S3_KEY upload_id filename w
    = (Ok (PDict [("detail", "Successful Upload Video")]), w')
    /\ root w' = delete (merged_name upload_id filename) (delete upload_id (root w))
    /\ ticks w' = S (ticks w)
    /\ log w' = log w ++ evs ++ [EvRemove (merged_name upload_id filename)]
    /\ requests evs
       = [multipart_request (Config.s3_client settings) (Config.S3_BUCKET settings)
            (S3_KEY +:+ "/" +:+ filename) (clock E (ticks w)) expires
            (merged_name upload_id filename) (concat (map snd (Sorted.sort l)))].
Proof.
  destruct w as [r t lg]. cbn [root ticks log].
  intros Hdir Hnd Hm Hlater Hreply Hstatus.
  rewrite (complete_accepted_run E settings S3_KEY upload_id filename l r t lg expires
             status text Hdir Hnd Hm Hlater Hreply Hstatus).
  eexists. eexists. split; [reflexivity|]. cbn [root ticks log].
  split; [done|]. split; [done|]. split; [reflexivity|].
  apply requests_at_transfer.
Qed.

Lemma complete_accepted_transfer_witness :
  exists w' evs,
    ChunkUpload.complete_upload_handler (example_env (Http.Response 204 "")) example_settings
      "videos" "s1" "a.txt" staged_session
    = (Ok (PDict [("detail", "Successful Upload Video")]), w')
    /\ root w' = delete (merged_name "s1" "a.txt") (delete "s1" (root staged_session))
    /\ ticks w' = S (ticks staged_session)
    /\ log w' = log staged_session ++ evs ++ [EvRemove (merged_name "s1" "a.txt")]
    /\ requests evs
       = [multipart_request (Config.s3_client example_settings)
            (Config.S3_BUCKET example_settings) ("videos" +:+ "/" +:+ "a.txt")
            (clock (example_env (Http.Response 204 "")) (ticks staged_session))
            (Datetime.Make 2024 2 29 0 30 0 0)
            (merged_name "s1" "a.txt") (concat (map snd (Sorted.sort two_chunks)))].
Proof.
  apply (complete_accepted_transfer (example_env (Http.Response 204 "")) example_settings
           "videos" "s1" "a.txt" two_chunks staged_session
           (Datetime.Make 2024 2 29 0 30 0 0) 204 "").
  - reflexivity.
  - apply NoDup_ListNoDup. repeat constructor; intros H; simpl in H; intuition discriminate.
  - intros es H. vm_compute in H. discriminate.
  - vm_compute. reflexivity.
  - reflexivity.
  - right. reflexivity.
Defined.

(** The effects of [complete_upload_handler] on a staged session, whatever
    the transfer does. *)
Lemma complete_staged_effects (E : env) (settings : Config.Settings)
    (S3_KEY upload_id filename : string) (l : list (Z * bytes)) (w : world) :
  root w !! upload_id = Some (Dir (staged l)) ->
  NoDup (map fst l) ->
  (forall es, root w !! merged_name upload_id filename <> Some (Dir es)) ->
  exists evs,
    log (snd (ChunkUpload.complete_upload_handler E settings S3_KEY upload_id filename w))
    = log w ++ evs
    /\ (length (requests evs) <= 1)%nat
    /\ ticks (snd (ChunkUpload.complete_upload_handler E settings S3_KEY upload_id filename w))
       = S (ticks w).
Proof.
  destruct w as [r t lg]. cbn [root ticks log]. intros Hdir Hnd Hm.
  destruct (transfer_frame E settings S3_KEY upload_id filename l r t lg)
    as (res & evs & Htransfer & Hevs).
  rewrite (complete_staged E settings S3_KEY upload_id filename l r t lg Hdir Hnd Hm
             res evs Htransfer).
  assert (Hreq : (length (requests evs) <= 1)%nat).
  { destruct Hevs as [->|[req ->]]; simpl; lia. }
  destruct res as [[]|e]; cbn [snd log ticks].
  - exists ((EvOpenWrite (InRoot (merged_name upload_id filename))
             :: copy_events (InRoot (merged_name upload_id filename)) (Sorted.sort l))
            ++ EvRmtree upload_id :: evs ++ [EvRemove (merged_name upload_id filename)]).
    split; [|split; [|done]].
    + rewrite (app_assoc (log_at_transfer upload_id filename l lg)), log_at_transfer_split.
      by rewrite <- !app_assoc.
    + rewrite requests_at_transfer, requests_app. simpl. rewrite app_nil_r. exact Hreq.
  - exists ((EvOpenWrite (InRoot (merged_name upload_id filename))
             :: copy_events (InRoot (merged_name upload_id filename)) (Sorted.sort l))
            ++ EvRmtree upload_id :: evs).
    split; [apply log_at_transfer_split|]. split; [|done].
    by rewrite requests_at_transfer.
Qed.

(** X8. Whatever the clock and the backend do, [complete_upload_handler] on
    a staged session returns normally, having read the clock once and
    removed the staging directory, in one of two states: the success
    message with no merged file left, or the fixed 500 object with the
    merged file still in the upload root. Nothing of the backend's answer
    (status, body text) reaches the caller, and at most one request is
    sent. *)
Theorem complete_two_outcomes (E : env) (settings : Config.Settings)
    (S3_KEY upload_id filename : string) (l : list (Z * bytes)) (w : world) :
  root w !! upload_id = Some (Dir (staged l)) ->
  NoDup (map fst l) ->
  (forall es, root w !! merged_name upload_id filename <> Some (Dir es)) ->
  exists v w' evs,
    ChunkUpload.complete_upload_handler E settings S3_KEY upload_id filename w = (Ok v, w')
    /\ ticks w' = S (ticks w)
    /\ log w' = log w ++ evs
    /\ (length (requests evs) <= 1)%nat
    /\ ((v = PDict [("detail", "Successful Upload Video")]
         /\ root w' = delete (merged_name upload_id filename) (delete upload_id (root w)))
        \/ (v = PExc (HTTPExeption 500 [("detail", "Error uploading merged file to S3")])
            /\ root w'
               = <[merged_name upload_id filename := File (concat (map snd (Sorted.sort l)))]>
                   (delete upload_id (root w)))).
Proof.
  destruct w as [r t lg]. cbn [root ticks log]. intros Hdir Hnd Hm.
  destruct (transfer_frame E settings S3_KEY upload_id filename l r t lg)
    as (res & evs & Htransfer & Hevs).
  rewrite (complete_staged E settings S3_KEY upload_id filename l r t lg Hdir Hnd Hm
             res evs Htransfer).
  assert (Hreq : (length (requests evs) <= 1)%nat).
  { destruct Hevs as [->|[req ->]]; simpl; lia. }
  destruct res as [[]|e].
  - eexists _, _,
      ((EvOpenWrite (InRoot (merged_name upload_id filename))
        :: copy_events (InRoot (merged_name upload_id filename)) (Sorted.sort l))
       ++ EvRmtree upload_id :: evs ++ [EvRemove (merged_name upload_id filename)]).
    split; [reflexivity|]. cbn [root ticks log]. split; [done|]. split.
    + rewrite (app_assoc (log_at_transfer upload_id filename l lg)), log_at_transfer_split.
      by rewrite <- !app_assoc.
    + split.
      * rewrite requests_at_transfer, requests_app. simpl. rewrite app_nil_r. exact Hreq.
      * left. split; [done | apply delete_merged_at_transfer].
  - eexists _, _,
      ((EvOpenWrite (InRoot (merged_name upload_id filename))
        :: copy_events (InRoot (merged_name upload_id filename)) (Sorted.sort l))
       ++ EvRmtree upload_id :: evs).
    split; [reflexivity|]. cbn [root ticks log]. split; [done|]. split.
    + apply log_at_transfer_split.
    + split.
      * by rewrite requests_at_transfer.
      * right. split; [done | apply root_at_transfer_insert].
Qed.

Lemma complete_two_outcomes_witness :
  exists v w' evs,
    ChunkUpload.complete_upload_handler (example_env (Http.Response 301 "Moved"))
      example_settings "videos" "s1" "a.txt" staged_session = (Ok v, w')
    /\ ticks w' = S (ticks staged_session)
    /\ log w' = log staged_session ++ evs
    /\ (length (requests evs) <= 1)%nat
    /\ ((v = PDict [("detail", "Successful Upload Video")]
         /\ root w' = delete (merged_name "s1" "a.txt") (delete "s1" (root staged_session)))
        \/ (v = PExc (HTTPExeption 500 [("detail", "Error uploading merged file to S3")])
            /\ root w'
               = <[merged_name "s1" "a.txt" := File (concat (map snd (Sorted.sort two_chunks)))]>
                   (delete "s1" (root staged_session)))).
Proof.
  apply (complete_two_outcomes (example_env (Http.Response 301 "Moved")) example_settings
           "videos" "s1" "a.txt" two_chunks staged_session).
  - reflexivity.
  - apply NoDup_ListNoDup. repeat constructor; intros H; simpl in H; intuition discriminate.
  - intros es H. vm_compute in H. discriminate.
Defined.

(** *** Names in a staging directory *)

Lemma startswith_chunk (x : string) :
  Str.startswith "chunk_" x = true -> exists rest, x = "chunk_" +:+ rest.
Proof.
  unfold Str.startswith.
  do 6 (destruct x as [|? x]; cbn [String.prefix]; [discriminate|];
        match goal with |- context [ascii_dec ?a ?b] => destruct (ascii_dec a b) end;
        [subst|discriminate]).
  intros _. by exists x.
Qed.

Lemma split_nonempty (sep : ascii) (s : string) : Str.split sep s <> [].
Proof.
  induction s as [|c r IH]; simpl; [done|].
  destruct (Ascii.eqb c sep); [done|]. by destruct (Str.split sep r).
Qed.

Lemma split_chunk_prefix (rest : string) :
  Str.split "_" ("chunk_" +:+ rest) = "chunk"%string :: Str.split "_" rest.
Proof. reflexivity. Qed.

(** The key of a name that starts with "chunk_" never fails for want of a
    second field: it is an integer, or [int] raises [ValueError]. *)
Lemma chunk_key_prefixed (x : string) (w : world) :
  Str.startswith "chunk_" x = true ->
  (exists n, ChunkUpload.chunk_key x w = (Ok n, w))
  \/ ChunkUpload.chunk_key x w = (Raise ValueError, w).
Proof.
  intros Hx. apply startswith_chunk in Hx as [rest ->].
  unfold ChunkUpload.chunk_key. rewrite split_chunk_prefix.
  pose proof (split_nonempty "_" rest) as Hne.
  destruct (Str.split "_" rest) as [|field fields]; [done|]. cbn [lookup list_lookup].
  destruct (Str.to_int field) as [n|]; [left; by exists n | by right].
Qed.

Lemma keyed_raises (xs : list string) (x : string) (w : world) :
  Forall (fun y => Str.startswith "chunk_" y = true) xs ->
  x ∈ xs ->
  ChunkUpload.chunk_key x w = (Raise ValueError, w) ->
  Sorted.keyed ChunkUpload.chunk_key xs w = (Raise ValueError, w).
Proof.
  intros Hall Hx Hkey. induction Hall as [|y ys Hy _ IH]; [by apply elem_of_nil in Hx|].
  cbn [Sorted.keyed].
  destruct (chunk_key_prefixed y w Hy) as [[n Hn]|Hr].
  - rewrite (bind_ok _ _ _ _ _ Hn).
    apply elem_of_cons in Hx as [->|Hx]; [by rewrite Hkey in Hn|].
    by rewrite (bind_raise _ _ _ _ _ (IH Hx)).
  - by rewrite (bind_raise _ _ _ _ _ Hr).
Qed.

(** X9. A name in the staging directory that starts with "chunk_" but
    whose second underscore-separated field is no integer (chunk_abc,
    chunk_, chunk_1.5) makes [complete_upload_handler] raise [ValueError]
    out of the sort of line 63: the exception is caught nowhere, no merged
    file is created, the staging directory stays, no request is sent. The
    field is taken to be ASCII text, where [Str.to_int] is Python's [int]
    (which also reads the decimal digits of other scripts). *)
Theorem complete_malformed_chunk_name (E : env) (settings : Config.Settings)
    (S3_KEY upload_id filename : string) (es : list (string * bytes))
    (name field : string) (w : world) :
  root w !! upload_id = Some (Dir es) ->
  name ∈ map fst es ->
  Str.startswith "chunk_" name = true ->
  Str.split "_" name !! 1%nat = Some field ->
  all_chars (fun c => (nat_of_ascii c <? 128)%nat) field = true ->
  Str.to_int field = None ->
  ChunkUpload.complete_upload_handler E settings S3_KEY upload_id filename w
  = (Raise ValueError, w).
Proof.
  intros Hdir Hin Hprefix Hfield _ Hint.
  unfold ChunkUpload.complete_upload_handler.
  rewrite (bind_ok _ _ _ _ _ (path_exists_spec upload_id w)).
  rewrite Hdir, bool_decide_eq_true_2 by eauto. cbn [negb].
  erewrite bind_raise; [reflexivity|].
  unfold ChunkUpload.reassemble.
  rewrite (bind_ok _ _ _ _ _ (listdir_dir upload_id es w Hdir)).
  erewrite bind_raise; [reflexivity|].
  unfold Sorted.sorted. erewrite bind_raise; [reflexivity|].
  apply (keyed_raises _ name).
  - apply Forall_forall. intros y Hy. by apply list_elem_of_In, filter_In in Hy as [_ Hy].
  - apply list_elem_of_In, filter_In. split; [by apply list_elem_of_In | done].
  - unfold ChunkUpload.chunk_key. by rewrite Hfield, Hint.
Qed.

Lemma complete_malformed_chunk_name_witness :
  ChunkUpload.complete_upload_handler (example_env (Http.Response 200 "")) example_settings
    "videos" "s1" "a.txt" malformed_session
  = (Raise ValueError, malformed_session).
Proof.
  apply (complete_malformed_chunk_name (example_env (Http.Response 200 "")) example_settings
           "videos" "s1" "a.txt"
           [("chunk_0"%string, encode "hello "); ("chunk_abc"%string, encode "x")]
           "chunk_abc" "abc" malformed_session).
  - reflexivity.
  - right. left.
  - reflexivity.
  - reflexivity.
  - reflexivity.
  - reflexivity.
Defined.

Lemma lookup_entry_in (es : list (string * bytes)) (name : string) (data : bytes) :
  NoDup (map fst es) -> (name, data) ∈ es -> Os.lookup_entry name es = Some data.
Proof.
  unfold Os.lookup_entry. induction es as [|[n d] es IH]; intros Hnd Hin.
  - by apply elem_of_nil in Hin.
  - cbn [map fst] in Hnd. apply NoDup_cons in Hnd as [Hn Hnd]. cbn [List.find fst].
    apply elem_of_cons in Hin as [[= <- <-]|Hin].
    + by rewrite bool_decide_eq_true_2.
    + rewrite bool_decide_eq_false_2; [by apply IH|].
      intros ->. apply Hn. apply list_elem_of_fmap. by exists (name, data).
Qed.

Lemma written_writes (p : path) (bs : list bytes) : written (map (EvWrite p) bs) = bs.
Proof.
  induction bs as [|b bs IH]; [done|].
  change (written (map (EvWrite p) (b :: bs))) with (b :: written (map (EvWrite p) bs)).
  by rewrite IH.
Qed.

Lemma written_copy_events (p : path) (items : list (Z * bytes)) :
  written (copy_events p items)
  = concat (map (fun c => blocks block_size (length (snd c)) (snd c)) items).
Proof.
  unfold copy_events. induction items as [|c items IH]; [done|].
  cbn [map concat]. unfold written in *. by rewrite omap_app, IH, (written_writes p).
Qed.

Lemma filter_names (P : string -> bool) (es : list (string * bytes)) :
  List.filter P (map fst es) = map fst (List.filter (fun e => P (fst e)) es).
Proof.
  induction es as [|e es IH]; [done|]. cbn [map List.filter].
  destruct (P (fst e)); cbn [map]; by rewrite IH.
Qed.

(** X10. Only files whose name starts with "chunk_" take part in the
    reassembly: in a directory (names distinct) that also holds other
    files, the merged file is made of the chunk files alone, in index
    order; the other files are not read, and the directory is left as it
    was. *)
Theorem reassemble_ignores_other_files (upload_id filename : string)
    (es : list (string * bytes)) (l : list (Z * bytes)) (w : world) :
  root w !! upload_id = Some (Dir es) ->
  NoDup (map fst es) ->
  List.filter (fun e => Str.startswith "chunk_" (fst e)) es = staged l ->
  (forall es', root w !! merged_name upload_id filename <> Some (Dir es')) ->
  exists w',
    ChunkUpload.reassemble upload_id filename w
    = (Ok (InRoot (merged_name upload_id filename)), w')
    /\ root w' !! merged_name upload_id filename
       = Some (File (concat (map snd (Sorted.sort l))))
    /\ root w' !! upload_id = Some (Dir es)
    /\ written (drop (length (log w)) (log w'))
       = concat (map (fun c => blocks block_size (length (snd c)) (snd c)) (Sorted.sort l)).
Proof.
  destruct w as [r t lg]. cbn [root log]. intros Hdir Hnd Hfilter Hm.
  assert (Hne : merged_name upload_id filename <> upload_id) by apply append_differs.
  unfold ChunkUpload.reassemble. fold (merged_name upload_id filename).
  rewrite (bind_ok _ _ _ _ _ (listdir_dir upload_id es (World r t lg) Hdir)).
  assert (Hsorted :
    Sorted.sorted (List.filter (Str.startswith "chunk_") (map fst es))
      ChunkUpload.chunk_key (World r t lg)
    = (Ok (map (fun c => chunk_name (fst c)) (Sorted.sort l)), World r t lg)).
  { unfold Sorted.sorted. rewrite filter_names, Hfilter.
    rewrite (bind_ok _ _ _ _ _ (keyed_chunk_names l _)).
    rewrite (sort_relabel (fun c => chunk_name (fst c)) l), map_map. done. }
  rewrite (bind_ok _ _ _ _ _ Hsorted).
  rewrite (bind_ok _ _ _ _ _ (open_wb_in_root _ r t lg Hm)).
  erewrite bind_ok.
  2:{ apply (merge_loop upload_id (merged_name upload_id filename) es Hne
               (Sorted.sort l) []).
      - by rewrite lookup_insert_ne.
      - by rewrite lookup_insert_eq.
      - intros c Hc. apply lookup_entry_in; [done|].
        rewrite (sort_perm l) in Hc.
        assert (Hs : (chunk_name (fst c), snd c) ∈ staged l).
        { apply list_elem_of_fmap. by exists c. }
        rewrite <- Hfilter in Hs. by apply list_elem_of_In, filter_In in Hs as [Hs _];
          apply list_elem_of_In. }
  unfold ret. eexists. split; [reflexivity|]. cbn [root log app].
  rewrite insert_insert_eq, lookup_insert_eq. split; [done|].
  split; [by rewrite lookup_insert_ne|].
  rewrite <- app_assoc, drop_app_length. cbn [app].
  change (written (EvOpenWrite ?p :: ?evs)) with (written evs).
  apply written_copy_events.
Qed.

Lemma reassemble_ignores_other_files_witness :
  exists w',
    ChunkUpload.reassemble "s1" "a.txt" foreign_file_session
    = (Ok (InRoot (merged_name "s1" "a.txt")), w')
    /\ root w' !! merged_name "s1" "a.txt"
       = Some (File (concat (map snd (Sorted.sort two_chunks))))
    /\ root w' !! "s1"%string
       = Some (Dir [("chunk_1"%string, encode "world"); ("notes.txt"%string, encode "x");
                    ("chunk_0"%string, encode "hello ")])
    /\ written (drop (length (log foreign_file_session)) (log w'))
       = concat (map (fun c => blocks block_size (length (snd c)) (snd c))
                     (Sorted.sort two_chunks)).
Proof.
  apply (reassemble_ignores_other_files "s1" "a.txt"
           [("chunk_1"%string, encode "world"); ("notes.txt"%string, encode "x");
            ("chunk_0"%string, encode "hello ")] two_chunks foreign_file_session).
  - reflexivity.
  - apply NoDup_ListNoDup. repeat constructor; intros H; simpl in H; intuition discriminate.
  - reflexivity.
  - intros es H. vm_compute in H. discriminate.
Defined.

(** ** Sessions *)

Lemma merged_name_inj (id1 id2 f1 f2 : string) :
  no_underscore id1 = true -> no_underscore id2 = true ->
  merged_name id1 f1 = merged_name id2 f2 -> id1 = id2 /\ f1 = f2.
Proof.
  unfold merged_name, no_underscore. revert id2.
  induction id1 as [|c1 s1 IH]; intros [|c2 s2]; cbn [all_chars]; intros H1 H2 Heq.
  - change (String "_" f1 = String "_" f2) in Heq. by injection Heq as ->.
  - change (String "_" f1 = String c2 (s2 +:+ "_" +:+ f2)) in Heq.
    injection Heq as <- _. discriminate.
  - change (String c1 (s1 +:+ "_" +:+ f1) = String "_" f2) in Heq.
    injection Heq as -> _. discriminate.
  - change (String c1 (s1 +:+ "_" +:+ f1) = String c2 (s2 +:+ "_" +:+ f2)) in Heq.
    injection Heq as -> Heq.
    apply andb_true_iff in H1 as [_ H1]. apply andb_true_iff in H2 as [_ H2].
    destruct (IH s2 H1 H2 Heq) as [-> ->]. done.
Qed.

(** X11. The merged files of two sessions never share a path: for session
    ids without underscore (every id [init_upload_handler] hands out is
    one, and in the worlds the service can reach only such ids name a
    directory), the name [f"{upload_id}_{filename}"] determines both the id
    and the file name; and it is never itself the id of a session that
    [init_upload_handler] created. *)
Theorem merged_names_never_collide (id1 id2 f1 f2 : string) :
  no_underscore id1 = true -> no_underscore id2 = true ->
  merged_name id1 f1 = merged_name id2 f2 ->
  id1 = id2 /\ f1 = f2 /\ (forall uuid4, Uuid.to_str uuid4 <> merged_name id1 f1).
Proof.
  intros H1 H2 Heq. destruct (merged_name_inj id1 id2 f1 f2 H1 H2 Heq) as [-> ->].
  split; [done|]. split; [done|]. intros uuid4 Hu.
  pose proof (uuid_no_underscore uuid4) as Hno.
  rewrite Hu, merged_name_underscore in Hno. discriminate.
Qed.

Lemma merged_names_never_collide_witness :
  Uuid.to_str 161 = Uuid.to_str 161 /\ "a.txt"%string = "a.txt"%string
  /\ (forall uuid4, Uuid.to_str uuid4 <> merged_name (Uuid.to_str 161) "a.txt").
Proof.
  apply (merged_names_never_collide (Uuid.to_str 161) (Uuid.to_str 161) "a.txt" "a.txt").
  - vm_compute. reflexivity.
  - vm_compute. reflexivity.
  - reflexivity.
Defined.

(** X12. [init_upload_handler] only ever adds: whatever the upload root
    holds stays as it is (an existing directory of the same id keeps its
    chunks, [exist_ok=True]); the clock is not read; when it returns, the id
    it returns names a directory; and it raises only [FileExistsError], when
    the id names a regular file, changing nothing. *)
Theorem init_keeps_existing_entries (uuid4 : Z) (filename : string) (file_size : Z)
    (w : world) :
  exists res w',
    ChunkUpload.init_upload_handler uuid4 filename file_size w = (res, w')
    /\ (forall name n, root w !! name = Some n -> root w' !! name = Some n)
    /\ ticks w' = ticks w
    /\ (res = Ok (PDict [("upload_id", Uuid.to_str uuid4)])
        /\ (exists es, root w' !! Uuid.to_str uuid4 = Some (Dir es))
        \/ res = Raise FileExistsError /\ w' = w
           /\ exists data, root w !! Uuid.to_str uuid4 = Some (File data)).
Proof.
  destruct w as [r t lg].
  unfold ChunkUpload.init_upload_handler, Os.makedirs, bind, get_root, emit, set_root, ret,
    raise. cbn [root ticks log].
  destruct (r !! Uuid.to_str uuid4) as [[data|es]|] eqn:Hl; eexists _, _;
    (split; [reflexivity|]); cbn [root ticks].
  - split; [done|]. split; [done|]. right. eauto.
  - split; [done|]. split; [done|]. left. eauto.
  - split.
    + intros name n Hn. rewrite lookup_insert_ne; [done|]. intros <-. congruence.
    + split; [done|]. left. split; [done|]. exists []. apply lookup_insert_eq.
Qed.

(** X13. In every world the service can reach from an empty upload root,
    by any sequence of requests to its four handlers and whatever the clock
    and the backend do: every directory of the upload root has a name without
    underscore and holds only chunk files, named after distinct indices; so
    [complete_upload_handler] on any id either returns normally, or raises
    [NotADirectoryError] leaving the world as it is, the latter exactly when
    the id names a regular file (a merged file that a failed transfer left
    behind). *)
Theorem complete_in_reachable_worlds (E : env) (settings : Config.Settings)
    (S3_KEY : string) (w : world) (upload_id filename : string) :
  reachable E settings S3_KEY w ->
  (forall es, root w !! upload_id = Some (Dir es) ->
     no_underscore upload_id = true
     /\ exists l, es = staged l /\ NoDup (map fst l))
  /\ ((exists v w',
         ChunkUpload.complete_upload_handler E settings S3_KEY upload_id filename w
         = (Ok v, w')
         /\ forall data, root w !! upload_id <> Some (File data))
      \/ (ChunkUpload.complete_upload_handler E settings S3_KEY upload_id filename w
          = (Raise NotADirectoryError, w)
          /\ exists data, root w !! upload_id = Some (File data))).
Proof.
  intros Hreach. pose proof (reachable_well_staged E settings S3_KEY w Hreach) as Hw.
  split; [intros es Hes; exact (Hw _ _ Hes)|].
  destruct (root w !! upload_id) as [[data|es]|] eqn:Hl.
  - right. split; [by apply (complete_on_file E settings S3_KEY _ _ data) | eauto].
  - left. destruct (Hw _ _ Hl) as (_ & l & -> & Hnd).
    destruct w as [r t lg]. cbn [root] in *.
    destruct (transfer_frame E settings S3_KEY upload_id filename l r t lg)
      as (res & evs & Htransfer & _).
    rewrite (complete_staged E settings S3_KEY upload_id filename l r t lg Hl Hnd
               (well_staged_merged_free r upload_id filename Hw) res evs Htransfer).
    destruct res as [[]|e]; eexists _, _; (split; [reflexivity | done]).
  - left. rewrite (complete_unknown E settings S3_KEY _ _ w Hl).
    eexists _, _. split; [reflexivity | done].
Qed.

Lemma complete_in_reachable_worlds_witness :
  (forall es,
     root (snd (serve (example_env Http.Unreachable) example_settings "videos"
                  (CallInit 161 "a.txt" 11) (World ∅ 0 [])))
       !! Uuid.to_str 161 = Some (Dir es) ->
     no_underscore (Uuid.to_str 161) = true
     /\ exists l, es = staged l /\ NoDup (map fst l))
  /\ ((exists v w',
         ChunkUpload.complete_upload_handler (example_env Http.Unreachable) example_settings
           "videos" (Uuid.to_str 161) "a.txt"
           (snd (serve (example_env Http.Unreachable) example_settings "videos"
                   (CallInit 161 "a.txt" 11) (World ∅ 0 [])))
         = (Ok v, w')
         /\ forall data,
              root (snd (serve (example_env Http.Unreachable) example_settings "videos"
                           (CallInit 161 "a.txt" 11) (World ∅ 0 [])))
                !! Uuid.to_str 161 <> Some (File data))
      \/ (ChunkUpload.complete_upload_handler (example_env Http.Unreachable) example_settings
            "videos" (Uuid.to_str 161) "a.txt"
            (snd (serve (example_env Http.Unreachable) example_settings "videos"
                    (CallInit 161 "a.txt" 11) (World ∅ 0 [])))
          = (Raise NotADirectoryError,
             snd (serve (example_env Http.Unreachable) example_settings "videos"
                    (CallInit 161 "a.txt" 11) (World ∅ 0 [])))
          /\ exists data,
               root (snd (serve (example_env Http.Unreachable) example_settings "videos"
                            (CallInit 161 "a.txt" 11) (World ∅ 0 [])))
                 !! Uuid.to_str 161 = Some (File data))).
Proof.
  apply (complete_in_reachable_worlds (example_env Http.Unreachable) example_settings "videos"
           (snd (serve (example_env Http.Unreachable) example_settings "videos"
                   (CallInit 161 "a.txt" 11) (World ∅ 0 [])))
           (Uuid.to_str 161) "a.txt").
  apply reachable_serve. apply reachable_start.
Defined.

(** ** From [init] to [complete] *)

Lemma upload_chunks_quiet (upload_id : string) :
  forall (chunks l0 : list (Z * bytes)) r t lg,
    r !! upload_id = Some (Dir (staged l0)) ->
    NoDup (map fst (l0 ++ chunks)) ->
    exists evs,
      upload_chunks upload_id chunks (World r t lg)
      = (Ok tt, World (<[upload_id := Dir (staged (l0 ++ chunks))]> r) t (lg ++ evs))
      /\ requests evs = [].
Proof.
  induction chunks as [|c chunks IH]; intros l0 r t lg Hdir Hnd.
  - exists []. unfold upload_chunks. simpl. rewrite !app_nil_r, insert_id; done.
  - assert (Hfresh : chunk_name (fst c) ∉ map fst (staged l0)).
    { rewrite staged_names. intros Hin.
      apply list_elem_of_fmap in Hin as [i [Hi Hin]]. apply chunk_name_inj in Hi. subst i.
      rewrite map_app in Hnd. apply NoDup_app in Hnd as (_ & Hdisj & _).
      apply (Hdisj _ Hin). simpl. left. }
    assert (Hstep :
      (let* _ := ChunkUpload.upload_chunk_handler upload_id (fst c) (Upload "blob" (snd c)) in
       ret tt) (World r t lg)
      = (Ok tt, World (<[upload_id := Dir (staged (l0 ++ [c]))]> r) t
                      (lg ++ store_events (InDir upload_id (chunk_name (fst c))) (snd c)))).
    { rewrite (bind_ok _ _ _ _ _
                 (upload_chunk_stores upload_id (fst c) (Upload "blob" (snd c))
                    (staged l0) r t lg Hdir)).
      rewrite (set_entry_fresh _ _ _ Hfresh). cbn [content]. by rewrite staged_app. }
    destruct (IH (l0 ++ [c]) (<[upload_id := Dir (staged (l0 ++ [c]))]> r) t
                (lg ++ store_events (InDir upload_id (chunk_name (fst c))) (snd c)))
      as (evs & Hrun & Hquiet).
    + by rewrite lookup_insert_eq.
    + by rewrite <- app_assoc.
    + exists (store_events (InDir upload_id (chunk_name (fst c))) (snd c) ++ evs). split.
      * unfold upload_chunks in *. cbn [for_each].
        rewrite (bind_ok _ _ _ _ _ Hstep), Hrun, insert_insert_eq, <- !app_assoc. done.
      * by rewrite requests_app, requests_store_events, Hquiet.
Qed.

Lemma init_fresh (uuid4 : Z) (filename : string) (file_size : Z)
    (r : gmap string node) (t : nat) (lg : list event) :
  r !! Uuid.to_str uuid4 = None ->
  ChunkUpload.init_upload_handler uuid4 filename file_size (World r t lg)
  = (Ok (PDict [("upload_id", Uuid.to_str uuid4)]),
     World (<[Uuid.to_str uuid4 := Dir []]> r) t (lg ++ [EvMakedirs (Uuid.to_str uuid4)])).
Proof.
  intros Hfresh.
  unfold ChunkUpload.init_upload_handler, Os.makedirs, bind, get_root, emit, set_root, ret.
  cbn [root ticks log]. by rewrite Hfresh.
Qed.

(** Removing a session and its merged file gives back the upload root from
    before the session. *)
Lemma delete_session (r : gmap string node) (upload_id merged : string) (n : node) :
  r !! upload_id = None -> r !! merged = None ->
  delete merged (delete upload_id (<[upload_id := n]> r)) = r.
Proof.
  intros Hu Hm. rewrite delete_insert_eq. apply map_eq. intros name.
  destruct (decide (name = merged)) as [->|Hnm].
  - by rewrite lookup_delete_eq.
  - rewrite lookup_delete_ne by done.
    destruct (decide (name = upload_id)) as [->|Hnu].
    + by rewrite lookup_delete_eq.
    + by rewrite lookup_delete_ne.
Qed.

(** X14. A whole upload, end to end: [init] on a fresh id, the chunks of a
    file cut into [contents] uploaded in any order of arrival, then
    [complete] with a backend that accepts the transfer. All three steps
    succeed; over the whole run exactly one request is sent, the multipart
    POST whose file part is the file put together again
    ([concat contents]); and the upload root ends exactly as it was before
    [init]: nothing of the session stays on disk. *)
Theorem upload_session_end_to_end (E : env) (settings : Config.Settings) (S3_KEY : string)
    (uuid4 : Z) (filename : string) (file_size : Z) (contents : list bytes)
    (arrival : list (Z * bytes)) (w : world)
    (expires : Datetime.t) (status : Z) (text : string) :
  root w !! Uuid.to_str uuid4 = None ->
  root w !! merged_name (Uuid.to_str uuid4) filename = None ->
  arrival ≡ₚ numbered contents ->
  Datetime.add_hours 1 (clock E (ticks w)) = Some expires ->
  backend E (multipart_request (Config.s3_client settings) (Config.S3_BUCKET settings)
               (S3_KEY +:+ "/" +:+ filename) (clock E (ticks w)) expires
               (merged_name (Uuid.to_str uuid4) filename) (concat contents))
  = Http.Response status text ->
  status = 200 \/ status = 204 ->
  exists w1 w2 w3 evs,
    ChunkUpload.init_upload_handler uuid4 filename file_size w
    = (Ok (PDict [("upload_id", Uuid.to_str uuid4)]), w1)
    /\ upload_chunks (Uuid.to_str uuid4) arrival w1 = (Ok tt, w2)
    /\ ChunkUpload.complete_upload_handler E settings S3_KEY (Uuid.to_str uuid4) filename w2
       = (Ok (PDict [("detail", "Successful Upload Video")]), w3)
    /\ root w3 = root w
    /\ log w3 = log w ++ evs
    /\ requests evs
       = [multipart_request (Config.s3_client settings) (Config.S3_BUCKET settings)
            (S3_KEY +:+ "/" +:+ filename) (clock E (ticks w)) expires
            (merged_name (Uuid.to_str uuid4) filename) (concat contents)].
Proof.
  destruct w as [r t lg]. cbn [root ticks log].
  intros Hfresh Hmerged Hperm Hlater Hreply Hstatus.
  pose proof (init_fresh uuid4 filename file_size r t lg Hfresh) as Hinit.
  remember (Uuid.to_str uuid4) as upload_id eqn:Hid. clear Hid.
  assert (Hne : merged_name upload_id filename <> upload_id) by apply append_differs.
  assert (Hnd : NoDup (map fst arrival)).
  { assert (Hp : map fst arrival ≡ₚ map fst (numbered contents)) by by apply Permutation_map.
    rewrite Hp. apply strictly_sorted_keys_nodup, numbered_from_sorted. }
  assert (Hsort : Sorted.sort arrival = numbered contents).
  { apply strictly_sorted_unique;
      [by apply sort_strict | apply numbered_from_sorted | by rewrite sort_perm]. }
  assert (Hbytes : concat (map snd (Sorted.sort arrival)) = concat contents).
  { rewrite Hsort. unfold numbered. by rewrite numbered_from_contents. }
  destruct (upload_chunks_quiet upload_id arrival [] (<[upload_id := Dir []]> r) t
              (lg ++ [EvMakedirs upload_id])) as (evs & Hchunks & Hquiet).
  { apply lookup_insert_eq. }
  { exact Hnd. }
  cbn [app] in Hchunks. rewrite insert_insert_eq in Hchunks.
  pose proof (complete_accepted_run E settings S3_KEY upload_id filename arrival
                (<[upload_id := Dir (staged arrival)]> r) t
                ((lg ++ [EvMakedirs upload_id]) ++ evs) expires status text) as Hcomplete.
  rewrite Hbytes in Hcomplete.
  specialize (Hcomplete ltac:(apply lookup_insert_eq) Hnd).
  specialize (Hcomplete ltac:(intros es; rewrite lookup_insert_ne by done; congruence)).
  specialize (Hcomplete Hlater Hreply Hstatus).
  eexists _, _, _,
    ([EvMakedirs upload_id] ++ evs
     ++ ((EvOpenWrite (InRoot (merged_name upload_id filename))
          :: copy_events (InRoot (merged_name upload_id filename)) (Sorted.sort arrival))
         ++ EvRmtree upload_id :: [EvRequest _])
     ++ [EvRemove (merged_name upload_id filename)]).
  split; [exact Hinit|]. split; [exact Hchunks|]. split; [exact Hcomplete|].
  cbn [root log]. split; [by apply delete_session|].
  split; [by rewrite <- !app_assoc|].
  rewrite (requests_app [_]), (requests_app evs), Hquiet, requests_app, requests_at_transfer.
  reflexivity.
Qed.

Lemma upload_session_end_to_end_witness :
  exists w1 w2 w3 evs,
    ChunkUpload.init_upload_handler 161 "a.txt" 12 (World ∅ 0 [])
    = (Ok (PDict [("upload_id", Uuid.to_str 161)]), w1)
    /\ upload_chunks (Uuid.to_str 161)
         [(2, encode "!"); (0, encode "hello "); (1, encode "world")] w1 = (Ok tt, w2)
    /\ ChunkUpload.complete_upload_handler (example_env (Http.Response 200 "")) example_settings
         "videos" (Uuid.to_str 161) "a.txt" w2
       = (Ok (PDict [("detail", "Successful Upload Video")]), w3)
    /\ root w3 = root (World ∅ 0 [])
    /\ log w3 = log (World ∅ 0 []) ++ evs
    /\ requests evs
       = [multipart_request (Config.s3_client example_settings)
            (Config.S3_BUCKET example_settings) ("videos" +:+ "/" +:+ "a.txt")
            (clock (example_env (Http.Response 200 "")) (ticks (World ∅ 0 [])))
            (Datetime.Make 2024 2 29 0 30 0 0)
            (merged_name (Uuid.to_str 161) "a.txt") (concat hello_world_chunks)].
Proof.
  apply (upload_session_end_to_end (example_env (Http.Response 200 "")) example_settings
           "videos" 161 "a.txt" 12 hello_world_chunks
           [(2, encode "!"); (0, encode "hello "); (1, encode "world")] (World ∅ 0 [])
           (Datetime.Make 2024 2 29 0 30 0 0) 200 "").
  - reflexivity.
  - reflexivity.
  - change (numbered hello_world_chunks)
      with [(0, encode "hello "); (1, encode "world"); (2, encode "!")].
    etransitivity; [apply Permutation_swap|]. apply Permutation_skip, Permutation_swap.
  - vm_compute. reflexivity.
  - reflexivity.
  - left. reflexivity.
Defined.

(** ** The storage client *)

Lemma dict_get_set_eq (k v : string) (d : list (string * string)) :
  dict_get k (S3.dict_set k v d) = Some v.
Proof.
  unfold dict_get. induction d as [|[k' v'] d IH]; cbn [S3.dict_set].
  - cbn [List.find fst]. by rewrite bool_decide_eq_true_2.
  - destruct (decide (k' = k)) as [->|Hne].
    + rewrite bool_decide_eq_true_2 by done. cbn [List.find fst].
      by rewrite bool_decide_eq_true_2.
    + rewrite bool_decide_eq_false_2 by done. cbn [List.find fst].
      by rewrite bool_decide_eq_false_2.
Qed.

Lemma dict_get_set_ne (k k' v : string) (d : list (string * string)) :
  k <> k' -> dict_get k' (S3.dict_set k v d) = dict_get k' d.
Proof.
  intros Hne. unfold dict_get. induction d as [|[k0 v0] d IH]; cbn [S3.dict_set].
  - cbn [List.find fst]. by rewrite bool_decide_eq_false_2.
  - destruct (decide (k0 = k)) as [->|Hk].
    + rewrite bool_decide_eq_true_2 by done. cbn [List.find fst].
      by rewrite bool_decide_eq_false_2.
    + rewrite bool_decide_eq_false_2 by done. cbn [List.find fst].
      destruct (bool_decide (k0 = k')); [done | exact IH].
Qed.

(** X15. [sign_request] on any dictionary of headers: it reads the clock
    once and has no other effect; in the result the three entries
    Authorization, x-amz-date and x-amz-content-sha256 hold the signature
    header, the time stamp of that one reading and the payload hash,
    whatever the dictionary held under these keys; every other entry is
    handed back as it came, and none of them enters the signature. *)
Theorem sign_request_sets_three_headers (E : env) (self : S3.S3Client)
    (method bucket key : string) (headers : list (string * string))
    (payload_hash : string) (w : world) :
  exists signed,
    S3.sign_request E self method bucket key headers payload_hash w
    = (Ok signed, World (root w) (S (ticks w)) (log w))
    /\ dict_get "Authorization" signed
       = Some (authorization_of self (clock E (ticks w)) method bucket key payload_hash)
    /\ dict_get "x-amz-date" signed = Some (Datetime.amz_date (clock E (ticks w)))
    /\ dict_get "x-amz-content-sha256" signed = Some payload_hash
    /\ (forall k, k <> "Authorization"%string -> k <> "x-amz-date"%string ->
                  k <> "x-amz-content-sha256"%string ->
                  dict_get k signed = dict_get k headers).
Proof.
  unfold S3.sign_request, bind, datetime_now, ret. cbn [root ticks log].
  unfold authorization_of. cbv zeta.
  eexists. split; [reflexivity|].
  split.
  { rewrite !dict_get_set_ne by discriminate. apply dict_get_set_eq. }
  split.
  { rewrite dict_get_set_ne by discriminate. apply dict_get_set_eq. }
  split; [apply dict_get_set_eq|].
  intros k Ha Hd Hh. by rewrite !dict_get_set_ne.
Qed.

Lemma outcome_of_spec (reply : Http.reply) :
  (outcome_of reply = Ok tt <->
   exists status text, reply = Http.Response status text /\ (status = 200 \/ status = 204))
  /\ (forall status text,
        reply = Http.Response status text -> status <> 200 -> status <> 204 ->
        outcome_of reply = Raise (S3ClientException status text))
  /\ (reply = Http.Unreachable -> outcome_of reply = Raise ClientError).
Proof.
  unfold outcome_of. destruct reply as [status text|].
  - destruct (decide (status = 200 \/ status = 204)) as [Hs|Hs].
    + rewrite bool_decide_eq_true_2 by done. split; [|split; [|done]].
      * split; [intros _; by exists status, text | done].
      * intros status' text' [= -> ->] H200 H204. by destruct Hs.
    + rewrite bool_decide_eq_false_2 by done. split; [|split; [|done]].
      * split; [done|]. intros (status' & text' & [= -> ->] & Hs'). by destruct Hs.
      * by intros status' text' [= -> ->] _ _.
  - split; [split; [done|]; by intros (? & ? & ? & _) | by split].
Qed.

(** X16. The multipart upload sends one POST to the bucket's root URL
    https://{bucket}.{endpoint}/ (the key travels in the form, not in the
    URL) without any header of its own, and reads the answer as the PUT
    upload does: success exactly on status 200 or 204, otherwise
    [S3ClientException] with the status and the whole body text; a backend
    that gives no answer makes it raise the session's error. The upload root
    is not touched. *)
Theorem multipart_upload_outcome (E : env) (self : S3.S3Client) (bucket key name : string)
    (data : bytes) (expires : Datetime.t) (w : world) :
  root w !! name = Some (File data) ->
  Datetime.add_hours 1 (clock E (ticks w)) = Some expires ->
  exists res req,
    S3.upload_file_multipart E self bucket key (InRoot name) w
    = (res, World (root w) (S (ticks w)) (log w ++ [EvRequest req]))
    /\ Http.method req = "POST"%string
    /\ Http.url req = "https://" +:+ bucket +:+ "." +:+ S3.endpoint self +:+ "/"
    /\ Http.headers req = []
    /\ (res = Ok tt <->
        exists status text,
          backend E req = Http.Response status text /\ (status = 200 \/ status = 204))
    /\ (forall status text,
          backend E req = Http.Response status text -> status <> 200 -> status <> 204 ->
          res = Raise (S3ClientException status text))
    /\ (backend E req = Http.Unreachable -> res = Raise ClientError).
Proof.
  destruct w as [r t lg]. cbn [root ticks log]. intros Hfile Hlater.
  exists (outcome_of (backend E (multipart_request self bucket key (clock E t) expires
                                   name data))),
    (multipart_request self bucket key (clock E t) expires name data).
  split; [by apply upload_file_multipart_run|].
  split; [reflexivity|]. split; [reflexivity|]. split; [reflexivity|].
  apply outcome_of_spec.
Qed.

Lemma multipart_upload_outcome_witness :
  exists res req,
    S3.upload_file_multipart (example_env (Http.Response 403 "AccessDenied")) example_client
      "bkt" "videos/a.txt" (InRoot "s1_a.txt") merged_only
    = (res, World (root merged_only) (S (ticks merged_only))
              (log merged_only ++ [EvRequest req]))
    /\ Http.method req = "POST"%string
    /\ Http.url req = "https://" +:+ "bkt" +:+ "." +:+ S3.endpoint example_client +:+ "/"
    /\ Http.headers req = []
    /\ (res = Ok tt <->
        exists status text,
          backend (example_env (Http.Response 403 "AccessDenied")) req
          = Http.Response status text /\ (status = 200 \/ status = 204))
    /\ (forall status text,
          backend (example_env (Http.Response 403 "AccessDenied")) req
          = Http.Response status text -> status <> 200 -> status <> 204 ->
          res = Raise (S3ClientException status text))
    /\ (backend (example_env (Http.Response 403 "AccessDenied")) req = Http.Unreachable ->
        res = Raise ClientError).
Proof.
  apply (multipart_upload_outcome (example_env (Http.Response 403 "AccessDenied"))
           example_client "bkt" "videos/a.txt" "s1_a.txt" (encode "hello world")
           (Datetime.Make 2024 2 29 0 30 0 0) merged_only).
  - reflexivity.
  - vm_compute. reflexivity.
Defined.

Lemma open_rb_frame (p : path) (w : world) : snd (Os.open_rb p w) = w.
Proof.
  unfold Os.open_rb, bind, get_root, ret, raise.
  destruct p; cbn [fst snd]; repeat case_match; done.
Qed.

(** X17. The multipart upload builds and signs its policy before it opens
    the file: when the expiry (one hour after the clock reading) falls
    beyond year 9999 it raises [OverflowError], and when the path is no
    readable regular file it raises what [open] raises; in both cases the
    clock has been read, and nothing is sent and nothing on disk changes. *)
Theorem multipart_upload_sends_nothing (E : env) (self : S3.S3Client) (bucket key : string)
    (p : path) (w : world) :
  Datetime.add_hours 1 (clock E (ticks w)) = None
  \/ (exists e, Os.open_rb p w = (Raise e, w)) ->
  exists e,
    S3.upload_file_multipart E self bucket key p w
    = (Raise e, World (root w) (S (ticks w)) (log w))
    /\ (Datetime.add_hours 1 (clock E (ticks w)) = None -> e = OverflowError)
    /\ (forall later, Datetime.add_hours 1 (clock E (ticks w)) = Some later ->
        Os.open_rb p w = (Raise e, w)).
Proof.
  destruct w as [r t lg]. cbn [root ticks log]. intros Hcase.
  unfold S3.upload_file_multipart. unfold bind at 1, datetime_now. cbn [root ticks log].
  destruct (Datetime.add_hours 1 (clock E t)) as [later|] eqn:Hlater.
  - destruct Hcase as [|[e Hopen]]; [done|].
    assert (Hopen' : Os.open_rb p (World r (S t) lg) = (Raise e, World r (S t) lg)).
    { revert Hopen. unfold Os.open_rb, bind, get_root, ret, raise. cbn [root].
      destruct p; repeat case_match; intros; simplify_eq; done. }
    exists e. rewrite (bind_raise _ _ _ _ _ Hopen').
    split; [done|]. split; [done|]. by intros ? _.
  - exists OverflowError. split; [done|]. split; [done|]. by intros ?.
Qed.

Lemma multipart_upload_sends_nothing_witness :
  exists e,
    S3.upload_file_multipart (example_env (Http.Response 200 "")) example_client
      "bkt" "videos/a.txt" (InRoot "missing") merged_only
    = (Raise e, World (root merged_only) (S (ticks merged_only)) (log merged_only))
    /\ (Datetime.add_hours 1
          (clock (example_env (Http.Response 200 "")) (ticks merged_only)) = None ->
        e = OverflowError)
    /\ (forall later,
          Datetime.add_hours 1
            (clock (example_env (Http.Response 200 "")) (ticks merged_only)) = Some later ->
          Os.open_rb (InRoot "missing") merged_only = (Raise e, merged_only)).
Proof.
  apply (multipart_upload_sends_nothing (example_env (Http.Response 200 "")) example_client
           "bkt" "videos/a.txt" (InRoot "missing") merged_only).
  right. exists FileNotFoundError. reflexivity.
Defined.

(** X18. [upload_file] looks at [file_path] first: with a path, the bytes
    argument is ignored and the upload is the one of the file's content
    given as bytes; if the file cannot be opened the exception of [open]
    comes out before the clock is read or anything is sent; and with
    neither path nor bytes the hash of [None] raises [TypeError], again with
    no effect at all. *)
Theorem upload_file_reads_path_first (E : env) (self : S3.S3Client) (bucket key : string)
    (p : path) (file_bytes : option bytes) (w : world) :
  match Os.open_rb p w with
  | (Ok data, _) =>
      S3.upload_file E self bucket key (Some p) file_bytes w
      = S3.upload_file E self bucket key None (Some data) w
  | (Raise e, _) =>
      S3.upload_file E self bucket key (Some p) file_bytes w = (Raise e, w)
  end
  /\ S3.upload_file E self bucket key None None w = (Raise TypeError, w).
Proof.
  split; [|reflexivity].
  pose proof (open_rb_frame p w) as Hframe.
  destruct (Os.open_rb p w) as [[data|e] w'] eqn:Hopen; cbn [snd] in Hframe; subst w'.
  - unfold S3.upload_file.
    assert (Hdata : (let* d := Os.open_rb p in ret (Some d)) w = (Ok (Some data), w)).
    { by rewrite (bind_ok _ _ _ _ _ Hopen). }
    rewrite (bind_ok _ _ _ _ _ Hdata).
    assert (Hbytes : (ret (Some data) : M (option bytes)) w = (Ok (Some data), w)) by done.
    by rewrite (bind_ok _ _ _ _ _ Hbytes).
  - unfold S3.upload_file.
    assert (Hdata : (let* d := Os.open_rb p in ret (Some d)) w = (Raise e, w)).
    { by rewrite (bind_raise _ _ _ _ _ Hopen). }
    by rewrite (bind_raise _ _ _ _ _ Hdata).
Qed.

(** ** What one request can do *)

(** X19. In every world the service can reach, serving one more request
    only appends to the log of effects, reads the clock at most once and
    sends at most one request to the backend; and only [complete] ever
    sends one or reads the clock: [init], a chunk upload and the
    single-file upload never contact the backend. *)
Theorem serve_sends_at_most_one_request (E : env) (settings : Config.Settings)
    (S3_KEY : string) (c : call) (w : world) :
  reachable E settings S3_KEY w ->
  exists evs,
    log (snd (serve E settings S3_KEY c w)) = log w ++ evs
    /\ (length (requests evs) <= 1)%nat
    /\ (ticks w <= ticks (snd (serve E settings S3_KEY c w)) <= S (ticks w))%nat
    /\ ((forall upload_id filename, c <> CallComplete upload_id filename) ->
        requests evs = [] /\ ticks (snd (serve E settings S3_KEY c w)) = ticks w).
Proof.
  intros Hreach. pose proof (reachable_well_staged E settings S3_KEY w Hreach) as Hw.
  destruct c as [uuid4 filename file_size|upload_id chunk_index file
                |upload_id filename|file]; cbn [serve].
  - destruct w as [r t lg].
    unfold ChunkUpload.init_upload_handler, Os.makedirs, bind, get_root, emit, set_root, ret,
      raise. cbn [root ticks log].
    destruct (r !! Uuid.to_str uuid4) as [[data|es]|]; cbn [snd log ticks].
    + exists []. rewrite app_nil_r. simpl. repeat split; lia.
    + exists []. rewrite app_nil_r. simpl. repeat split; lia.
    + exists [EvMakedirs (Uuid.to_str uuid4)]. simpl. repeat split; lia.
  - destruct (root w !! upload_id) as [[data|es]|] eqn:Hl.
    + rewrite (upload_chunk_on_file _ _ _ data w Hl). cbn [snd].
      exists []. rewrite app_nil_r. simpl. repeat split; lia.
    + destruct w as [r t lg]. cbn [root] in Hl.
      rewrite (upload_chunk_stores upload_id chunk_index file es r t lg Hl).
      cbn [snd log ticks]. eexists. split; [reflexivity|].
      rewrite requests_store_events. simpl. repeat split; lia.
    + rewrite (upload_chunk_unknown _ _ _ w Hl). cbn [snd].
      exists []. rewrite app_nil_r. simpl. repeat split; lia.
  - destruct (root w !! upload_id) as [[data|es]|] eqn:Hl.
    + rewrite (complete_on_file E settings S3_KEY _ _ data w Hl). cbn [snd].
      exists []. rewrite app_nil_r. simpl.
      split; [done|]. split; [lia|]. split; [lia|]. intros Hc. by destruct (Hc upload_id filename).
    + destruct (Hw _ _ Hl) as (_ & l & -> & Hnd).
      destruct (complete_staged_effects E settings S3_KEY upload_id filename l w Hl Hnd
                  (well_staged_merged_free (root w) upload_id filename Hw))
        as (evs & Hlog & Hreq & Hticks).
      exists evs. split; [done|]. split; [done|]. split; [lia|].
      intros Hc. by destruct (Hc upload_id filename).
    + rewrite (complete_unknown E settings S3_KEY _ _ w Hl). cbn [snd].
      exists []. rewrite app_nil_r. simpl.
      split; [done|]. split; [lia|]. split; [lia|]. intros Hc. by destruct (Hc upload_id filename).
  - unfold FileUpload.upload_file, try_except.
    rewrite call_with_file_bytes_keyword. cbn [raise snd].
    exists []. rewrite app_nil_r. simpl. repeat split; lia.
Qed.

Lemma serve_sends_at_most_one_request_witness :
  exists evs,
    log (snd (serve (example_env (Http.Response 200 "")) example_settings "videos"
                (CallChunk (Uuid.to_str 161) 0 (Upload "blob" (encode "data")))
                (snd (serve (example_env (Http.Response 200 "")) example_settings "videos"
                        (CallInit 161 "a.txt" 4) (World ∅ 0 [])))))
    = log (snd (serve (example_env (Http.Response 200 "")) example_settings "videos"
                  (CallInit 161 "a.txt" 4) (World ∅ 0 []))) ++ evs
    /\ (length (requests evs) <= 1)%nat
    /\ (ticks (snd (serve (example_env (Http.Response 200 "")) example_settings "videos"
                      (CallInit 161 "a.txt" 4) (World ∅ 0 [])))
        <= ticks (snd (serve (example_env (Http.Response 200 "")) example_settings "videos"
                         (CallChunk (Uuid.to_str 161) 0 (Upload "blob" (encode "data")))
                         (snd (serve (example_env (Http.Response 200 "")) example_settings
                                 "videos" (CallInit 161 "a.txt" 4) (World ∅ 0 [])))))
        <= S (ticks (snd (serve (example_env (Http.Response 200 "")) example_settings "videos"
                            (CallInit 161 "a.txt" 4) (World ∅ 0 [])))))%nat
    /\ ((forall upload_id filename,
           CallChunk (Uuid.to_str 161) 0 (Upload "blob" (encode "data"))
           <> CallComplete upload_id filename) ->
        requests evs = []
        /\ ticks (snd (serve (example_env (Http.Response 200 "")) example_settings "videos"
                         (CallChunk (Uuid.to_str 161) 0 (Upload "blob" (encode "data")))
                         (snd (serve (example_env (Http.Response 200 "")) example_settings
                                 "videos" (CallInit 161 "a.txt" 4) (World ∅ 0 [])))))
           = ticks (snd (serve (example_env (Http.Response 200 "")) example_settings "videos"
                           (CallInit 161 "a.txt" 4) (World ∅ 0 [])))).
Proof.
  apply (serve_sends_at_most_one_request (example_env (Http.Response 200 "")) example_settings
           "videos" (CallChunk (Uuid.to_str 161) 0 (Upload "blob" (encode "data")))
           (snd (serve (example_env (Http.Response 200 "")) example_settings "videos"
                   (CallInit 161 "a.txt" 4) (World ∅ 0 [])))).
  apply reachable_serve, reachable_start.
Defined.
